(** * Chef Compadre: the conversation orchestration layer

    A shallow embedding of [api/conversation_consolidated.js] and the
    properties its specification states about it.

    Conventions of the embedding.
    - A JavaScript string is the list of its UTF-16 code units ([str]).
    - The calls to the external collaborators (the hosted datastore, the
      generative model, the clock, [JSON.parse], the error console) are the
      events of a finite interaction tree ([prog]); a property that holds
      "whatever the collaborators answer" is a property of every run of the
      tree.
    - The process-wide [conversationHistory] map is threaded explicitly.
    - [console.log] lines are left out, [console.warn] and
      [console.error] are events. One [console.log] line can throw while
      its argument is computed ([text.substring] on a text that is not a
      string): that is part of [endpoint].
    - Letter case follows the Unicode character database (lower-case
      mappings, the special mapping of U+0130, the final sigma); numbers
      are doubles that hold an integer, rounded and printed as such. *)

From Stdlib Require Import String Ascii NArith ZArith Lia List Bool.
From Stdlib Require Import DecimalString.
From stdpp Require Import base option list gmap.

Set Default Proof Using "Type".
Open Scope N_scope.

(* ===================================================================== *)
(** * Strings as UTF-16 code units                                        *)
(* ===================================================================== *)

Module Js.

Definition str := list N.

(** Code point to code units: a surrogate pair above the basic plane. *)
Definition units (cp : N) : str :=
  if cp <? 65536 then [cp]
  else [55296 + (cp - 65536) / 1024; 56320 + (cp - 65536) mod 1024].

(** The code units of a text given as UTF-8 bytes. *)
Fixpoint utf8 (bs : list N) : str :=
  match bs with
  | [] => []
  | b0 :: r0 =>
      if b0 <? 192 then b0 :: utf8 r0
      else
        match r0 with
        | [] => [b0]
        | b1 :: r1 =>
            if b0 <? 224
            then units ((b0 - 192) * 64 + (b1 - 128)) ++ utf8 r1
            else
              match r1 with
              | [] => [b0; b1]
              | b2 :: r2 =>
                  if b0 <? 240
                  then units ((b0 - 224) * 4096 + (b1 - 128) * 64 + (b2 - 128))
                       ++ utf8 r2
                  else
                    match r2 with
                    | [] => [b0; b1; b2]
                    | b3 :: r3 =>
                        units ((b0 - 240) * 262144 + (b1 - 128) * 4096
                               + (b2 - 128) * 64 + (b3 - 128)) ++ utf8 r3
                    end
              end
        end
  end.

(** A literal of the source (this file is UTF-8). *)
Definition lit (s : string) : str :=
  utf8 (List.map N_of_ascii (list_ascii_of_string s)).

(** A literal of the source that contains double quotes, written here with
    a backtick in the place of each. *)
Definition txt (s : string) : str :=
  List.map (fun x => if x =? 96 then 34 else x) (lit s).

Arguments lit : simpl never.
Arguments txt : simpl never.

Definition eqb (a b : str) : bool := bool_decide (a = b).

(** [String.prototype.startsWith]. *)
Fixpoint startsWith (s p : str) : bool :=
  match p, s with
  | [], _ => true
  | _ :: _, [] => false
  | c :: p', x :: s' => (c =? x) && startsWith s' p'
  end.

(** [String.prototype.includes]. *)
Fixpoint includes (s p : str) : bool :=
  startsWith s p ||
  match s with
  | [] => false
  | _ :: s' => includes s' p
  end.

(** WhiteSpace and LineTerminator code units: what [trim] removes and what
    the class [\s] matches. *)
Definition isLineTerminator (x : N) : bool :=
  (x =? 10) || (x =? 13) || (x =? 8232) || (x =? 8233).

Definition isSpace (x : N) : bool :=
  ((9 <=? x) && (x <=? 13)) || (x =? 32) || (x =? 160) || (x =? 5760)
  || ((8192 <=? x) && (x <=? 8202)) || (x =? 8232) || (x =? 8233)
  || (x =? 8239) || (x =? 8287) || (x =? 12288) || (x =? 65279).

Fixpoint trimStart (s : str) : str :=
  match s with
  | x :: s' => if isSpace x then trimStart s' else s
  | [] => []
  end.

Definition trimEnd (s : str) : str := rev (trimStart (rev s)).

(** [String.prototype.trim]. *)
Definition trim (s : str) : str := trimEnd (trimStart s).

(** ** Letter case

    [String.prototype.toLowerCase] converts the code points of the string
    by the default case conversion of the Unicode standard: the simple
    lower-case mapping of each code point, the one special mapping that
    holds in every locale (U+0130 becomes two code points), and the rule of
    the final sigma. The tables are those of Unicode 14.0. *)

Definition isHighSurrogate (x : N) : bool := (55296 <=? x) && (x <=? 56319).
Definition isLowSurrogate (x : N) : bool := (56320 <=? x) && (x <=? 57343).

(** The code points of a string: a high surrogate followed by a low one is
    one code point, any other code unit stands for itself. *)
Fixpoint codePoints (s : str) : list N :=
  match s with
  | [] => []
  | x :: s' =>
      match s' with
      | y :: s'' =>
          if isHighSurrogate x && isLowSurrogate y
          then (65536 + (x - 55296) * 1024 + (y - 56320)) :: codePoints s''
          else x :: codePoints s'
      | [] => [x]
      end
  end.

(** The simple lower-case mappings: [(lo, hi, step, lo')] maps the code
    points [lo], [lo + step], ... up to [hi] to [lo'], [lo' + step], ... *)
Definition lowerTable : list (N * N * N * N) :=
 [(65, 90, 1, 97); (192, 214, 1, 224); (216, 222, 1, 248);
   (256, 302, 2, 257); (306, 310, 2, 307); (313, 327, 2, 314);
   (330, 374, 2, 331); (376, 376, 1, 255); (377, 381, 2, 378);
   (385, 385, 1, 595); (386, 388, 2, 387); (390, 390, 1, 596);
   (391, 391, 1, 392); (393, 394, 1, 598); (395, 395, 1, 396);
   (398, 398, 1, 477); (399, 399, 1, 601); (400, 400, 1, 603);
   (401, 401, 1, 402); (403, 403, 1, 608); (404, 404, 1, 611);
   (406, 406, 1, 617); (407, 407, 1, 616); (408, 408, 1, 409);
   (412, 412, 1, 623); (413, 413, 1, 626); (415, 415, 1, 629);
   (416, 420, 2, 417); (422, 422, 1, 640); (423, 423, 1, 424);
   (425, 425, 1, 643); (428, 428, 1, 429); (430, 430, 1, 648);
   (431, 431, 1, 432); (433, 434, 1, 650); (435, 437, 2, 436);
   (439, 439, 1, 658); (440, 440, 1, 441); (444, 444, 1, 445);
   (452, 452, 1, 454); (453, 453, 1, 454); (455, 455, 1, 457);
   (456, 456, 1, 457); (458, 458, 1, 460); (459, 475, 2, 460);
   (478, 494, 2, 479); (497, 497, 1, 499); (498, 500, 2, 499);
   (502, 502, 1, 405); (503, 503, 1, 447); (504, 542, 2, 505);
   (544, 544, 1, 414); (546, 562, 2, 547); (570, 570, 1, 11365);
   (571, 571, 1, 572); (573, 573, 1, 410); (574, 574, 1, 11366);
   (577, 577, 1, 578); (579, 579, 1, 384); (580, 580, 1, 649);
   (581, 581, 1, 652); (582, 590, 2, 583); (880, 882, 2, 881);
   (886, 886, 1, 887); (895, 895, 1, 1011); (902, 902, 1, 940);
   (904, 906, 1, 941); (908, 908, 1, 972); (910, 911, 1, 973);
   (913, 929, 1, 945); (931, 939, 1, 963); (975, 975, 1, 983);
   (984, 1006, 2, 985); (1012, 1012, 1, 952); (1015, 1015, 1, 1016);
   (1017, 1017, 1, 1010); (1018, 1018, 1, 1019); (1021, 1023, 1, 891);
   (1024, 1039, 1, 1104); (1040, 1071, 1, 1072); (1120, 1152, 2, 1121);
   (1162, 1214, 2, 1163); (1216, 1216, 1, 1231); (1217, 1229, 2, 1218);
   (1232, 1326, 2, 1233); (1329, 1366, 1, 1377); (4256, 4293, 1, 11520);
   (4295, 4295, 1, 11559); (4301, 4301, 1, 11565); (5024, 5103, 1, 43888);
   (5104, 5109, 1, 5112); (7312, 7354, 1, 4304); (7357, 7359, 1, 4349);
   (7680, 7828, 2, 7681); (7838, 7838, 1, 223); (7840, 7934, 2, 7841);
   (7944, 7951, 1, 7936); (7960, 7965, 1, 7952); (7976, 7983, 1, 7968);
   (7992, 7999, 1, 7984); (8008, 8013, 1, 8000); (8025, 8031, 2, 8017);
   (8040, 8047, 1, 8032); (8072, 8079, 1, 8064); (8088, 8095, 1, 8080);
   (8104, 8111, 1, 8096); (8120, 8121, 1, 8112); (8122, 8123, 1, 8048);
   (8124, 8124, 1, 8115); (8136, 8139, 1, 8050); (8140, 8140, 1, 8131);
   (8152, 8153, 1, 8144); (8154, 8155, 1, 8054); (8168, 8169, 1, 8160);
   (8170, 8171, 1, 8058); (8172, 8172, 1, 8165); (8184, 8185, 1, 8056);
   (8186, 8187, 1, 8060); (8188, 8188, 1, 8179); (8486, 8486, 1, 969);
   (8490, 8490, 1, 107); (8491, 8491, 1, 229); (8498, 8498, 1, 8526);
   (8544, 8559, 1, 8560); (8579, 8579, 1, 8580); (9398, 9423, 1, 9424);
   (11264, 11311, 1, 11312); (11360, 11360, 1, 11361);
   (11362, 11362, 1, 619); (11363, 11363, 1, 7549); (11364, 11364, 1, 637);
   (11367, 11371, 2, 11368); (11373, 11373, 1, 593);
   (11374, 11374, 1, 625); (11375, 11375, 1, 592); (11376, 11376, 1, 594);
   (11378, 11378, 1, 11379); (11381, 11381, 1, 11382);
   (11390, 11391, 1, 575); (11392, 11490, 2, 11393);
   (11499, 11501, 2, 11500); (11506, 11506, 1, 11507);
   (42560, 42604, 2, 42561); (42624, 42650, 2, 42625);
   (42786, 42798, 2, 42787); (42802, 42862, 2, 42803);
   (42873, 42875, 2, 42874); (42877, 42877, 1, 7545);
   (42878, 42886, 2, 42879); (42891, 42891, 1, 42892);
   (42893, 42893, 1, 613); (42896, 42898, 2, 42897);
   (42902, 42920, 2, 42903); (42922, 42922, 1, 614);
   (42923, 42923, 1, 604); (42924, 42924, 1, 609); (42925, 42925, 1, 620);
   (42926, 42926, 1, 618); (42928, 42928, 1, 670); (42929, 42929, 1, 647);
   (42930, 42930, 1, 669); (42931, 42931, 1, 43859);
   (42932, 42946, 2, 42933); (42948, 42948, 1, 42900);
   (42949, 42949, 1, 642); (42950, 42950, 1, 7566);
   (42951, 42953, 2, 42952); (42960, 42960, 1, 42961);
   (42966, 42968, 2, 42967); (42997, 42997, 1, 42998);
   (65313, 65338, 1, 65345); (66560, 66599, 1, 66600);
   (66736, 66771, 1, 66776); (66928, 66938, 1, 66967);
   (66940, 66954, 1, 66979); (66956, 66962, 1, 66995);
   (66964, 66965, 1, 67003); (68736, 68786, 1, 68800);
   (71840, 71871, 1, 71872); (93760, 93791, 1, 93792);
   (125184, 125217, 1, 125218)].

Definition lowerPoint (c : N) : N :=
  match
    List.find (fun '(lo, hi, step, _) =>
                 (lo <=? c) && (c <=? hi) && ((c - lo) mod step =? 0))
      lowerTable
  with
  | Some (lo, _, _, lo') => lo' + (c - lo)
  | None => c
  end.

(** The code points with the property Case_Ignorable, as ranges. *)
Definition caseIgnorable : list (N * N) :=
 [(39, 39); (46, 46); (58, 58); (94, 94); (96, 96); (168, 168); (173, 173);
   (175, 175); (180, 180); (183, 184); (688, 879); (884, 885); (890, 890);
   (900, 901); (903, 903); (1155, 1161); (1369, 1369); (1375, 1375);
   (1425, 1469); (1471, 1471); (1473, 1474); (1476, 1477); (1479, 1479);
   (1524, 1524); (1536, 1541); (1552, 1562); (1564, 1564); (1600, 1600);
   (1611, 1631); (1648, 1648); (1750, 1757); (1759, 1768); (1770, 1773);
   (1807, 1807); (1809, 1809); (1840, 1866); (1958, 1968); (2027, 2037);
   (2042, 2042); (2045, 2045); (2070, 2093); (2137, 2139); (2184, 2184);
   (2192, 2193); (2200, 2207); (2249, 2306); (2362, 2362); (2364, 2364);
   (2369, 2376); (2381, 2381); (2385, 2391); (2402, 2403); (2417, 2417);
   (2433, 2433); (2492, 2492); (2497, 2500); (2509, 2509); (2530, 2531);
   (2558, 2558); (2561, 2562); (2620, 2620); (2625, 2626); (2631, 2632);
   (2635, 2637); (2641, 2641); (2672, 2673); (2677, 2677); (2689, 2690);
   (2748, 2748); (2753, 2757); (2759, 2760); (2765, 2765); (2786, 2787);
   (2810, 2815); (2817, 2817); (2876, 2876); (2879, 2879); (2881, 2884);
   (2893, 2893); (2901, 2902); (2914, 2915); (2946, 2946); (3008, 3008);
   (3021, 3021); (3072, 3072); (3076, 3076); (3132, 3132); (3134, 3136);
   (3142, 3144); (3146, 3149); (3157, 3158); (3170, 3171); (3201, 3201);
   (3260, 3260); (3263, 3263); (3270, 3270); (3276, 3277); (3298, 3299);
   (3328, 3329); (3387, 3388); (3393, 3396); (3405, 3405); (3426, 3427);
   (3457, 3457); (3530, 3530); (3538, 3540); (3542, 3542); (3633, 3633);
   (3636, 3642); (3654, 3662); (3761, 3761); (3764, 3772); (3782, 3782);
   (3784, 3789); (3864, 3865); (3893, 3893); (3895, 3895); (3897, 3897);
   (3953, 3966); (3968, 3972); (3974, 3975); (3981, 3991); (3993, 4028);
   (4038, 4038); (4141, 4144); (4146, 4151); (4153, 4154); (4157, 4158);
   (4184, 4185); (4190, 4192); (4209, 4212); (4226, 4226); (4229, 4230);
   (4237, 4237); (4253, 4253); (4348, 4348); (4957, 4959); (5906, 5908);
   (5938, 5939); (5970, 5971); (6002, 6003); (6068, 6069); (6071, 6077);
   (6086, 6086); (6089, 6099); (6103, 6103); (6109, 6109); (6155, 6159);
   (6211, 6211); (6277, 6278); (6313, 6313); (6432, 6434); (6439, 6440);
   (6450, 6450); (6457, 6459); (6679, 6680); (6683, 6683); (6742, 6742);
   (6744, 6750); (6752, 6752); (6754, 6754); (6757, 6764); (6771, 6780);
   (6783, 6783); (6823, 6823); (6832, 6862); (6912, 6915); (6964, 6964);
   (6966, 6970); (6972, 6972); (6978, 6978); (7019, 7027); (7040, 7041);
   (7074, 7077); (7080, 7081); (7083, 7085); (7142, 7142); (7144, 7145);
   (7149, 7149); (7151, 7153); (7212, 7219); (7222, 7223); (7288, 7293);
   (7376, 7378); (7380, 7392); (7394, 7400); (7405, 7405); (7412, 7412);
   (7416, 7417); (7468, 7530); (7544, 7544); (7579, 7679); (8125, 8125);
   (8127, 8129); (8141, 8143); (8157, 8159); (8173, 8175); (8189, 8190);
   (8203, 8207); (8216, 8217); (8228, 8228); (8231, 8231); (8234, 8238);
   (8288, 8292); (8294, 8303); (8305, 8305); (8319, 8319); (8336, 8348);
   (8400, 8432); (11388, 11389); (11503, 11505); (11631, 11631);
   (11647, 11647); (11744, 11775); (11823, 11823); (12293, 12293);
   (12330, 12333); (12337, 12341); (12347, 12347); (12441, 12446);
   (12540, 12542); (40981, 40981); (42232, 42237); (42508, 42508);
   (42607, 42610); (42612, 42621); (42623, 42623); (42652, 42655);
   (42736, 42737); (42752, 42785); (42864, 42864); (42888, 42890);
   (42994, 42996); (43000, 43001); (43010, 43010); (43014, 43014);
   (43019, 43019); (43045, 43046); (43052, 43052); (43204, 43205);
   (43232, 43249); (43263, 43263); (43302, 43309); (43335, 43345);
   (43392, 43394); (43443, 43443); (43446, 43449); (43452, 43453);
   (43471, 43471); (43493, 43494); (43561, 43566); (43569, 43570);
   (43573, 43574); (43587, 43587); (43596, 43596); (43632, 43632);
   (43644, 43644); (43696, 43696); (43698, 43700); (43703, 43704);
   (43710, 43711); (43713, 43713); (43741, 43741); (43756, 43757);
   (43763, 43764); (43766, 43766); (43867, 43871); (43881, 43883);
   (44005, 44005); (44008, 44008); (44013, 44013); (64286, 64286);
   (64434, 64450); (65024, 65039); (65043, 65043); (65056, 65071);
   (65106, 65106); (65109, 65109); (65279, 65279); (65287, 65287);
   (65294, 65294); (65306, 65306); (65342, 65342); (65344, 65344);
   (65392, 65392); (65438, 65439); (65507, 65507); (65529, 65531);
   (66045, 66045); (66272, 66272); (66422, 66426); (67456, 67461);
   (67463, 67504); (67506, 67514); (68097, 68099); (68101, 68102);
   (68108, 68111); (68152, 68154); (68159, 68159); (68325, 68326);
   (68900, 68903); (69291, 69292); (69446, 69456); (69506, 69509);
   (69633, 69633); (69688, 69702); (69744, 69744); (69747, 69748);
   (69759, 69761); (69811, 69814); (69817, 69818); (69821, 69821);
   (69826, 69826); (69837, 69837); (69888, 69890); (69927, 69931);
   (69933, 69940); (70003, 70003); (70016, 70017); (70070, 70078);
   (70089, 70092); (70095, 70095); (70191, 70193); (70196, 70196);
   (70198, 70199); (70206, 70206); (70367, 70367); (70371, 70378);
   (70400, 70401); (70459, 70460); (70464, 70464); (70502, 70508);
   (70512, 70516); (70712, 70719); (70722, 70724); (70726, 70726);
   (70750, 70750); (70835, 70840); (70842, 70842); (70847, 70848);
   (70850, 70851); (71090, 71093); (71100, 71101); (71103, 71104);
   (71132, 71133); (71219, 71226); (71229, 71229); (71231, 71232);
   (71339, 71339); (71341, 71341); (71344, 71349); (71351, 71351);
   (71453, 71455); (71458, 71461); (71463, 71467); (71727, 71735);
   (71737, 71738); (71995, 71996); (71998, 71998); (72003, 72003);
   (72148, 72151); (72154, 72155); (72160, 72160); (72193, 72202);
   (72243, 72248); (72251, 72254); (72263, 72263); (72273, 72278);
   (72281, 72283); (72330, 72342); (72344, 72345); (72752, 72758);
   (72760, 72765); (72767, 72767); (72850, 72871); (72874, 72880);
   (72882, 72883); (72885, 72886); (73009, 73014); (73018, 73018);
   (73020, 73021); (73023, 73029); (73031, 73031); (73104, 73105);
   (73109, 73109); (73111, 73111); (73459, 73460); (78896, 78904);
   (92912, 92916); (92976, 92982); (92992, 92995); (94031, 94031);
   (94095, 94111); (94176, 94177); (94179, 94180); (110576, 110579);
   (110581, 110587); (110589, 110590); (113821, 113822); (113824, 113827);
   (118528, 118573); (118576, 118598); (119143, 119145); (119155, 119170);
   (119173, 119179); (119210, 119213); (119362, 119364); (121344, 121398);
   (121403, 121452); (121461, 121461); (121476, 121476); (121499, 121503);
   (121505, 121519); (122880, 122886); (122888, 122904); (122907, 122913);
   (122915, 122916); (122918, 122922); (123184, 123197); (123566, 123566);
   (123628, 123631); (125136, 125142); (125252, 125259); (127995, 127999);
   (917505, 917505); (917536, 917631); (917760, 917999)].

(** The code points with the property Cased, as ranges. *)
Definition cased : list (N * N) :=
 [(65, 90); (97, 122); (170, 170); (181, 181); (186, 186); (192, 214);
   (216, 246); (248, 442); (444, 447); (452, 659); (661, 696); (704, 705);
   (736, 740); (837, 837); (880, 883); (886, 887); (890, 893); (895, 895);
   (902, 902); (904, 906); (908, 908); (910, 929); (931, 1013);
   (1015, 1153); (1162, 1327); (1329, 1366); (1376, 1416); (4256, 4293);
   (4295, 4295); (4301, 4301); (4304, 4346); (4349, 4351); (5024, 5109);
   (5112, 5117); (7296, 7304); (7312, 7354); (7357, 7359); (7424, 7615);
   (7680, 7957); (7960, 7965); (7968, 8005); (8008, 8013); (8016, 8023);
   (8025, 8025); (8027, 8027); (8029, 8029); (8031, 8061); (8064, 8116);
   (8118, 8124); (8126, 8126); (8130, 8132); (8134, 8140); (8144, 8147);
   (8150, 8155); (8160, 8172); (8178, 8180); (8182, 8188); (8305, 8305);
   (8319, 8319); (8336, 8348); (8450, 8450); (8455, 8455); (8458, 8467);
   (8469, 8469); (8473, 8477); (8484, 8484); (8486, 8486); (8488, 8488);
   (8490, 8493); (8495, 8500); (8505, 8505); (8508, 8511); (8517, 8521);
   (8526, 8526); (8544, 8575); (8579, 8580); (9398, 9449); (11264, 11492);
   (11499, 11502); (11506, 11507); (11520, 11557); (11559, 11559);
   (11565, 11565); (42560, 42605); (42624, 42653); (42786, 42887);
   (42891, 42894); (42896, 42954); (42960, 42961); (42963, 42963);
   (42965, 42969); (42997, 42998); (43000, 43002); (43824, 43866);
   (43868, 43880); (43888, 43967); (64256, 64262); (64275, 64279);
   (65313, 65338); (65345, 65370); (66560, 66639); (66736, 66771);
   (66776, 66811); (66928, 66938); (66940, 66954); (66956, 66962);
   (66964, 66965); (66967, 66977); (66979, 66993); (66995, 67001);
   (67003, 67004); (67456, 67456); (67459, 67461); (67463, 67504);
   (67506, 67514); (68736, 68786); (68800, 68850); (71840, 71903);
   (93760, 93823); (119808, 119892); (119894, 119964); (119966, 119967);
   (119970, 119970); (119973, 119974); (119977, 119980); (119982, 119993);
   (119995, 119995); (119997, 120003); (120005, 120069); (120071, 120074);
   (120077, 120084); (120086, 120092); (120094, 120121); (120123, 120126);
   (120128, 120132); (120134, 120134); (120138, 120144); (120146, 120485);
   (120488, 120512); (120514, 120538); (120540, 120570); (120572, 120596);
   (120598, 120628); (120630, 120654); (120656, 120686); (120688, 120712);
   (120714, 120744); (120746, 120770); (120772, 120779); (122624, 122633);
   (122635, 122654); (125184, 125251); (127280, 127305); (127312, 127337);
   (127344, 127369)].

Definition inTable (c : N) (ranges : list (N * N)) : bool :=
  existsb (fun '(lo, hi) => (lo <=? c) && (c <=? hi)) ranges.

(** The first code point of [l] that is not case-ignorable is cased. *)
Fixpoint casedFirst (l : list N) : bool :=
  match l with
  | [] => false
  | c :: l' =>
      if inTable c caseIgnorable then casedFirst l' else inTable c cased
  end.

(** Lower-casing the code points [s] that follow the code points [before]
    (nearest first). A capital sigma (U+03A3) is final, and becomes U+03C2,
    when a cased letter precedes it and none follows, case-ignorable code
    points skipped on both sides. *)
Fixpoint lowerFrom (before s : list N) : list N :=
  match s with
  | [] => []
  | c :: rest =>
      (if c =? 931
       then [if casedFirst before && negb (casedFirst rest) then 962 else 963]
       else if c =? 304 then [105; 775]
       else [lowerPoint c])
      ++ lowerFrom (c :: before) rest
  end.

(** [String.prototype.toLowerCase]. *)
Definition toLowerCase (s : str) : str :=
  concat (List.map units (lowerFrom [] (codePoints s))).

(** [Array.prototype.join]. *)
Fixpoint join (sep : str) (l : list str) : str :=
  match l with
  | [] => []
  | [a] => a
  | a :: l' => a ++ sep ++ join sep l'
  end.

(** [s.split(p)] for a non-empty separator [p]: the pieces between the
    successive occurrences of [p], found from the left without overlap.
    [skip] counts the code units of an occurrence still to be passed. *)
Fixpoint splitFrom (p : str) (skip : nat) (cur : str) (s : str) : list str :=
  match s with
  | [] => [cur]
  | x :: s' =>
      match skip with
      | S n => splitFrom p n cur s'
      | O =>
          if startsWith s p
          then cur :: splitFrom p (Nat.pred (length p)) [] s'
          else splitFrom p O (cur ++ [x]) s'
      end
  end.

Definition split (s p : str) : list str := splitFrom p O [] s.

(** [arr.pop()] read as a value: the last element. *)
Definition pop (l : list str) : str := List.last l [].

(** [s.split(/[\n,.]/)[0]]: the text before the first newline, comma or
    full stop. *)
Fixpoint firstSegment (s : str) : str :=
  match s with
  | [] => []
  | x :: s' =>
      if (x =? 10) || (x =? 44) || (x =? 46) then [] else x :: firstSegment s'
  end.

(** ** Numbers

    A number of the program is an IEEE double. The integers below [2^53]
    are doubles; a larger integer stands for the nearest double (the even
    one on a tie), and beyond the range of the doubles for infinity
    ([None]). *)
Definition toDouble (n : N) : option N :=
  if n <? 2 ^ 53 then Some n
  else
    let e := N.log2 n - 52 in
    let q := n / 2 ^ e in
    let r := n mod 2 ^ e in
    let half := 2 ^ (e - 1) in
    let q := if (half <? r) || ((r =? half) && N.odd q) then q + 1 else q in
    let v := q * 2 ^ e in
    if v <? 2 ^ 1024 then Some v else None.

(** The decimal digits of an integer. *)
Definition decimal (n : N) : str :=
  lit (NilZero.string_of_uint (N.to_uint n)).

(** Number to string for an integer double [x] of [d] digits that is not
    below [2^53]: the decimal numbers [s * 10^(n - k)] of [k] digits that
    are read back as [x]; of those, the nearest to [x] (with [s] even on a
    tie); of all [k], the smallest that has one. *)
Definition readBack (x s m : N) : bool :=
  match toDouble (s * 10 ^ m) with
  | Some v => v =? x
  | None => false
  end.

Definition candidates (x d k : N) : list (N * N) :=
  concat
    (List.map
       (fun n =>
          if n <? k then []
          else
            let m := n - k in
            let s0 := x / 10 ^ m in
            List.filter
              (fun '(s, _) =>
                 (10 ^ (k - 1) <=? s) && (s <? 10 ^ k) && readBack x s m)
              [(s0, n); (s0 + 1, n)])
       [d; d + 1]).

Definition distance (a b : N) : N := if a <? b then b - a else a - b.

Definition nearer (x k : N) (a b : N * N) : N * N :=
  let da := distance (fst a * 10 ^ (snd a - k)) x in
  let db := distance (fst b * 10 ^ (snd b - k)) x in
  if (db <? da) || ((db =? da) && N.even (fst b) && N.odd (fst a))
  then b else a.

Definition nearest (x k : N) (l : list (N * N)) : option (N * N) :=
  match l with
  | [] => None
  | a :: l' => Some (fold_left (nearer x k) l' a)
  end.

Fixpoint shortest (fuel : nat) (x d k : N) : N * N * N :=
  match fuel with
  | O => (x, d, d)
  | S fuel' =>
      match nearest x k (candidates x d k) with
      | Some (s, n) => (s, k, n)
      | None => shortest fuel' x d (k + 1)
      end
  end.

(** Number to string, for template literals: the digits of an integer
    below [2^53]; beyond, the shortest digits that are read back as the
    same double, followed by zeros up to 21 digits and by an exponent
    after that. *)
Definition ofN (n : N) : str :=
  match toDouble n with
  | None => lit "Infinity"
  | Some x =>
      if x <? 2 ^ 53 then decimal x
      else
        let '(s, k, n) := shortest 17 x (N.of_nat (length (decimal x))) 1 in
        if n <=? 21 then decimal s ++ repeat 48 (N.to_nat (n - k))
        else
          match decimal s with
          | [] => []
          | d0 :: rest =>
              (d0 :: match rest with [] => [] | _ => 46 :: rest end)
              ++ lit "e+" ++ decimal (n - 1)
          end
  end.

Definition ofZ (z : Z) : str :=
  match z with
  | Zneg p => lit "-" ++ ofN (Npos p)
  | _ => ofN (Z.to_N z)
  end.

(** A template literal prints [undefined] for a missing value. *)
Definition show (o : option str) : str :=
  match o with
  | Some s => s
  | None => lit "undefined"
  end.

(** [v || d] for a string-or-undefined [v]: the empty string is falsy. *)
Definition orElse (o : option str) (d : str) : str :=
  match o with
  | Some (x :: s) => x :: s
  | _ => d
  end.

End Js.

Import Js.

(* ===================================================================== *)
(** * Regular expressions                                                 *)
(* ===================================================================== *)

(** The fragment of the regular-expression language the source uses, with
    the backtracking order of the language: an alternation tries its left
    branch first, an optional part and a star are greedy. *)
Module Re.

Inductive atom :=
| AChr (c : N)                  (* a literal character *)
| ADot                          (* [.]: anything but a line terminator *)
| ASpace                        (* [\s] *)
| ARange (rs : list (N * N)).   (* a class of ranges, [[0-9a-f]] *)

Inductive regex :=
| Eps
| One (a : atom)
| Cat (r1 r2 : regex)
| Alt (r1 r2 : regex)
| Opt (r : regex)
| Star (a : atom)
| Rep (n : nat) (a : atom).

(** Canonicalisation of the [i] flag (without the [u] flag): a code unit is
    compared through its upper case, and a code unit outside ASCII never
    folds onto an ASCII one. All literals of the source's patterns are
    ASCII. *)
Definition canon (x : N) : N :=
  if (97 <=? x) && (x <=? 122) then x - 32 else x.

Definition uncanon (x : N) : N :=
  if (65 <=? x) && (x <=? 90) then x + 32 else x.

Definition within (x : N) (r : N * N) : bool :=
  (fst r <=? x) && (x <=? snd r).

Definition inRange (ci : bool) (x : N) (r : N * N) : bool :=
  within x r || (ci && (within (canon x) r || within (uncanon x) r)).

Definition atomMatch (ci : bool) (a : atom) (x : N) : bool :=
  match a with
  | AChr c => if ci then canon c =? canon x else c =? x
  | ADot => negb (isLineTerminator x)
  | ASpace => isSpace x
  | ARange rs => existsb (inRange ci x) rs
  end.

Section Exec.
Context {A : Type}.
Variable ci : bool.

Fixpoint star (a : atom) (k : str -> option A) (s : str) : option A :=
  match s with
  | x :: s' =>
      if atomMatch ci a x
      then match star a k s' with
           | Some v => Some v
           | None => k s
           end
      else k s
  | [] => k []
  end.

Fixpoint rep (n : nat) (a : atom) (k : str -> option A) (s : str)
  : option A :=
  match n with
  | O => k s
  | S n' =>
      match s with
      | x :: s' => if atomMatch ci a x then rep n' a k s' else None
      | [] => None
      end
  end.

(** [exec r k s]: match [r] at the start of [s] and hand the rest of the
    text to the continuation; the first success in backtracking order. *)
Fixpoint exec (r : regex) (k : str -> option A) (s : str) : option A :=
  match r with
  | Eps => k s
  | One a =>
      match s with
      | x :: s' => if atomMatch ci a x then k s' else None
      | [] => None
      end
  | Cat r1 r2 => exec r1 (exec r2 k) s
  | Alt r1 r2 =>
      match exec r1 k s with
      | Some v => Some v
      | None => exec r2 k s
      end
  | Opt r1 =>
      match exec r1 k s with
      | Some v => Some v
      | None => k s
      end
  | Star a => star a k s
  | Rep n a => rep n a k s
  end.
End Exec.

(** [re.test(s)] for a pattern without anchors and without the [g] flag
    (so without state between calls): a match at some position. *)
Fixpoint test (ci : bool) (r : regex) (s : str) : bool :=
  match exec ci r (fun _ => Some tt) s with
  | Some _ => true
  | None =>
      match s with
      | [] => false
      | _ :: s' => test ci r s'
      end
  end.

(** [/^r$/.test(s)]: the whole text. *)
Definition testWhole (ci : bool) (r : regex) (s : str) : bool :=
  match exec ci r (fun rest => match rest with [] => Some tt | _ => None end) s with
  | Some _ => true
  | None => false
  end.

(** [s.replace(/^r/, '')]: drop the matched prefix, if there is one. *)
Definition dropPrefix (r : regex) (s : str) : str :=
  match exec false r (fun rest => Some rest) s with
  | Some rest => rest
  | None => s
  end.

(** Builders for the patterns. *)
Fixpoint word (s : str) : regex :=
  match s with
  | [] => Eps
  | [c] => One (AChr c)
  | c :: s' => Cat (One (AChr c)) (word s')
  end.

Definition w (s : string) : regex := word (lit s).

(** [a.*b] *)
Definition gap (a b : regex) : regex := Cat a (Cat (Star ADot) b).

Fixpoint alts (l : list regex) : regex :=
  match l with
  | [] => Eps
  | [r] => r
  | r :: l' => Alt r (alts l')
  end.

End Re.

Import Re.

(* ===================================================================== *)
(** * Safety guardrails                                                   *)
(* ===================================================================== *)

Definition HARMFUL_PATTERNS : list regex :=
  [ alts [w "weapon"; w "gun"; gap (w "knife") (w "attack"); w "violence";
          gap (w "harm") (w "person"); gap (w "hurt") (w "someone")];
    alts [w "poison"; w "toxic"; gap (w "dangerous") (w "substance");
          gap (w "harmful") (w "chemical")];
    alts [w "suicide"; gap (w "self") (w "harm"); gap (w "end") (w "life");
          gap (w "kill") (w "myself")];
    alts [gap (w "dangerous") (w "activity"); gap (w "risky") (w "behavior")];
    alts [gap (w "illegal") (w "drug"); gap (w "substance") (w "abuse");
          gap (w "drug") (w "recipe")];
    alts [w "steal"; w "theft"; w "robbery"; gap (w "illegal") (w "activity")];
    alts [w "explicit"; gap (w "adult") (w "content"); w "inappropriate"];
    alts [gap (w "hate") (w "speech"); w "discrimination"; w "offensive"];
    alts [gap (w "unsafe") (w "cooking"); gap (w "dangerous") (w "kitchen");
          gap (w "harmful") (w "food")];
    alts [gap (w "contaminated") (w "food"); gap (w "food") (w "poisoning");
          gap (w "unsafe") (w "ingredient")] ].

Definition COOKING_SAFETY_PATTERNS : list regex :=
  [ gap (w "raw") (gap (w "meat") (gap (w "without") (w "cooking")));
    alts [gap (w "undercooked") (w "chicken");
          gap (w "raw") (gap (w "eggs") (w "unsafe"))];
    alts [gap (w "cross") (w "contamination"); gap (w "unsafe") (w "storage")];
    alts [gap (w "expired") (w "food"); gap (w "moldy") (w "ingredient")];
    gap (w "allergen") (gap (w "without") (w "warning")) ].

Record validation := {
  safe : bool;
  reason : option str;
  category : option str
}.

(** [validateInput]: the first harmful pattern that matches decides, then
    the first cooking-safety pattern. *)
Definition validateInput (input : str) : validation :=
  match input with
  | [] => {| safe := false; reason := Some (lit "Invalid input");
             category := Some (lit "invalid") |}
  | _ =>
      if existsb (fun pattern => test true pattern input) HARMFUL_PATTERNS
      then {| safe := false; reason := Some (lit "Contains harmful content");
              category := Some (lit "harmful") |}
      else if existsb (fun pattern => test true pattern input)
                COOKING_SAFETY_PATTERNS
      then {| safe := false; reason := Some (lit "Unsafe cooking practice");
              category := Some (lit "unsafe_cooking") |}
      else {| safe := true; reason := None; category := None |}
  end.

(** [isValidUUID]:
    [/^[0-9a-f]{8}-[0-9a-f]{4}-[1-5][0-9a-f]{3}-[89ab][0-9a-f]{3}-[0-9a-f]{12}$/i] *)
Definition hex : atom := ARange [(48, 57); (97, 102)].
Definition dash : regex := One (AChr 45).

Definition uuidRegex : regex :=
  Cat (Rep 8 hex) (Cat dash
  (Cat (Rep 4 hex) (Cat dash
  (Cat (One (ARange [(49, 53)])) (Cat (Rep 3 hex) (Cat dash
  (Cat (One (ARange [(56, 57); (97, 98)])) (Cat (Rep 3 hex) (Cat dash
  (Rep 12 hex)))))))))).

Definition isValidUUID (uuid : str) : bool := testWhole true uuidRegex uuid.


(** The value of a number that is an integer, [NaN] or infinite. *)
Inductive jsNumber :=
| NaN
| Finite (z : Z)
| Infinite (negative : bool).

(** [parseInt(s)] without a radix: leading white space, a sign, an
    optional [0x] prefix, then the longest run of digits, read as a
    double. *)
Definition digitOf (radix : N) (x : N) : option N :=
  let d :=
    if (48 <=? x) && (x <=? 57) then Some (x - 48)
    else if (97 <=? x) && (x <=? 122) then Some (x - 87)
    else if (65 <=? x) && (x <=? 90) then Some (x - 55)
    else None in
  match d with
  | Some v => if v <? radix then Some v else None
  | None => None
  end.

Fixpoint digits (radix : N) (acc : option N) (s : str) : option N :=
  match s with
  | [] => acc
  | x :: s' =>
      match digitOf radix x with
      | Some d => digits radix (Some (radix * default 0 acc + d)) s'
      | None => acc
      end
  end.

Definition parseInt (s : str) : jsNumber :=
  let s1 := trimStart s in
  let '(neg, s2) :=
    match s1 with
    | 45 :: r => (true, r)
    | 43 :: r => (false, r)
    | _ => (false, s1)
    end in
  let n :=
    match s2 with
    | 48 :: 120 :: r => digits 16 None r
    | 48 :: 88 :: r => digits 16 None r
    | _ => digits 10 None s2
    end in
  match n with
  | Some v =>
      match toDouble v with
      | Some x => Finite (if neg then (- Z.of_N x)%Z else Z.of_N x)
      | None => Infinite neg
      end
  | None => NaN
  end.

(* ===================================================================== *)
(** * Data model                                                          *)
(* ===================================================================== *)

(** One element of [conversationHistory] and one row read from
    [conversation_memory]; [memory_content] is [None] when the value is
    [undefined] or [null]; [created_at] is the time stamp in milliseconds. *)
Record entry := {
  memory_type : str;
  memory_content : option str;
  created_at : Z
}.

(** A row read from [user_preferences]. *)
Record preference := {
  preference_type : str;
  preference_value : str;
  confidence_score : Z;
  last_used : Z
}.

(** An ingredient of a recipe payload: the tool schema gives a plain string,
    the URL-learning endpoint an object. A property read on a string gives
    [undefined]. *)
Inductive ingredient :=
| IngText (s : str)
| IngItem (amount name notes : option str).

Definition ing_amount (i : ingredient) : option str :=
  match i with IngItem a _ _ => a | IngText _ => None end.
Definition ing_name (i : ingredient) : option str :=
  match i with IngItem _ n _ => n | IngText _ => None end.
Definition ing_notes (i : ingredient) : option str :=
  match i with IngItem _ _ n => n | IngText _ => None end.

(** A step of a recipe payload, likewise. *)
Inductive step :=
| StepText (s : str)
| StepItem (number : option N) (instruction : option str).

Definition step_step (s : step) : option N :=
  match s with StepItem n _ => n | StepText _ => None end.
Definition step_instruction (s : step) : option str :=
  match s with StepItem _ i => i | StepText _ => None end.

(** The recipe payload: the arguments of [save_recipe] and the
    [recipe_data] column. The numbers are doubles that hold an integer. *)
Record recipeData := {
  title : option str;
  description : option str;
  servings : option Z;
  difficulty : option str;
  ingredients : option (list ingredient);
  steps : option (list step);
  tags : option (list str);
  prep_time : option str;
  cook_time : option str
}.

(** A row read from [saved_recipes]; [None] is [null], and for
    [recipe_data] also a column that was not selected. *)
Record savedRecipe := {
  r_title : option str;
  r_difficulty : option str;
  r_prep_time : option Z;
  r_cook_time : option Z;
  r_created_at : Z;
  recipe_data : option recipeData
}.

(** The row [saveRecipe] inserts. *)
Record recipeInsert := {
  ri_user_id : str;
  ri_title : option str;
  ri_recipe_data : recipeData;
  ri_tags : list str;
  ri_difficulty : str;
  ri_prep_time : option Z;
  ri_cook_time : option Z;
  ri_servings : Z;
  ri_source_type : str
}.

Record item := {
  i_name : option str;
  i_quantity : option str;
  i_category : option str
}.

Record shoppingInsert := {
  si_user_id : str;
  si_item : option str;
  si_quantity : str;
  si_category : str;
  si_priority : Z
}.

Record preferenceUpsert := {
  pu_user_id : str;
  pu_preference_type : option str;
  pu_preference_value : option str;
  pu_confidence_score : Z;
  pu_last_used : Z
}.

Record historyInsert := {
  hi_user_id : str;
  hi_memory_type : str;
  hi_memory_content : option str
}.

(** The arguments object of a tool call: the fields the handlers read. *)
Record args := {
  items : option (list item);
  recipe : recipeData;
  a_preference_type : option str;
  a_preference_value : option str;
  confidence : option Z;
  original_ingredient : option str;
  step_number : option Z;
  step_description : option str;
  query : option str;
  a_reason : option str
}.

Record functionCall := {
  name : option str;
  fc_args : args
}.

(** ** The model's response *)

(** Where the SDK may expose the tool calls: a callable accessor (returning
    a list, or nothing, or throwing), a plain array, or neither. *)
Inductive functionCallsField :=
| FcAccessor (result : option (list functionCall))
| FcAccessorThrows
| FcArray (calls : list functionCall)
| FcAbsent.

Record candidate := {
  finishReason : option str;
  parts : list (option functionCall)
}.

Record response := {
  text : option str;                 (* [None]: [response.text()] throws *)
  blockReason : option str;
  totalTokenCount : option N;
  functionCalls : functionCallsField;
  candidates : option (list candidate)
}.

Inductive modelResult :=
| ModelThrows
| ModelResponse (r : response).

(** What [JSON.parse] gives, as far as the code looks at it. *)
Inductive json :=
| JsonFalsy
| JsonTruthy.

(** ** The datastore's answers *)

(** [{ data, error }] of a datastore call, or a rejected promise. *)
Inductive dbResult (A : Type) :=
| DbData (data : option A)
| DbError
| DbThrow.
Arguments DbData {A} data.
Arguments DbError {A}.
Arguments DbThrow {A}.

(* ===================================================================== *)
(** * Calls to the collaborators                                          *)
(* ===================================================================== *)

Inductive event : Type -> Type :=
| Now : event Z
| ConsoleWarn (msg : str) : event unit
| ConsoleError (msg : str) : event unit
| SelectPreferences (user_id : str) : event (dbResult (list preference))
| SelectMemory (user_id : str) (now : Z) (memoryType : option str)
  : event (dbResult (list entry))
| SelectRecipes (user_id : str) (includeFullData : bool)
  : event (dbResult (list savedRecipe))
| SelectHistory (user_id : str) : event (dbResult (list entry))
| UpsertPreference (row : preferenceUpsert) : event (dbResult unit)
| InsertShopping (rows : list shoppingInsert) : event (dbResult unit)
| InsertRecipe (row : recipeInsert) : event (dbResult unit)
| InsertHistory (rows : list historyInsert) : event (dbResult unit)
| GenerateContent (withTools : bool) (prompt : str) : event modelResult
| JsonParse (s : str) : event (option json).

(** A terminating program over these calls. *)
Inductive prog (A : Type) : Type :=
| Ret (a : A)
| Vis {X : Type} (e : event X) (k : X -> prog A).
Arguments Ret {A} a.
Arguments Vis {A X} e k.

Fixpoint bind {A B : Type} (m : prog A) (f : A -> prog B) : prog B :=
  match m with
  | Ret a => f a
  | Vis e k => Vis e (fun x => bind (k x) f)
  end.

Definition call {X : Type} (e : event X) : prog X := Vis e Ret.

#[global] Instance prog_ret : MRet prog := fun A a => Ret a.
#[global] Instance prog_bind : MBind prog := fun A B f m => bind m f.

Definition warn (s : string) : prog unit := call (ConsoleWarn (lit s)).
Definition error (s : string) : prog unit := call (ConsoleError (lit s)).

(** [for (const x of l) { acc.push(await f x) }] *)
Fixpoint forEach {A B : Type} (f : A -> prog B) (l : list A) : prog (list B) :=
  match l with
  | [] => Ret []
  | x :: l' => y ← f x; ys ← forEach f l'; Ret (y :: ys)
  end.

(** The module-level configuration: whether the datastore client was
    created, and whether the model key is set. *)
Record config := {
  supabase : bool;
  GEMINI_API_KEY : bool
}.


(* ===================================================================== *)
(** * User data functions                                                 *)
(* ===================================================================== *)

Definition getUserPreferences (cfg : config) (userId : str)
  : prog (list preference) :=
  if negb (supabase cfg)
  then warn "User data service: Supabase not configured";; Ret []
  else if negb (isValidUUID userId)     (* skip the query for a non-UUID id *)
  then Ret []
  else
    r ← call (SelectPreferences userId);
    match r with
    | DbData data => Ret (default [] data)
    | DbError =>
        error "User data service: Error fetching preferences:";; Ret []
    | DbThrow =>
        error "User data service: Error in getUserPreferences:";; Ret []
    end.

Definition getUserMemory (cfg : config) (userId : str)
    (memoryType : option str) : prog (list entry) :=
  if negb (supabase cfg)
  then warn "User data service: Supabase not configured";; Ret []
  else if negb (isValidUUID userId)
  then Ret []
  else
    now ← call Now;
    r ← call (SelectMemory userId now memoryType);
    match r with
    | DbData data => Ret (default [] data)
    | DbError => error "User data service: Error fetching memory:";; Ret []
    | DbThrow => error "User data service: Error in getUserMemory:";; Ret []
    end.

Definition getUserRecipes (cfg : config) (userId : str)
    (includeFullData : bool) : prog (list savedRecipe) :=
  if negb (supabase cfg)
  then warn "User data service: Supabase not configured";; Ret []
  else if negb (isValidUUID userId)
  then Ret []
  else
    r ← call (SelectRecipes userId includeFullData);
    match r with
    | DbData data => Ret (default [] data)
    | DbError => error "User data service: Error fetching recipes:";; Ret []
    | DbThrow => error "User data service: Error in getUserRecipes:";; Ret []
    end.

Definition saveUserPreference (cfg : config) (userId : str)
    (preferenceType preferenceValue : option str) (confidence : Z)
  : prog bool :=
  if negb (supabase cfg)
  then warn "User data service: Supabase not configured";; Ret false
  else
    now ← call Now;
    r ← call (UpsertPreference
                {| pu_user_id := userId;
                   pu_preference_type := preferenceType;
                   pu_preference_value := preferenceValue;
                   pu_confidence_score := confidence;
                   pu_last_used := now |});
    match r with
    | DbData _ => Ret true
    | DbError =>
        error "User data service: Error saving preference:";; Ret false
    | DbThrow =>
        error "User data service: Error in saveUserPreference:";; Ret false
    end.

Definition shoppingItem (userId : str) (i : item) : shoppingInsert :=
  {| si_user_id := userId;
     si_item := i_name i;
     si_quantity := orElse (i_quantity i) [];
     si_category := orElse (i_category i) (lit "general");
     si_priority := 2 |}.

(** [items.map] throws inside the [try] when the call gave no [items]. *)
Definition addToShoppingList (cfg : config) (userId : str)
    (items : option (list item)) : prog bool :=
  if negb (supabase cfg)
  then warn "User data service: Supabase not configured";; Ret false
  else
    match items with
    | None =>
        error "User data service: Error in addToShoppingList:";; Ret false
    | Some l =>
        r ← call (InsertShopping (List.map (shoppingItem userId) l));
        match r with
        | DbData _ => Ret true
        | DbError =>
            error "User data service: Error adding to shopping list:";;
            Ret false
        | DbThrow =>
            error "User data service: Error in addToShoppingList:";;
            Ret false
        end
    end.

(** [t ? parseInt(t) : null], as the row carries it: JSON has no [NaN]
    and no infinity, and writes [null] for both. *)
Definition minutes (t : option str) : option Z :=
  match t with
  | Some (x :: s) =>
      match parseInt (x :: s) with
      | Finite z => Some z
      | _ => None
      end
  | _ => None
  end.

(** [n || d] for a number. *)
Definition numOr (n : option Z) (d : Z) : Z :=
  match n with
  | Some v => if (v =? 0)%Z then d else v
  | None => d
  end.

Definition recipeRow (userId : str) (recipeData : recipeData) : recipeInsert :=
  {| ri_user_id := userId;
     ri_title := title recipeData;
     ri_recipe_data := recipeData;
     ri_tags := default [] (tags recipeData);
     ri_difficulty := orElse (difficulty recipeData) (lit "medium");
     ri_prep_time := minutes (prep_time recipeData);
     ri_cook_time := minutes (cook_time recipeData);
     ri_servings := numOr (servings recipeData) 4;
     ri_source_type := lit "chat" |}.

Definition saveRecipe (cfg : config) (userId : str) (recipeData : recipeData)
  : prog bool :=
  if negb (supabase cfg)
  then warn "User data service: Supabase not configured";; Ret false
  else
    r ← call (InsertRecipe (recipeRow userId recipeData));
    match r with
    | DbData _ => Ret true
    | DbError => error "User data service: Error saving recipe:";; Ret false
    | DbThrow => error "User data service: Error in saveRecipe:";; Ret false
    end.

(* ===================================================================== *)
(** * Nutrition analysis                                                  *)
(* ===================================================================== *)

(** The three fixed parts of the prompt of [analyzeNutrition]. *)
Definition nutritionPromptHead : str :=
  join [10] (List.map txt [
    "Analyze the nutritional content of this recipe and provide ONLY a JSON response."%string;
    ""%string;
    "Recipe: "%string
  ]).

(** The JSON format the nutrition prompt asks for. *)
Definition nutritionPromptFormat : str :=
  join [10] (List.map txt [
    ""%string;
    ""%string;
    "Return ONLY this JSON format (no other text):"%string;
    "{"%string;
    "  `calories`: 300,"%string;
    "  `protein`: 15,"%string;
    "  `carbs`: 25,"%string;
    "  `fat`: 10,"%string;
    "  `fiber`: 5,"%string;
    "  `sugar`: 8,"%string;
    "  `sodium`: 400,"%string;
    "  `vitamins`: [`vitamin C`, `vitamin A`],"%string;
    "  `minerals`: [`iron`, `calcium`],"%string;
    "  `health_benefits`: [`high protein`, `low carb`],"%string;
    "  `dietary_tags`: [`vegetarian`, `gluten-free`],"%string;
    "  `servings`: "%string
  ]).

(** The end of the nutrition prompt. *)
Definition nutritionPromptTail : str :=
  join [10] (List.map txt [
    ""%string;
    "}"%string;
    ""%string;
    "IMPORTANT: Return ONLY the JSON object, no explanations or additional text."%string
  ]).

Inductive nutritionValue :=
| NutritionParsed (v : json)
| NutritionFallback (servings : Z) (raw_analysis : str).

(** Truthiness of the nutrition value, as [if (result.nutrition)] tests. *)
Definition nutritionTruthy (n : nutritionValue) : bool :=
  match n with
  | NutritionParsed JsonFalsy => false
  | _ => true
  end.

(** [s.replace(/p\n?/g, '')] for a literal [p]: every occurrence of [p],
    with the newline that follows it, is removed. [after] holds right
    behind an occurrence. *)
Fixpoint removeFence (p : str) (skip : nat) (after : bool) (s : str) : str :=
  match s with
  | [] => []
  | x :: s' =>
      match skip with
      | S n => removeFence p n true s'
      | O =>
          if after && (x =? 10) then removeFence p O false s'
          else if startsWith s p
               then removeFence p (Nat.pred (length p)) true s'
               else x :: removeFence p O false s'
      end
  end.

Definition cleanNutrition (nutritionData : str) : str :=
  trim (removeFence (lit "```") O false
          (removeFence (lit "```json") O false nutritionData)).

(** [analyzeNutrition]; [None] when it throws. *)
Definition analyzeNutrition (recipeText : str) (servings : Z)
  : prog (option nutritionValue) :=
  r ← call (GenerateContent false
              (nutritionPromptHead ++ recipeText ++ nutritionPromptFormat
               ++ ofZ servings ++ nutritionPromptTail));
  match r with
  | ModelThrows => error "Nutrition analysis error:";; Ret None
  | ModelResponse response =>
      match text response with
      | None => error "Nutrition analysis error:";; Ret None
      | Some nutritionData =>
          parsed ← call (JsonParse (cleanNutrition nutritionData));
          match parsed with
          | Some v => Ret (Some (NutritionParsed v))
          | None =>
              error "Failed to parse nutrition JSON from Gemini:";;
              error "Raw response:";;
              Ret (Some (NutritionFallback servings nutritionData))
          end
      end
  end.

(* ===================================================================== *)
(** * The agent: context, tools, heuristics                               *)
(* ===================================================================== *)

(** [arr.slice(-n)]: the last [n] elements. *)
Definition lastN {A : Type} (n : nat) (l : list A) : list A :=
  drop (length l - n)%nat l.

(** ** Light jailbreak protection *)

Definition metaphorPhrases : list str :=
  List.map lit ["in terms of"; "represents"; "symbolizes"; "as if"; "like a"]%string.

Definition nonFoodTopics : list str :=
  List.map lit
    ["politics"; "political"; "economy"; "economic"; "recession"; "depression";
     "government"; "war"; "conflict"; "religion"; "religious";
     "election"; "president"; "congress"; "senate"]%string.

Definition metaphorReply : str :=
  lit "I appreciate the creative metaphor! However, I'm specifically designed to help with actual cooking and recipes. I'd love to help you make a real biryani, pasta, or any other dish though! What would you like to cook today? 🍳".

(** [checkCookingIntent]: [Some message] when the guardrail triggers. *)
Definition checkCookingIntent (message : str) : option str :=
  let lowerMessage := toLowerCase message in
  let hasMetaphor := existsb (includes lowerMessage) metaphorPhrases in
  let hasNonFoodTopic := existsb (includes lowerMessage) nonFoodTopics in
  if hasMetaphor && hasNonFoodTopic then Some metaphorReply else None.

(** ** Prompt context *)

(** A [null] column in a template literal. *)
Definition showNull (o : option str) : str :=
  match o with
  | Some s => s
  | None => lit "null"
  end.

Definition showNum (o : option Z) : str := showNull (ofZ <$> o).

Definition historyLine (h : entry) : str :=
  if eqb (memory_type h) (lit "user_message")
  then lit "User: " ++ show (memory_content h)
  else if eqb (memory_type h) (lit "assistant_response")
  then lit "Assistant: " ++ show (memory_content h)
  else memory_type h ++ lit ": " ++ show (memory_content h).

Definition conversationContext (conversationHistory : list entry) : str :=
  join [10] (List.map historyLine (lastN 6 conversationHistory)).

Definition recipeTitleLine (r : savedRecipe) : str :=
  lit "- " ++ showNull (r_title r) ++ lit " (" ++ showNull (r_difficulty r)
  ++ lit ", " ++ showNum (r_prep_time r) ++ lit "min prep, "
  ++ showNum (r_cook_time r) ++ lit "min cook)".

(** One line of the ingredient list; [i] is the index from 0. *)
Definition ingredientLine (i : nat) (ing : ingredient) : str :=
  [10] ++ ofN (N.of_nat (i + 1)) ++ lit ". " ++ show (ing_amount ing)
  ++ lit " " ++ show (ing_name ing)
  ++ match ing_notes ing with
     | Some (x :: s) => lit " (" ++ (x :: s) ++ lit ")"
     | _ => []
     end.

Definition stepLine (st : step) : str :=
  [10] ++ show (ofN <$> step_step st) ++ lit ". " ++ show (step_instruction st).

Definition ingredientsBlock (recipe : recipeData) : str :=
  match ingredients recipe with
  | Some (i :: l) =>
      ([10; 10] ++ lit "INGREDIENTS (") ++ ofN (N.of_nat (length (i :: l))) ++ lit " items):"
      ++ concat (imap ingredientLine (take 10 (i :: l)))
  | _ => []
  end.

Definition stepsBlock (recipe : recipeData) : str :=
  match steps recipe with
  | Some (s :: l) =>
      ([10; 10] ++ lit "STEPS (") ++ ofN (N.of_nat (length (s :: l))) ++ lit " total):"
      ++ concat (List.map stepLine (take 5 (s :: l)))
      ++ (if (5 <? length (s :: l))%nat
          then ([10] ++ lit "... and ") ++ ofN (N.of_nat (length (s :: l) - 5)) ++ lit " more steps"
          else [])
  | _ => []
  end.

Definition recipeDetails (recipe : recipeData) : str :=
  ([10; 10] ++ lit "RECIPE DETAILS:")
  ++ ([10] ++ lit "- Description: ") ++ orElse (description recipe) (lit "N/A")
  ++ ([10] ++ lit "- Servings: ")
  ++ match servings recipe with
     | Some v => if (v =? 0)%Z then lit "N/A" else ofZ v
     | None => lit "N/A"
     end
  ++ ([10] ++ lit "- Difficulty: ") ++ orElse (difficulty recipe) (lit "N/A")
  ++ ingredientsBlock recipe
  ++ stepsBlock recipe
  ++ ([10; 10] ++ lit "✅ This recipe is ready for step-by-step guidance!").

(** The recency window: five minutes, in milliseconds. *)
Definition recencyWindow : Z := 5 * 60 * 1000.

(** [recipeGuidanceContext], given the clock read for the recipe's age. *)
Definition recipeGuidanceContext (savedRecipes : list savedRecipe) (now : Z)
  : str :=
  match savedRecipes with
  | [] => []
  | mostRecentRecipe :: _ =>
      ([10; 10] ++ lit "SAVED RECIPES AVAILABLE FOR GUIDANCE:" ++ [10]) ++ join [10] (List.map recipeTitleLine savedRecipes)
      ++ (if (now - r_created_at mostRecentRecipe <? recencyWindow)%Z
          then ([10; 10] ++ txt "⭐ MOST RECENTLY LEARNED RECIPE: `")
               ++ showNull (r_title mostRecentRecipe) ++ [34]
               ++ match recipe_data mostRecentRecipe with
                  | Some recipe => recipeDetails recipe
                  | None => []
                  end
          else [])
  end.

(** The opening of [contextPrompt], up to the user context. *)
Definition promptHead : str :=
  join [10] (List.map txt [
    "You are Chef Compadre, a helpful cooking assistant with access to user data and tools."%string;
    ""%string;
    "🚨🚨🚨 CRITICAL MANDATORY INSTRUCTION: "%string;
    "If the user says ANYTHING about wanting to SEE, VIEW, SHOW, or LOOK AT something (including `show me`, `can you show`, `how does it look`, `how it looks like`, `what does it look like`), you MUST IMMEDIATELY call the show_reference_images function. "%string;
    "- Extract the subject from their message or recent conversation (if they use `it`, `that`, `this`, figure out what they mean from context)"%string;
    "- DO NOT respond with text description - ALWAYS use the tool first to show actual images!"%string;
    "- This is NOT optional - if they want to see something visual, you MUST call the tool."%string;
    ""%string;
    "USER CONTEXT:"%string;
    ""%string
  ]).

(** The closing instructions of [contextPrompt]. *)
Definition promptInstructions : str :=
  join [10] (List.map txt [
    ""%string;
    ""%string;
    "INSTRUCTIONS:"%string;
    "- **CRITICAL**: Be conversational and maintain context throughout the ENTIRE conversation"%string;
    "- Remember EVERYTHING from the recent conversation history above"%string;
    "- **LEARNED RECIPES**: If a recipe was just learned (see ⭐ MOST RECENTLY LEARNED section):"%string;
    "  * You have FULL access to all ingredients, steps, times, difficulty"%string;
    "  * This recipe is NOW IN YOUR MEMORY - treat it as if you've always known it"%string;
    "  * When user asks about `the recipe` or `that recipe`, they mean THIS one"%string;
    "  * Answer ALL questions directly from the recipe details above"%string;
    "  * Don't ask `which recipe?` - you already know!"%string;
    "  * Reference specific ingredients and amounts from the data provided"%string;
    "  * If they say `guide me` or `let's cook this`, use the recipe data above"%string;
    ""%string;
    "- **SAVED RECIPES** (listed above):"%string;
    "  * These are recipes the user has previously learned/saved"%string;
    "  * They can ask you about any of them"%string;
    "  * Recently learned recipes (⭐) have full details available"%string;
    "  * For older recipes, you may only have title/basic info"%string;
    ""%string;
    "- **Use tools SMARTLY**:"%string;
    "  * show_reference_images: **MANDATORY - ALWAYS CALL THIS TOOL** when user says ANY of these:"%string;
    "    - `show me [X]` / `show [X]` / `show a picture` / `can you show me`"%string;
    "    - `picture of [X]` / `photo of [X]` / `image of [X]`"%string;
    "    - `what does [X] look like` / `how does [X] look` / `how it looks like` / `can you show me how it looks`"%string;
    "    - `I want to see [X]` / `can I see [X]` / `let me see [X]` / `see how it looks`"%string;
    "    - `reference for [X]` / `reference image` / `visual reference`"%string;
    "    - If user uses pronouns (`it`, `that`, `this`), extract what they're referring to from conversation context"%string;
    "    - DO NOT just describe visually - ALWAYS CALL THE TOOL so they can see actual images!"%string;
    "    - Example: User says `can you show me how it looks like` → Extract `it` from context (e.g., `fried rice`) → Call tool with query=`fried rice`"%string;
    "  * add_to_shopping_list: When user wants to save ingredients for later"%string;
    "  * save_recipe: ONLY for new recipes (learned recipes are already saved)"%string;
    "  * update_preferences: When user mentions dietary changes"%string;
    "  * suggest_substitutions: When user asks for alternatives"%string;
    "  * guide_recipe_step: For structured step-by-step cooking"%string;
    ""%string;
    "- **DON'T use tools for**:"%string;
    "  * Answering questions (unless it's asking to SEE something - then use show_reference_images)"%string;
    "  * General conversation"%string;
    "  * Explaining things (unless they want to SEE - then use show_reference_images)"%string;
    "  * Just talk naturally!"%string;
    ""%string;
    "- **Be SMART**:"%string;
    "  * Continue previous topics naturally"%string;
    "  * Don't repeat information"%string;
    "  * Reference earlier conversation"%string;
    "  * Act like you remember everything"%string;
    "  * Be concise and helpful"%string;
    "  * Don't suggest nutrition analysis - it happens automatically"%string;
    ""%string;
    "Respond naturally as if you're having a continuous conversation with full memory and access to all learned recipes."%string
  ]).


Definition preferenceLine (p : preference) : str :=
  lit "- " ++ preference_type p ++ lit ": " ++ preference_value p.

Definition memoryLine (m : entry) : str :=
  lit "- " ++ show (memory_content m).

Definition contextPrompt (preferences : list preference) (memory : list entry)
    (conversationHistory : list entry) (recipeGuidance : str) (message : str)
  : str :=
  promptHead
  ++ join [10] (List.map preferenceLine preferences) ++ [10]
  ++ join [10] (List.map memoryLine memory)
  ++ ([10; 10] ++ lit "RECENT CONVERSATION:" ++ [10]) ++ conversationContext conversationHistory ++ [10]
  ++ recipeGuidance
  ++ ([10; 10] ++ lit "CURRENT MESSAGE: ") ++ message
  ++ promptInstructions.

(** ** Action executor *)

(** An entry of the [actions] list. *)
Inductive action :=
| ShoppingListAdded (items : list item) (message : str)
| RecipeSaved (recipe : recipeData) (message : str)
| PreferenceUpdated (preference : args) (message : str)
| SubstitutionSuggested (substitution : args) (message : str)
| RecipeStepGuided (step : args) (message : str)
| ReferenceImages (query reason : str) (message : option str)
| ActionError (error : str).

(** The [action] field of an entry; an error entry has none. *)
Definition actionTag (a : action) : option str :=
  match a with
  | ShoppingListAdded _ _ => Some (lit "shopping_list_added")
  | RecipeSaved _ _ => Some (lit "recipe_saved")
  | PreferenceUpdated _ _ => Some (lit "preference_updated")
  | SubstitutionSuggested _ _ => Some (lit "substitution_suggested")
  | RecipeStepGuided _ _ => Some (lit "recipe_step_guided")
  | ReferenceImages _ _ _ => Some (lit "reference_images")
  | ActionError _ => None
  end.

Definition executeAddToShoppingList (cfg : config) (userId : str)
    (items : option (list item)) : prog action :=
  success ← addToShoppingList cfg userId items;
  match success, items with
  | true, Some l =>
      Ret (ShoppingListAdded l
             (lit "Added " ++ ofN (N.of_nat (length l))
              ++ lit " items to your shopping list"))
  | _, _ =>
      error "Shopping list error:";;
      Ret (ActionError (lit "Failed to add to shopping list"))
  end.

Definition executeSaveRecipe (cfg : config) (userId : str)
    (recipeData : recipeData) : prog action :=
  success ← saveRecipe cfg userId recipeData;
  if success : bool
  then Ret (RecipeSaved recipeData
              (lit "Saved recipe: " ++ show (title recipeData)))
  else
    error "Recipe save error:";;
    Ret (ActionError (lit "Failed to save recipe")).

(** The result of [saveUserPreference] is awaited and not looked at. *)
Definition executeUpdatePreferences (cfg : config) (userId : str)
    (preferenceData : args) : prog action :=
  saveUserPreference cfg userId (a_preference_type preferenceData)
    (a_preference_value preferenceData)
    (numOr (confidence preferenceData) 3);;
  Ret (PreferenceUpdated preferenceData
         (lit "Updated your " ++ show (a_preference_type preferenceData)
          ++ lit " preference")).

Definition executeSuggestSubstitutions (userId : str) (substitutionData : args)
  : prog action :=
  Ret (SubstitutionSuggested substitutionData
         (lit "Suggested alternatives for "
          ++ show (original_ingredient substitutionData))).

Definition executeGuideRecipeStep (userId : str) (stepData : args)
  : prog action :=
  Ret (RecipeStepGuided stepData
         (lit "Step " ++ show (ofZ <$> step_number stepData) ++ lit ": "
          ++ show (step_description stepData))).

Definition executeShowReferenceImages (userId : str) (imageData : args)
  : prog action :=
  Ret (ReferenceImages
         (orElse (query imageData) (lit "cooking"))
         (orElse (a_reason imageData) (lit "User requested visual reference"))
         (Some (lit "Opening reference images for: "
                ++ orElse (query imageData) (lit "cooking")))).

(** The six declared tools. *)
Definition toolNames : list str :=
  List.map lit
    ["add_to_shopping_list"; "save_recipe"; "update_preferences";
     "suggest_substitutions"; "guide_recipe_step"; "show_reference_images"]%string.

(** The [switch] of [executeFunctionCall] compares the name with [===]. *)
Definition named (functionCall : functionCall) (s : string) : bool :=
  bool_decide (name functionCall = Some (lit s)).

Definition executeFunctionCall (cfg : config) (userId : str)
    (functionCall : functionCall) : prog action :=
  let args := fc_args functionCall in
  if named functionCall "add_to_shopping_list"
  then executeAddToShoppingList cfg userId (items args)
  else if named functionCall "save_recipe"
  then executeSaveRecipe cfg userId (recipe args)
  else if named functionCall "update_preferences"
  then executeUpdatePreferences cfg userId args
  else if named functionCall "suggest_substitutions"
  then executeSuggestSubstitutions userId args
  else if named functionCall "guide_recipe_step"
  then executeGuideRecipeStep userId args
  else if named functionCall "show_reference_images"
  then executeShowReferenceImages userId args
  else Ret (ActionError (lit "Unknown function")).

(** ** Nutrition heuristic *)

Definition continuationKeywords : list str :=
  List.map lit ["fried rice"; "nutrition"; "📖"]%string.

(** [hasRecentRecipe]: one of the last four history entries has a content
    with one of the three keywords. *)
Definition hasRecentRecipe (conversationHistory : list entry) : bool :=
  existsb
    (fun h =>
       match memory_content h with
       | Some (x :: c) =>
           existsb (includes (toLowerCase (x :: c))) continuationKeywords
       | _ => false
       end)
    (lastN 4 conversationHistory).

Definition cookingKeywords : list str :=
  List.map lit
    ["step"; "cook"; "fry"; "boil"; "bake"; "sauté"; "grill"; "roast";
     "ingredient"; "recipe"; "prepare"; "heat"; "simmer"; "mix"; "stir";
     "first"; "then"; "next"; "add"; "pour"; "chop"; "dice"; "slice"]%string.

Definition recipeNames : list str :=
  List.map lit
    ["fried rice"; "pasta"; "curry"; "soup"; "stew"; "salad"; "sandwich";
     "stir fry"; "roast"; "grilled"; "baked"; "pizza"; "burger"; "taco"]%string.

Definition isNewRecipeSuggestion (text : str) (conversationHistory : list entry)
  : bool :=
  match text with
  | [] => false
  | _ =>
      let lowerText := toLowerCase text in
      if includes lowerText (lit "?") || startsWith lowerText (lit "what ")
         || startsWith lowerText (lit "how ")
      then false
      else if hasRecentRecipe conversationHistory
      then false
      else
        let hasCookingContent := existsb (includes lowerText) cookingKeywords in
        let isLongEnough := (100 <? length text)%nat in
        let mentionsRecipe := existsb (includes lowerText) recipeNames in
        (hasCookingContent && isLongEnough) || mentionsRecipe
  end.

Definition userExplicitlyAskedForNutrition (message : str) : bool :=
  let m := toLowerCase message in
  includes m (lit "nutrition") || includes m (lit "calories")
  || includes m (lit "how healthy") || includes m (lit "nutritional").

(** ** Fallback heuristic for reference images *)

Definition seePhrases : list str :=
  List.map lit
    ["show me"; "show "; "picture of"; "photo of"; "image of";
     "what does"; "how does"; "how it looks"; "how it looks like";
     "how it look"; "can i see"; "let me see"; "see how"]%string.

Definition itThisThat : regex := alts [w "it"; w "this"; w "that"].

(** [/^how (it|this|that) looks?( like)?\s*/] *)
Definition howItLooks : regex :=
  Cat (w "how ") (Cat itThisThat (Cat (w " look") (Cat (Opt (w "s"))
    (Cat (Opt (w " like")) (Star ASpace))))).

(** [/^(does|do) (it|this|that) look( like)?\s*/] *)
Definition doesItLook : regex :=
  Cat (alts [w "does"; w "do"]) (Cat (w " ") (Cat itThisThat (Cat (w " look")
    (Cat (Opt (w " like")) (Star ASpace))))).

Definition askedToSee (message : str) : bool :=
  existsb (includes (toLowerCase message)) seePhrases.

(** The text after the last occurrence of each trigger phrase in turn, with
    the generic tails removed. *)
Definition strippedQuery (message : str) : str :=
  let query :=
    fold_left
      (fun query p => if includes query p then trim (pop (split query p))
                      else query)
      seePhrases (toLowerCase message) in
  let query := trim (dropPrefix howItLooks query) in
  trim (dropPrefix doesItLook query).

(** The query of the synthesized action: the stripped message, else the
    first clause of the last entry of [memory], else a fixed dish. *)
Definition fallbackQuery (message : str) (memory : list entry) : str :=
  match strippedQuery message with
  | x :: q => x :: q
  | [] =>
      let lastMem :=
        orElse (last memory ≫= memory_content) [] in
      match trim (firstSegment lastMem) with
      | x :: q => x :: q
      | [] => lit "biryani"
      end
  end.

Definition heuristicReason : str :=
  lit "Heuristic fallback: user explicitly asked to SEE something".

Definition heuristicAction (message : str) (memory : list entry) : action :=
  ReferenceImages (fallbackQuery message memory) heuristicReason None.

(** ** The agent turn *)

Record agentResult := {
  ar_response : option str;      (* set on the guardrail path only *)
  reply : option str;            (* [None]: the field is missing *)
  actions : list action;
  nutrition : option nutritionValue
}.

Definition agentFailure : agentResult :=
  {| ar_response := None;
     reply := Some (lit "I'm having trouble processing that right now. Please try again.");
     actions := [];
     nutrition := None |}.

(** The [catch] of [processWithAgent]. *)
Definition failAgent : prog agentResult :=
  error "Agent processing error:";; Ret agentFailure.

Definition usageCheck (response : response) : prog unit :=
  match totalTokenCount response with
  | Some n => if 30000 <? n then warn "⚠️ High token usage detected:" else Ret tt
  | None => Ret tt
  end.

(** [response.candidates?.[0]] *)
Definition firstCandidate (response : response) : option candidate :=
  candidates response ≫= head.

Definition finishReasonCheck (response : response) : prog unit :=
  match firstCandidate response ≫= finishReason with
  | Some (x :: r) =>
      if eqb (x :: r) (lit "STOP") then Ret tt
      else
        warn "⚠️ Response finish reason:";;
        if eqb (x :: r) (lit "MAX_TOKENS")
        then error "Response truncated due to max tokens"
        else if eqb (x :: r) (lit "SAFETY")
        then error "Response blocked by safety filters"
        else Ret tt
  | _ => Ret tt
  end.

(** The three places a tool call can be: the accessor, the field, the
    parts of the first candidate. *)
Definition extractFunctionCalls (response : response)
  : prog (list functionCall) :=
  let fromParts (direct : list functionCall) :=
    match direct, candidates response with
    | [], Some cs => omap id (default [] (parts <$> head cs))
    | _, _ => direct
    end in
  match functionCalls response with
  | FcAccessorThrows => warn "Function call extraction failed:";; Ret []
  | FcAccessor result => Ret (fromParts (default [] result))
  | FcArray calls => Ret (fromParts calls)
  | FcAbsent => Ret (fromParts [])
  end.

Definition readRecipeGuidance (savedRecipes : list savedRecipe) : prog str :=
  match savedRecipes with
  | [] => Ret []
  | _ => now ← call Now; Ret (recipeGuidanceContext savedRecipes now)
  end.

(** The nutrition step of the turn. *)
Definition maybeNutrition (message reply : str)
    (conversationHistory : list entry) : prog (option nutritionValue) :=
  if userExplicitlyAskedForNutrition message
     || isNewRecipeSuggestion reply conversationHistory
  then
    n ← analyzeNutrition reply 1;
    match n with
    | Some v => Ret (Some v)
    | None => error "Nutrition analysis failed:";; Ret None
    end
  else Ret None.

(** The actions of the turn: one entry per tool call, or the synthesized
    reference-image action when there is none and the user asked to see. *)
Definition turnActions (cfg : config) (userId message : str)
    (memory : list entry) (functionCalls : list functionCall)
  : prog (list action) :=
  actions ← forEach (executeFunctionCall cfg userId) functionCalls;
  match actions with
  | [] =>
      if askedToSee message then Ret [heuristicAction message memory]
      else Ret []
  | _ => Ret actions
  end.

(** What follows a model response that was not blocked. *)
Definition interpretResponse (cfg : config) (userId message : str)
    (conversationHistory memory : list entry) (response : response)
  : prog agentResult :=
  finishReasonCheck response;;
  match text response with
  | None => failAgent
  | Some reply =>
      functionCalls ← extractFunctionCalls response;
      actions ← turnActions cfg userId message memory functionCalls;
      nutritionData ← maybeNutrition message reply conversationHistory;
      Ret {| ar_response := None; reply := Some reply; actions := actions;
             nutrition := nutritionData |}
  end.

Definition processWithAgent (cfg : config) (userId message : str)
    (conversationHistory : list entry) : prog agentResult :=
  match checkCookingIntent message with
  | Some scripted =>
      Ret {| ar_response := Some scripted; reply := None; actions := [];
             nutrition := None |}
  | None =>
      preferences ← getUserPreferences cfg userId;
      memory ← getUserMemory cfg userId None;
      savedRecipes ← getUserRecipes cfg userId true;
      recipeGuidance ← readRecipeGuidance savedRecipes;
      r ← call (GenerateContent true
                  (contextPrompt preferences memory conversationHistory
                     recipeGuidance message));
      match r with
      | ModelThrows => failAgent
      | ModelResponse response =>
          usageCheck response;;
          match blockReason response with
          | Some (_ :: _) => error "Response blocked:";; failAgent
          | _ =>
              interpretResponse cfg userId message conversationHistory
                memory response
          end
      end
  end.

(* ===================================================================== *)
(** * Main handler                                                        *)
(* ===================================================================== *)

(** The process-wide [conversationHistory] map. *)
Abbreviation historyMap := (gmap str (list entry)).

Definition getConversationHistory (cfg : config) (mem : historyMap)
    (userId : str) : prog (list entry) :=
  let inMemory := default [] (mem !! userId) in
  if negb (supabase cfg)
  then warn "Supabase not configured, using in-memory storage";; Ret inMemory
  else if negb (isValidUUID userId)
  then Ret inMemory
  else
    r ← call (SelectHistory userId);
    match r with
    | DbData data => Ret (default [] data)
    | DbError =>
        error "Error fetching conversation history:";; Ret inMemory
    | DbThrow => error "Error in getConversationHistory:";; Ret inMemory
    end.

(** The in-memory part of [addToHistory]: push two entries, keep the last
    twenty. *)
Definition pushHistory (history : list entry) (userMessage : str)
    (botResponse : option str) (t1 t2 : Z) : list entry :=
  let history :=
    history
    ++ [ {| memory_type := lit "user_message";
            memory_content := Some userMessage; created_at := t1 |};
         {| memory_type := lit "assistant_response";
            memory_content := botResponse; created_at := t2 |} ] in
  if (20 <? length history)%nat
  then drop (length history - 20)%nat history
  else history.

Definition addToHistory (cfg : config) (mem : historyMap) (userId : str)
    (userMessage : str) (botResponse : option str) : prog historyMap :=
  t1 ← call Now;
  t2 ← call Now;
  let mem :=
    <[userId := pushHistory (default [] (mem !! userId)) userMessage
                  botResponse t1 t2]> mem in
  if negb (supabase cfg)
  then
    warn "Supabase not configured, using in-memory storage only";; Ret mem
  else if negb (isValidUUID userId)     (* skip the save for a non-UUID id *)
  then Ret mem
  else
    r ← call (InsertHistory
                [ {| hi_user_id := userId;
                     hi_memory_type := lit "user_message";
                     hi_memory_content := Some userMessage |};
                  {| hi_user_id := userId;
                     hi_memory_type := lit "assistant_response";
                     hi_memory_content := botResponse |} ]);
    match r with
    | DbData _ => Ret mem
    | DbError => error "Error saving conversation history:";; Ret mem
    | DbThrow => error "Error in addToHistory:";; Ret mem
    end.

(** The request: its method and the two fields of the JSON body that the
    handler reads, when present. [streamed] tells how the body arrives: as
    a stream that [readJson] reads and parses itself, or as the object
    [req.body] that the platform has parsed already. The text, when
    present, is a string here; [endpoint] below takes the bodies whose text
    is another JSON value. *)
Record request := {
  method : str;
  streamed : bool;
  user_id : option str;
  req_text : option str
}.

(** [readJson]: the two fields of the body. [again] tells that the body was
    read before: [req.body] is found at every call, but a stream is
    consumed by its first reader, and a later call finds it empty and
    returns [{}]. A stream that is not JSON gives [{}] too: that is a
    request without fields. *)
Definition readJson (req : request) (again : bool)
  : option str * option str :=
  if again && streamed req then (None, None) else (user_id req, req_text req).

Inductive responseBody :=
| BodyError (error : str)
| BodyBlocked (error message : str) (reason : option str)
| BodyReply (reply : str)
| BodyTurn (reply : str) (actions : list action) (nutrition : option nutritionValue).

Record httpResponse := {
  status : N;
  body : responseBody
}.

(** The reply of the handler's [catch]. *)
Definition fallbackReply (text : str) : str :=
  let t := toLowerCase text in
  lit "I'm having trouble connecting to my cooking knowledge right now. "
  ++ (if includes t (lit "vegetarian") || includes t (lit "vegan")
      then lit "For vegetarian options, try making a delicious veggie stir-fry with your favorite vegetables, or a hearty bean and vegetable soup!"
      else if includes t (lit "bread")
      then lit "For bread-based recipes, you could make garlic bread, bruschetta, or a simple grilled cheese sandwich!"
      else if includes t (lit "healthy")
      then lit "For healthy cooking, focus on fresh vegetables, lean proteins, and whole grains. Try steaming or roasting your ingredients!"
      else lit "Try asking me about specific ingredients you have, or what you'd like to cook today!").

Definition blockedMessage : str :=
  lit "I can only help with cooking and food-related questions. Please ask me about recipes, ingredients, or cooking techniques!".

(** The turn once the input passed the gate. A result without [reply]
    (the guardrail path of [processWithAgent]) makes [result.reply.substring]
    throw after the history was written, and the [catch] answers: it reads
    the request again for the text its reply depends on. *)
Definition turn (cfg : config) (mem : historyMap) (req : request)
    (user_id text : str) : prog (httpResponse * historyMap) :=
  conversationHistory ← getConversationHistory cfg mem user_id;
  result ← processWithAgent cfg user_id text conversationHistory;
  mem ← addToHistory cfg mem user_id text (reply result);
  match reply result with
  | None =>
      error "Conversation error:";;
      let text := default [] (readJson req true).2 in
      Ret ({| status := 200; body := BodyReply (fallbackReply text) |}, mem)
  | Some reply =>
      Ret ({| status := 200;
              body := BodyTurn reply (actions result)
                        (match nutrition result with
                         | Some n => if nutritionTruthy n then Some n else None
                         | None => None
                         end) |}, mem)
  end.

(** [module.exports]: the request handler, on a body whose text is a
    string or absent ([endpoint] below adds the other bodies). *)
Definition handler (cfg : config) (mem : historyMap) (req : request)
  : prog (httpResponse * historyMap) :=
  if negb (eqb (method req) (lit "POST"))
  then Ret ({| status := 405; body := BodyError (lit "Method not allowed") |},
            mem)
  else if negb (GEMINI_API_KEY cfg)
  then Ret ({| status := 500;
               body := BodyError (lit "Gemini API key not configured") |}, mem)
  else
    let body := readJson req false in
    let user_id := default (lit "web") body.1 in
    let text := default [] body.2 in
    match trim text with
    | [] => Ret ({| status := 200; body := BodyReply [] |}, mem)
    | _ =>
        let validation := validateInput text in
        if negb (safe validation)
        then
          warn "Safety violation detected:";;
          Ret ({| status := 400;
                  body := BodyBlocked (lit "Content blocked") blockedMessage
                            (reason validation) |}, mem)
        else turn cfg mem req user_id text
    end.

(** Several requests served one after the other by the same process. *)
Fixpoint serve (cfg : config) (mem : historyMap) (reqs : list request)
  : prog (list httpResponse * historyMap) :=
  match reqs with
  | [] => Ret ([], mem)
  | req :: reqs' =>
      '(res, mem) ← handler cfg mem req;
      '(rest, mem) ← serve cfg mem reqs';
      Ret (res :: rest, mem)
  end.

(** ** Bodies of any JSON type

    The handler takes the text for a string. The requests whose body does
    not give it one are added here. *)

(** A JSON value in the place of the text, as far as the handler can tell
    one from the other: a string, or anything else (a number, a boolean,
    [null], an array, an object), of which only the truthiness counts. *)
Inductive jsonText :=
| TextString (s : str)
| TextOther (truthy : bool).

(** The body as [readJson] finds it: the object [req.body], or what
    [JSON.parse] makes of the stream, where [None] stands for JSON [null]
    and every value without fields is the object without fields. *)
Inductive jsonBody :=
| Parsed (u : option str) (t : option jsonText)
| Stream (content : option (option str * option jsonText)).

Record incoming := {
  in_method : str;
  in_body : jsonBody
}.

(** The request of [handler], when the text is a string or absent. *)
Definition typed (req : incoming) : option request :=
  let make s u t :=
    {| method := in_method req; streamed := s; user_id := u; req_text := t |} in
  match in_body req with
  | Parsed u None => Some (make false u None)
  | Parsed u (Some (TextString t)) => Some (make false u (Some t))
  | Stream (Some (u, None)) => Some (make true u None)
  | Stream (Some (u, Some (TextString t))) => Some (make true u (Some t))
  | _ => None
  end.

(** [module.exports] on every body. With a text that is not a string
    [text.substring] throws at the first use of the text (and so does the
    destructuring of [null]); the [catch] block reads the request again,
    and when it finds a truthy text that is not a string, [text.toLowerCase]
    throws inside the [catch] block: the handler ends without a response
    ([None]). *)
Definition endpoint (cfg : config) (mem : historyMap) (req : incoming)
  : prog (option httpResponse * historyMap) :=
  match typed req with
  | Some r => '(res, mem) ← handler cfg mem r; Ret (Some res, mem)
  | None =>
      if negb (eqb (in_method req) (lit "POST"))
      then Ret (Some {| status := 405;
                        body := BodyError (lit "Method not allowed") |}, mem)
      else if negb (GEMINI_API_KEY cfg)
      then Ret (Some {| status := 500;
                        body := BodyError
                                  (lit "Gemini API key not configured") |},
                mem)
      else
        error "Conversation error:";;
        match in_body req with
        | Parsed _ (Some (TextOther true)) => Ret (None, mem)
        | _ =>
            Ret (Some {| status := 200;
                         body := BodyReply (fallbackReply []) |}, mem)
        end
  end.

(* ===================================================================== *)
(** * Runs of a program                                                   *)
(* ===================================================================== *)

(** One call with the answer it got. *)
Inductive occurrence :=
| Occ {X : Type} (e : event X) (x : X).

(** [runs t tr a]: answered as [tr] records, [t] returns [a]. *)
Inductive runs {A : Type} : prog A -> list occurrence -> A -> Prop :=
| runs_ret (a : A) : runs (Ret a) [] a
| runs_vis {X : Type} (e : event X) (k : X -> prog A) (x : X) tr a :
    runs (k x) tr a -> runs (Vis e k) (Occ e x :: tr) a.

(** A way to answer the calls from a state of the world. *)
Definition answers (W : Type) := forall X : Type, event X -> W -> X * W.

Fixpoint run {A W : Type} (h : answers W) (t : prog A) (w : W)
  : list occurrence * A * W :=
  match t with
  | Ret a => ([], a, w)
  | Vis e k =>
      let '(x, w1) := h _ e w in
      let '(tr, a, w2) := run h (k x) w1 in
      (Occ e x :: tr, a, w2)
  end.

(** Kinds of calls. *)
Definition isWrite {X : Type} (e : event X) : bool :=
  match e with
  | UpsertPreference _ | InsertShopping _ | InsertRecipe _
  | InsertHistory _ => true
  | _ => false
  end.

Definition isModelCall {X : Type} (e : event X) : bool :=
  match e with
  | GenerateContent _ _ => true
  | _ => false
  end.

(** The call [analyzeNutrition] makes: the model without the tools. *)
Definition isNutritionCall {X : Type} (e : event X) : bool :=
  match e with
  | GenerateContent false _ => true
  | _ => false
  end.

Definition isErrorLog {X : Type} (e : event X) : bool :=
  match e with
  | ConsoleError _ => true
  | _ => false
  end.

Definition occIs (P : forall X : Type, event X -> bool) (o : occurrence)
  : bool :=
  match o with
  | Occ e _ => P _ e
  end.

(** How many calls of a kind a trace holds. *)
Definition count (P : forall X : Type, event X -> bool)
    (tr : list occurrence) : nat :=
  length (List.filter (occIs P) tr).

Definition failed {A : Type} (r : dbResult A) : bool :=
  match r with
  | DbData _ => false
  | _ => true
  end.

(** A datastore write that was answered with an error or that threw. *)
Definition isFailedWrite (o : occurrence) : bool :=
  match o with
  | Occ e x =>
      match e in event X return X -> bool with
      | UpsertPreference _ | InsertShopping _ | InsertRecipe _
      | InsertHistory _ => failed
      | _ => fun _ => false
      end x
  end.

(** Properties of every path of a program. *)
Fixpoint always {A : Type} (Q : A -> Prop) (t : prog A) : Prop :=
  match t with
  | Ret a => Q a
  | Vis e k => forall x, always Q (k x)
  end.

(** At most [n] calls of kind [P] on every path. *)
Fixpoint atMost {A : Type} (P : forall X : Type, event X -> bool) (n : nat)
    (t : prog A) : Prop :=
  match t with
  | Ret _ => True
  | Vis e k =>
      if P _ e
      then match n with
           | O => False
           | S m => forall x, atMost P m (k x)
           end
      else forall x, atMost P n (k x)
  end.

(** A property of the trace and the result of every path. *)
Fixpoint traced {A : Type} (Q : list occurrence -> A -> Prop) (m : prog A)
  : Prop :=
  match m with
  | Ret a => Q [] a
  | Vis e k => forall x, traced (fun tr a => Q (Occ e x :: tr) a) (k x)
  end.

(* ===================================================================== *)
(** * A datastore that works                                              *)
(* ===================================================================== *)

(** The tables behind the datastore calls, for the properties that go
    through storage. Every call succeeds; an inserted row is stamped with
    the time of the insert; a conversation row gets the table's defaults. *)

Record memoryRow := {
  cm_user_id : str;
  cm_memory_type : str;
  cm_memory_content : option str;
  cm_confidence_score : Z;
  cm_created_at : Z;
  cm_expires_at : option Z
}.

Record recipeRecord := {
  sr_row : recipeInsert;
  sr_created_at : Z
}.

Record world := {
  conversation_memory : list memoryRow;
  user_preferences : list preferenceUpsert;
  saved_recipes : list recipeRecord;
  shopping_lists : list shoppingInsert;
  time : Z;                               (* the clock *)
  default_confidence : Z;                 (* column defaults *)
  default_ttl : option Z;
  model : bool -> str -> modelResult;     (* the generative model *)
  parse : str -> option json              (* [JSON.parse] *)
}.

Definition withMemory (w : world) (rows : list memoryRow) : world :=
  {| conversation_memory := rows;
     user_preferences := user_preferences w;
     saved_recipes := saved_recipes w;
     shopping_lists := shopping_lists w;
     time := time w;
     default_confidence := default_confidence w;
     default_ttl := default_ttl w;
     model := model w;
     parse := parse w |}.

Definition withPreferences (w : world) (rows : list preferenceUpsert) : world :=
  {| conversation_memory := conversation_memory w;
     user_preferences := rows;
     saved_recipes := saved_recipes w;
     shopping_lists := shopping_lists w;
     time := time w;
     default_confidence := default_confidence w;
     default_ttl := default_ttl w;
     model := model w;
     parse := parse w |}.

Definition withRecipes (w : world) (rows : list recipeRecord) : world :=
  {| conversation_memory := conversation_memory w;
     user_preferences := user_preferences w;
     saved_recipes := rows;
     shopping_lists := shopping_lists w;
     time := time w;
     default_confidence := default_confidence w;
     default_ttl := default_ttl w;
     model := model w;
     parse := parse w |}.

Definition withShopping (w : world) (rows : list shoppingInsert) : world :=
  {| conversation_memory := conversation_memory w;
     user_preferences := user_preferences w;
     saved_recipes := saved_recipes w;
     shopping_lists := rows;
     time := time w;
     default_confidence := default_confidence w;
     default_ttl := default_ttl w;
     model := model w;
     parse := parse w |}.

(** The clock moved to [t]. *)
Definition atTime (w : world) (t : Z) : world :=
  {| conversation_memory := conversation_memory w;
     user_preferences := user_preferences w;
     saved_recipes := saved_recipes w;
     shopping_lists := shopping_lists w;
     time := t;
     default_confidence := default_confidence w;
     default_ttl := default_ttl w;
     model := model w;
     parse := parse w |}.

(** [ORDER BY]: a stable insertion sort; [before x y] puts [x] first. *)
Fixpoint insertBy {A : Type} (before : A -> A -> bool) (x : A) (l : list A)
  : list A :=
  match l with
  | [] => [x]
  | y :: l' => if before x y then x :: l else y :: insertBy before x l'
  end.

Definition sortBy {A : Type} (before : A -> A -> bool) (l : list A) : list A :=
  foldr (insertBy before) [] l.

Definition selectPreferences (w : world) (u : str) : list preference :=
  List.map
    (fun r => {| preference_type := showNull (pu_preference_type r);
                 preference_value := showNull (pu_preference_value r);
                 confidence_score := pu_confidence_score r;
                 last_used := pu_last_used r |})
    (sortBy
       (fun x y =>
          (pu_confidence_score y <? pu_confidence_score x)%Z
          || ((pu_confidence_score y =? pu_confidence_score x)%Z
              && (pu_last_used y <=? pu_last_used x)%Z))
       (List.filter (fun r => eqb (pu_user_id r) u) (user_preferences w))).

Definition asEntry (r : memoryRow) : entry :=
  {| memory_type := cm_memory_type r;
     memory_content := cm_memory_content r;
     created_at := cm_created_at r |}.

Definition selectMemory (w : world) (u : str) (now : Z)
    (memoryType : option str) : list entry :=
  List.map asEntry
    (sortBy
       (fun x y =>
          (cm_confidence_score y <? cm_confidence_score x)%Z
          || ((cm_confidence_score y =? cm_confidence_score x)%Z
              && (cm_created_at y <=? cm_created_at x)%Z))
       (List.filter
          (fun r =>
             eqb (cm_user_id r) u
             && match cm_expires_at r with
                | Some e => (now <? e)%Z
                | None => false
                end
             && match memoryType with
                | Some t => eqb (cm_memory_type r) t
                | None => true
                end)
          (conversation_memory w))).

Definition asSavedRecipe (includeFullData : bool) (r : recipeRecord)
  : savedRecipe :=
  {| r_title := ri_title (sr_row r);
     r_difficulty := Some (ri_difficulty (sr_row r));
     r_prep_time := ri_prep_time (sr_row r);
     r_cook_time := ri_cook_time (sr_row r);
     r_created_at := sr_created_at r;
     recipe_data :=
       if includeFullData then Some (ri_recipe_data (sr_row r)) else None |}.

(** The newest ten recipes of the user. *)
Definition selectRecipes (w : world) (u : str) (includeFullData : bool)
  : list savedRecipe :=
  List.map (asSavedRecipe includeFullData)
    (take 10
       (sortBy (fun x y => (sr_created_at y <=? sr_created_at x)%Z)
          (List.filter (fun r => eqb (ri_user_id (sr_row r)) u)
             (saved_recipes w)))).

(** The twenty rows of the user that come first in time. *)
Definition selectHistory (w : world) (u : str) : list entry :=
  List.map asEntry
    (take 20
       (sortBy (fun x y => (cm_created_at x <=? cm_created_at y)%Z)
          (List.filter (fun r => eqb (cm_user_id r) u)
             (conversation_memory w)))).

Definition upsertPreference (w : world) (row : preferenceUpsert) : world :=
  withPreferences w
    (List.filter
       (fun r => negb (eqb (pu_user_id r) (pu_user_id row)
                       && bool_decide (pu_preference_type r
                                       = pu_preference_type row)))
       (user_preferences w)
     ++ [row]).

Definition insertHistory (w : world) (rows : list historyInsert) : world :=
  withMemory w
    (conversation_memory w
     ++ List.map
          (fun r => {| cm_user_id := hi_user_id r;
                       cm_memory_type := hi_memory_type r;
                       cm_memory_content := hi_memory_content r;
                       cm_confidence_score := default_confidence w;
                       cm_created_at := time w;
                       cm_expires_at := (fun d => time w + d)%Z <$> default_ttl w |})
          rows).

Definition insertRecipe (w : world) (row : recipeInsert) : world :=
  withRecipes w
    (saved_recipes w ++ [ {| sr_row := row; sr_created_at := time w |} ]).

Definition ok {A : Type} (a : A) : dbResult A := DbData (Some a).

(** The answers of the working datastore, the clock, the model. *)
Definition store : answers world :=
  fun X e =>
    match e in event X return world -> X * world with
    | Now => fun w => (time w, w)
    | ConsoleWarn _ => fun w => (tt, w)
    | ConsoleError _ => fun w => (tt, w)
    | SelectPreferences u => fun w => (ok (selectPreferences w u), w)
    | SelectMemory u now t => fun w => (ok (selectMemory w u now t), w)
    | SelectRecipes u full => fun w => (ok (selectRecipes w u full), w)
    | SelectHistory u => fun w => (ok (selectHistory w u), w)
    | UpsertPreference row => fun w => (ok tt, upsertPreference w row)
    | InsertShopping rows =>
        fun w => (ok tt, withShopping w (shopping_lists w ++ rows))
    | InsertRecipe row => fun w => (ok tt, insertRecipe w row)
    | InsertHistory rows => fun w => (ok tt, insertHistory w rows)
    | GenerateContent withTools prompt => fun w => (model w withTools prompt, w)
    | JsonParse s => fun w => (parse w s, w)
    end.

(** The rows of a user in [conversation_memory]. *)
Definition storedHistory (w : world) (u : str) : list memoryRow :=
  List.filter (fun r => eqb (cm_user_id r) u) (conversation_memory w).

(* ===================================================================== *)
(** * Sample inputs                                                       *)
(* ===================================================================== *)

Definition live : config := {| supabase := true; GEMINI_API_KEY := true |}.

(** The default user id of a request without one, and a canonical id;
    [post] is a request whose body the platform has parsed. *)
Definition guest : str := lit "web".
Definition alice : str := lit "123e4567-e89b-12d3-a456-426614174000".

Definition post (user : option str) (text : string) : request :=
  {| method := lit "POST"; streamed := false; user_id := user;
     req_text := Some (lit text) |}.

(** The same request with a body that arrives as a stream. *)
Definition streamedPost (user : option str) (text : string) : request :=
  {| method := lit "POST"; streamed := true; user_id := user;
     req_text := Some (lit text) |}.

(** The body [{text: 5}], parsed by the platform. *)
Definition numberText : incoming :=
  {| in_method := lit "POST"; in_body := Parsed None (Some (TextOther true)) |}.

Definition emptyRecipe : recipeData :=
  {| title := None; description := None; servings := None;
     difficulty := None; ingredients := None; steps := None; tags := None;
     prep_time := None; cook_time := None |}.

Definition noArgs : args :=
  {| items := None; recipe := emptyRecipe; a_preference_type := None;
     a_preference_value := None; confidence := None;
     original_ingredient := None; step_number := None;
     step_description := None; query := None; a_reason := None |}.

(** A model response with a text and tool calls, and nothing unusual. *)
Definition says (reply : string) (calls : list functionCall) : response :=
  {| text := Some (lit reply); blockReason := None; totalTokenCount := None;
     functionCalls := FcAccessor (Some calls); candidates := None |}.

(** A world with empty tables, at time 1000, whose model always answers
    [r] and where [JSON.parse] succeeds. *)
Definition kitchen (r : response) : world :=
  {| conversation_memory := []; user_preferences := []; saved_recipes := [];
     shopping_lists := []; time := 1000; default_confidence := 3;
     default_ttl := Some 86400000%Z;
     model := fun _ _ => ModelResponse r;
     parse := fun _ => Some JsonTruthy |}.

(** The call [update_preferences({diet: vegetarian})]. *)
Definition dietCall : functionCall :=
  {| name := Some (lit "update_preferences");
     fc_args :=
       {| items := None; recipe := emptyRecipe;
          a_preference_type := Some (lit "diet");
          a_preference_value := Some (lit "vegetarian"); confidence := None;
          original_ingredient := None; step_number := None;
          step_description := None; query := None; a_reason := None |} |}.

(** A call to a tool that was never declared. *)
Definition strangeCall : functionCall :=
  {| name := Some (lit "order_pizza"); fc_args := noArgs |}.



(** A history about pasta. *)
Definition pastaTalk : list entry :=
  [ {| memory_type := lit "user_message";
       memory_content := Some (lit "How do I make pasta with tomato sauce?");
       created_at := 10 |};
    {| memory_type := lit "assistant_response";
       memory_content := Some (lit "Boil the pasta and simmer the sauce.");
       created_at := 11 |} ].

(** A history that ends on a recipe for fried rice. *)
Definition friedRiceTalk : list entry :=
  [ {| memory_type := lit "user_message";
       memory_content := Some (lit "How do I make fried rice?"); created_at := 10 |};
    {| memory_type := lit "assistant_response";
       memory_content := Some (lit "Fry the rice with egg and soy sauce.");
       created_at := 11 |} ].

(** A learned recipe in the shape of the URL-learning endpoint, with six
    steps. *)
Definition dal : recipeData :=
  {| title := Some (lit "Dal");
     description := Some (lit "Lentil stew");
     servings := Some 2%Z;
     difficulty := Some (lit "Easy");
     ingredients := Some [IngItem (Some (lit "1 cup")) (Some (lit "lentils")) None;
                          IngItem (Some (lit "2 tsp")) (Some (lit "cumin"))
                            (Some (lit "toasted"))];
     steps := Some [StepItem (Some 1) (Some (lit "Rinse the lentils"));
                    StepItem (Some 2) (Some (lit "Boil until soft"));
                    StepItem (Some 3) (Some (lit "Temper the cumin"));
                    StepItem (Some 4) (Some (lit "Combine and simmer"));
                    StepItem (Some 5) (Some (lit "Season with salt"));
                    StepItem (Some 6) (Some (lit "Garnish with coriander"))];
     tags := None;
     prep_time := Some (lit "10 minutes");
     cook_time := Some (lit "30 minutes") |}.

(** The row the URL-learning endpoint inserts for [dal] and [alice]. *)
Definition learnedRow : recipeInsert :=
  {| ri_user_id := alice;
     ri_title := title dal;
     ri_recipe_data := dal;
     ri_tags := [];
     ri_difficulty := lit "Easy";
     ri_prep_time := Some 10%Z;
     ri_cook_time := Some 30%Z;
     ri_servings := 2;
     ri_source_type := lit "url" |}.

(** A recipe as the [save_recipe] tool schema gives it: plain strings. *)
Definition toast : recipeData :=
  {| title := Some (lit "Toast");
     description := None; servings := None; difficulty := None;
     ingredients := Some [IngText (lit "sourdough")];
     steps := Some [StepText (lit "Grill both sides")];
     tags := None; prep_time := None; cook_time := None |}.

(** The prompts sent to the model with the tools, in order. *)
Definition agentPrompts (tr : list occurrence) : list str :=
  omap (fun o =>
          match o with
          | Occ e _ =>
              match e with
              | GenerateContent true prompt => Some prompt
              | _ => None
              end
          end) tr.

(** The rows written to [user_preferences] along a trace. *)
Definition preferenceWrites (tr : list occurrence) : list preferenceUpsert :=
  omap (fun o =>
          match o with
          | Occ e _ =>
              match e with
              | UpsertPreference row => Some row
              | _ => None
              end
          end) tr.

(* ===================================================================== *)
(** * Vocabulary of the properties                                      *)
(* ===================================================================== *)

Ltac unmonad := unfold mbind, prog_bind, mret, prog_ret, warn, error, call in *.

Definition isLetter (c : N) : bool := (97 <=? c) && (c <=? 122).

(** A pattern every match of which begins with a letter. *)
Fixpoint startsWithLetter (r : regex) : bool :=
  match r with
  | One (AChr c) => isLetter c
  | Cat r1 _ => startsWithLetter r1
  | Alt r1 r2 => startsWithLetter r1 && startsWithLetter r2
  | _ => false
  end.

Definition blank (s : str) : Prop :=
  match s with
  | [] => True
  | x :: _ => isSpace x = true
  end.

Ltac bools :=
  repeat match goal with
    | H : (_ && _) = true |- _ => apply andb_prop in H as [? ?]
    | H : (_ || _) = true |- _ => apply orb_prop in H as [?|?]
    | H : (_ <=? _) = true |- _ => apply N.leb_le in H
    | H : (_ =? _) = true |- _ => apply N.eqb_eq in H
    end.

(** The response of the gate to a refused text. *)
Definition blocked (text : str) : httpResponse :=
  {| status := 400;
     body := BodyBlocked (lit "Content blocked") blockedMessage
               (reason (validateInput text)) |}.

(** Walk the paths of a small program: take each answer apart. *)
Ltac walk :=
  simpl; intros;
  repeat match goal with
         | x : dbResult _ |- _ => destruct x; simpl; intros
         end;
  simpl in *; auto; try discriminate; try congruence.

(** The hypotheses of a property at a concrete input, each one stated
    before or true by evaluation. *)
Ltac given :=
  repeat match goal with |- _ /\ _ => split end;
  first [assumption | reflexivity].

(** The name of the call is one of the six declared tools. *)
Definition declared (c : functionCall) : bool :=
  existsb (fun n => bool_decide (name c = Some n)) toolNames.

Definition unknownFunction : action := ActionError (lit "Unknown function").

(** A trace holds a failed datastore write, an error log. *)
Definition writeFailed (tr : list occurrence) : bool :=
  existsb isFailedWrite tr.

Definition errorLogged (tr : list occurrence) : bool :=
  existsb (occIs (@isErrorLog)) tr.

(** Take a small program apart along its tests and answers. *)
Ltac quiet :=
  unmonad;
  repeat (cbn [atMost bind isNutritionCall]; intros;
          try match goal with
            | |- context [match ?x with _ => _ end] => destruct x
            end);
  auto.

Abbreviation silent := (atMost (@isNutritionCall) 0).

(** Every list of the in-process map has at most twenty entries. *)
Definition bounded (mem : historyMap) : Prop :=
  forall u l, mem !! u = Some l -> (length l <= 20)%nat.

(** The model answered without any tool call, wherever it is looked for. *)
Definition noToolCalls (response : response) : Prop :=
  always (fun calls => calls = []) (extractFunctionCalls response).

(* ===================================================================== *)
(** * Further functions and vocabulary                                    *)
(* ===================================================================== *)

(** [filterResponse] *)
Definition filterResponse (response : str) : str :=
  match response with
  | [] => lit "I can only help with cooking and food-related topics."
  | _ =>
      let lowerResponse := toLowerCase response in
      if includes lowerResponse (lit "harmful")
         || includes lowerResponse (lit "dangerous")
      then lit "I can only provide safe cooking advice. Please ask me about recipes, ingredients, or cooking techniques!"
      else response
  end.

(** A call to the datastore, read or write. *)
Definition isDatastoreCall {X : Type} (e : event X) : bool :=
  match e with
  | SelectPreferences _ | SelectMemory _ _ _ | SelectRecipes _ _
  | SelectHistory _ | UpsertPreference _ | InsertShopping _
  | InsertRecipe _ | InsertHistory _ => true
  | _ => false
  end.

(** A kind of call that is none of the console, the clock, the model and
    [JSON.parse]. *)
Definition storeOnly (P : forall X : Type, event X -> bool) : Prop :=
  P _ Now = false
  /\ (forall m, P _ (ConsoleWarn m) = false)
  /\ (forall m, P _ (ConsoleError m) = false)
  /\ (forall t p, P _ (GenerateContent t p) = false)
  /\ (forall s, P _ (JsonParse s) = false).

(** The two entries a turn adds to the history. *)
Definition turnEntries (userMessage : str) (botResponse : option str)
    (t1 t2 : Z) : list entry :=
  [ {| memory_type := lit "user_message";
       memory_content := Some userMessage; created_at := t1 |};
    {| memory_type := lit "assistant_response";
       memory_content := botResponse; created_at := t2 |} ].

(** A pattern whose literals and classes are ASCII. *)
Definition asciiAtom (a : atom) : bool :=
  match a with
  | AChr c => c <? 128
  | ARange rs => forallb (fun r => snd r <? 128) rs
  | _ => true
  end.

Fixpoint asciiOnly (r : regex) : bool :=
  match r with
  | Eps => true
  | One a | Star a | Rep _ a => asciiAtom a
  | Cat r1 r2 | Alt r1 r2 => asciiOnly r1 && asciiOnly r2
  | Opt r1 => asciiOnly r1
  end.

(** A text matched class by class, from the first to the last unit. *)
Fixpoint matchClasses (classes : list atom) (ci : bool) (s : str) : bool :=
  match classes, s with
  | [], [] => true
  | a :: classes', x :: s' => atomMatch ci a x && matchClasses classes' ci s'
  | _, _ => false
  end.

(** The thirty-six classes of a canonical identifier. *)
Definition uuidClasses : list atom :=
  replicate 8 hex ++ [AChr 45] ++ replicate 4 hex ++ [AChr 45]
  ++ [ARange [(49, 53)]] ++ replicate 3 hex ++ [AChr 45]
  ++ [ARange [(56, 57); (97, 98)]] ++ replicate 3 hex ++ [AChr 45]
  ++ replicate 12 hex.

(** The classes of a pattern made of single units in sequence. *)
Fixpoint classesOf (r : regex) : option (list atom) :=
  match r with
  | Eps => Some []
  | One a => Some [a]
  | Rep n a => Some (replicate n a)
  | Cat r1 r2 =>
      match classesOf r1, classesOf r2 with
      | Some l1, Some l2 => Some (l1 ++ l2)
      | _, _ => None
      end
  | _ => None
  end.

(** A hexadecimal digit, in either letter case. *)
Definition isHexDigit (x : N) : bool :=
  ((48 <=? x) && (x <=? 57)) || ((97 <=? x) && (x <=? 102))
  || ((65 <=? x) && (x <=? 70)).

(** The model answered, and without a tool call, each time the agent asked
    it. *)
Definition toolFree (o : occurrence) : Prop :=
  match o with
  | Occ e x =>
      match e in event X return X -> Prop with
      | GenerateContent true _ =>
          fun r =>
            match r with
            | ModelResponse response => noToolCalls response
            | ModelThrows => True
            end
      | _ => fun _ => True
      end x
  end.

(** The agent's model call was answered by a throw. *)
Definition modelThrew (o : occurrence) : bool :=
  match o with
  | Occ e x =>
      match e in event X return X -> bool with
      | GenerateContent true _ =>
          fun r => match r with ModelThrows => true | _ => false end
      | _ => fun _ => false
      end x
  end.



(** The query of a reference-image entry is not empty. *)
Definition queryGiven (a : action) : Prop :=
  match a with
  | ReferenceImages query _ _ => query <> []
  | _ => True
  end.

(** At most [n] calls of kind [P] on every path whose answers all satisfy
    [good]. *)
Fixpoint atMostWhen {A : Type} (good : occurrence -> Prop)
    (P : forall X : Type, event X -> bool) (n : nat) (t : prog A) : Prop :=
  match t with
  | Ret _ => True
  | Vis e k =>
      forall x, good (Occ e x) ->
                if P _ e
                then match n with
                     | O => False
                     | S m => atMostWhen good P m (k x)
                     end
                else atMostWhen good P n (k x)
  end.

(** Take a small program apart, for a kind of call that is of the store
    only. *)
Ltac calm HN HW HE HG HJ :=
  unmonad;
  repeat (cbn [atMost bind]; intros;
          rewrite ?HN, ?HW, ?HE, ?HG, ?HJ;
          try match goal with
            | |- context [match ?x with _ => _ end] =>
                lazymatch x with
                | _ _ Now => fail
                | _ _ (ConsoleWarn _) => fail
                | _ _ (ConsoleError _) => fail
                | _ _ (GenerateContent _ _) => fail
                | _ _ (JsonParse _) => fail
                | _ => destruct x
                end
            end);
  auto.

(** Likewise for the datastore calls, under what is known of the
    configuration and of the user id. *)
Ltac hush :=
  unmonad;
  repeat (cbn [atMost bind isDatastoreCall negb]; intros;
          try match goal with
            | |- context [match ?x with _ => _ end] => destruct x
            end);
  auto.

(** The call of the agent to the model, with the tools. *)
Definition isAgentCall {X : Type} (e : event X) : bool :=
  match e with
  | GenerateContent true _ => true
  | _ => false
  end.

(** The agent's call was answered by a throw, by a blocked response, or by
    a response whose text cannot be read. *)
Definition modelUnusable (o : occurrence) : bool :=
  match o with
  | Occ e x =>
      match e in event X return X -> bool with
      | GenerateContent true _ =>
          fun r =>
            match r with
            | ModelThrows => true
            | ModelResponse response =>
                match blockReason response, text response with
                | Some (_ :: _), _ => true
                | _, None => true
                | _, _ => false
                end
            end
      | _ => fun _ => false
      end x
  end.

(** The rest of a text after its first units matched the classes. *)
Fixpoint stripClasses (classes : list atom) (ci : bool) (s : str)
  : option str :=
  match classes with
  | [] => Some s
  | a :: classes' =>
      match s with
      | x :: s' => if atomMatch ci a x then stripClasses classes' ci s' else None
      | [] => None
      end
  end.

(** Rows in the order of their time stamps, oldest first. *)
Fixpoint oldestFirst (l : list memoryRow) : Prop :=
  match l with
  | [] => True
  | x :: l' =>
      Forall (fun y => (cm_created_at x <= cm_created_at y)%Z) l'
      /\ oldestFirst l'
  end.

(** The order of the history query. *)
Definition byTime (x y : memoryRow) : bool :=
  (cm_created_at x <=? cm_created_at y)%Z.

(** A deployment without datastore client. *)
Definition offline : config := {| supabase := false; GEMINI_API_KEY := true |}.

(** The world of [kitchen] with a model whose call throws. *)
Definition outage : world :=
  {| conversation_memory := []; user_preferences := []; saved_recipes := [];
     shopping_lists := []; time := 1000; default_confidence := 3;
     default_ttl := Some 86400000%Z;
     model := fun _ _ => ModelThrows;
     parse := fun _ => Some JsonTruthy |}.

(** The call [show_reference_images({})], without a query. *)
Definition pictureCall : functionCall :=
  {| name := Some (lit "show_reference_images"); fc_args := noArgs |}.

(** The lower-case mapping on the code units of Latin-1 (below 256),
    where no code unit is a surrogate and every letter has a lower-case
    form of one code unit. *)
Definition lowerLatin1 (x : N) : N :=
  if (65 <=? x) && (x <=? 90) then x + 32
  else if (192 <=? x) && (x <=? 222) && negb (x =? 215) then x + 32
  else x.

(** A text of Latin-1 code units. *)
Definition latin1 (s : str) : Prop := Forall (fun x => x < 256) s.

(** The text [Kill myself] written with the Kelvin sign (U+212A) for its
    first letter. *)
Definition kelvinText : str := 8490 :: lit "ill myself".

(** The text of a body when it is a string. *)
Definition stringText (req : incoming) : option str :=
  match in_body req with
  | Parsed _ (Some (TextString t)) => Some t
  | Stream (Some (_, Some (TextString t))) => Some t
  | _ => None
  end.

(** The text the platform parsed is a truthy value that is not a string. *)
Definition truthyText (req : incoming) : bool :=
  match in_body req with
  | Parsed _ (Some (TextOther true)) => true
  | _ => false
  end.

(** The five ways of the handler. *)
Definition handlerCase (cfg : config) (mem : historyMap) (req : request)
    (tr : list occurrence) (res : httpResponse * historyMap) : Prop :=
  let text := default [] (req_text req) in
  (method req <> lit "POST" /\ status res.1 = 405 /\ res.2 = mem /\ tr = [])
  \/ (method req = lit "POST" /\ GEMINI_API_KEY cfg = false
      /\ status res.1 = 500 /\ res.2 = mem /\ tr = [])
  \/ (method req = lit "POST" /\ GEMINI_API_KEY cfg = true
      /\ trim text = [] /\ status res.1 = 200)
  \/ (method req = lit "POST" /\ GEMINI_API_KEY cfg = true
      /\ trim text <> [] /\ safe (validateInput text) = false
      /\ status res.1 = 400 /\ res.2 = mem
      /\ tr = [Occ (ConsoleWarn (lit "Safety violation detected:")) tt])
  \/ (method req = lit "POST" /\ GEMINI_API_KEY cfg = true
      /\ trim text <> [] /\ safe (validateInput text) = true
      /\ status res.1 = 200).

(* ===================================================================== *)
(** * Runs and paths                                                      *)
(* ===================================================================== *)

Lemma always_mono {A} (Q Q' : A -> Prop) (m : prog A) :
  (forall a, Q a -> Q' a) -> always Q m -> always Q' m.
Proof. intros HQ; induction m; simpl; auto. Qed.

Lemma always_trivial {A} (Q : A -> Prop) (m : prog A) :
  (forall a, Q a) -> always Q m.
Proof. intros HQ; induction m; simpl; auto. Qed.

Lemma always_bind {A B} (Q : B -> Prop) (m : prog A) (f : A -> prog B) :
  always (fun a => always Q (f a)) m -> always Q (bind m f).
Proof. induction m; simpl; auto. Qed.

Lemma always_runs {A} (Q : A -> Prop) (m : prog A) tr a :
  always Q m -> runs m tr a -> Q a.
Proof. intros H R; induction R; simpl in *; auto. Qed.

Lemma atMost_mono {A} P n n' (m : prog A) :
  (n <= n')%nat -> atMost P n m -> atMost P n' m.
Proof.
  revert n n'; induction m as [|X e k IH]; simpl; auto.
  intros n n' Hle; destruct (P X e).
  - destruct n; [tauto|]. destruct n'; [lia|].
    intros Hk x; apply (IH x n); [lia|auto].
  - intros Hk x; apply (IH x n); auto.
Qed.

Lemma atMost_bind {A B} P n1 n2 (m : prog A) (f : A -> prog B) :
  atMost P n1 m -> always (fun x => atMost P n2 (f x)) m ->
  atMost P (n1 + n2) (bind m f).
Proof.
  revert n1; induction m as [r|X e k IH]; simpl; intros n1.
  - intros _ H; eapply atMost_mono; [|exact H]; lia.
  - destruct (P X e).
    + destruct n1; [tauto|]. intros Hk Hf x; apply IH; auto.
    + intros Hk Hf x; apply IH; auto.
Qed.

Lemma atMost_runs {A} P n (m : prog A) tr a :
  atMost P n m -> runs m tr a -> (count P tr <= n)%nat.
Proof.
  intros H R; revert n H; induction R as [|X e k x tr a R IH];
    intros n H; [unfold count; simpl; lia|].
  simpl in H; unfold count in *; simpl.
  destruct (P X e).
  - destruct n; [tauto|]. simpl. specialize (IH n (H x)). lia.
  - apply IH, H.
Qed.

Lemma traced_runs {A} Q (m : prog A) tr a :
  traced Q m -> runs m tr a -> Q tr a.
Proof.
  intros H R; revert Q H; induction R as [|X e k x tr a R IH];
    intros Q H; simpl in H; [exact H|].
  apply (IH (fun tr a => Q (Occ e x :: tr) a)), H.
Qed.

Lemma traced_mono {A} (Q Q' : list occurrence -> A -> Prop) (m : prog A) :
  (forall tr a, Q tr a -> Q' tr a) -> traced Q m -> traced Q' m.
Proof.
  revert Q Q'; induction m as [r|X e k IH]; simpl; intros Q Q' HQ; auto.
  intros H x; eapply IH; [|apply H]; simpl; auto.
Qed.

Lemma run_runs {A W} (h : answers W) (m : prog A) w :
  runs m (run h m w).1.1 (run h m w).1.2.
Proof.
  revert w; induction m as [a|X e k IH]; simpl; intros w; [constructor|].
  destruct (h X e w) as [x w1] eqn:Hh.
  specialize (IH x w1). destruct (run h (k x) w1) as [[tr a] w2]; simpl in *.
  constructor; exact IH.
Qed.

(* ===================================================================== *)
(** * The input gate                                                      *)
(* ===================================================================== *)

Lemma letter_not_space c x :
  isLetter c = true -> isSpace x = true -> (canon c =? canon x) = false.
Proof.
  unfold isLetter, isSpace, canon; intros Hc Hx.
  rewrite Hc.
  destruct ((97 <=? x) && (x <=? 122)) eqn:Hl; bools; try lia;
    apply N.eqb_neq; lia.
Qed.

Lemma exec_blank {A} (r : regex) (k : str -> option A) s :
  startsWithLetter r = true -> blank s -> exec true r k s = None.
Proof.
  revert k; induction r as [|a|r1 IH1 r2 IH2|r1 IH1 r2 IH2| | |];
    simpl; intros k Hr Hs; try discriminate.
  - destruct a; try discriminate.
    destruct s as [|x s]; [reflexivity|]. simpl in Hs |- *.
    now rewrite letter_not_space.
  - now apply IH1.
  - apply andb_prop in Hr as [Hr1 Hr2].
    rewrite IH1 by assumption. now apply IH2.
Qed.

Lemma test_blank r s :
  startsWithLetter r = true -> forallb isSpace s = true ->
  test true r s = false.
Proof.
  intros Hr; induction s as [|x s IH]; simpl; intros Hs.
  - now rewrite exec_blank.
  - apply andb_prop in Hs as [Hx Hs].
    rewrite exec_blank by (simpl; assumption). now apply IH.
Qed.

Lemma trimStart_nil s : trimStart s = [] -> forallb isSpace s = true.
Proof.
  induction s as [|x s IH]; simpl; [reflexivity|].
  destruct (isSpace x); [exact IH|discriminate].
Qed.

Lemma trimStart_head s :
  match trimStart s with
  | [] => True
  | x :: _ => isSpace x = false
  end.
Proof.
  induction s as [|x s IH]; simpl; [exact I|].
  destruct (isSpace x) eqn:Hx; [exact IH|exact Hx].
Qed.

Lemma trimStart_snoc l x : isSpace x = false -> trimStart (l ++ [x]) <> [].
Proof.
  intros Hx; induction l as [|y l IH]; simpl.
  - now rewrite Hx.
  - destruct (isSpace y); [exact IH|discriminate].
Qed.

Lemma trim_nil s : trim s = [] -> forallb isSpace s = true.
Proof.
  unfold trim, trimEnd; intros H.
  apply trimStart_nil.
  pose proof (trimStart_head s) as Hh.
  destruct (trimStart s) as [|x r]; [reflexivity|].
  exfalso. simpl in H.
  apply (f_equal (@rev N)) in H. rewrite rev_involutive in H. simpl in H.
  now apply (trimStart_snoc (rev r) x).
Qed.

Lemma banned_start_with_letter :
  forallb startsWithLetter (HARMFUL_PATTERNS ++ COOKING_SAFETY_PATTERNS) = true.
Proof. vm_compute. reflexivity. Qed.

(** The two loops of the gate, over any two lists of patterns. *)
Lemma gate_loops (hs cs : list regex) (text : str) pattern
    (r1 r2 : str) (c1 c2 : option str) :
  pattern ∈ hs ++ cs ->
  test true pattern text = true ->
  let v :=
    if existsb (fun pattern => test true pattern text) hs
    then {| safe := false; reason := Some r1; category := c1 |}
    else if existsb (fun pattern => test true pattern text) cs
    then {| safe := false; reason := Some r2; category := c2 |}
    else {| safe := true; reason := None; category := None |} in
  safe v = false /\ (reason v = Some r1 \/ reason v = Some r2).
Proof.
  intros Hin Ht.
  destruct (existsb (fun p => test true p text) hs) eqn:Hh; [simpl; auto|].
  destruct (existsb (fun p => test true p text) cs) eqn:Hc; [simpl; auto|].
  exfalso. apply elem_of_app in Hin as [Hin|Hin]; apply list_elem_of_In in Hin.
  - assert (existsb (fun p => test true p text) hs = true) as E
      by (apply existsb_exists; exists pattern; split; assumption).
    rewrite E in Hh; discriminate.
  - assert (existsb (fun p => test true p text) cs = true) as E
      by (apply existsb_exists; exists pattern; split; assumption).
    rewrite E in Hc; discriminate.
Qed.

Lemma banned_not_blank text pattern :
  pattern ∈ HARMFUL_PATTERNS ++ COOKING_SAFETY_PATTERNS ->
  forallb isSpace text = true ->
  test true pattern text = false.
Proof.
  intros Hin Hb.
  pose proof banned_start_with_letter as Hall.
  rewrite forallb_forall in Hall.
  apply list_elem_of_In in Hin. specialize (Hall _ Hin).
  exact (test_blank _ _ Hall Hb).
Qed.

(** A text that matches a banned pattern is not blank, and [validateInput]
    refuses it with one of the two reasons. *)
Lemma validateInput_banned text pattern :
  pattern ∈ HARMFUL_PATTERNS ++ COOKING_SAFETY_PATTERNS ->
  test true pattern text = true ->
  trim text <> [] /\ safe (validateInput text) = false
  /\ (reason (validateInput text) = Some (lit "Contains harmful content")
      \/ reason (validateInput text) = Some (lit "Unsafe cooking practice")).
Proof.
  intros Hin Ht. split.
  - intros Hnil. apply trim_nil in Hnil.
    rewrite (banned_not_blank _ _ Hin Hnil) in Ht. discriminate.
  - destruct text as [|x text].
    { rewrite (banned_not_blank [] _ Hin (eq_refl true)) in Ht.
      discriminate. }
    exact (gate_loops HARMFUL_PATTERNS COOKING_SAFETY_PATTERNS (x :: text)
             pattern (lit "Contains harmful content")
             (lit "Unsafe cooking practice") (Some (lit "harmful"))
             (Some (lit "unsafe_cooking")) Hin Ht).
Qed.

(** C2. A POST whose text matches a harmful-content or cooking-safety
    pattern is refused by [validateInput] with one of the two reasons; on
    every run the handler answers 400 with that reason, the in-process map
    is untouched, and the model is never called (neither is the datastore:
    the only call of the run is the warning of the safety log). *)
Theorem banned_input_rejected_before_model
    (cfg : config) (mem : historyMap) (req : request) (text : str) pattern :
  method req = lit "POST" ->
  GEMINI_API_KEY cfg = true ->
  req_text req = Some text ->
  pattern ∈ HARMFUL_PATTERNS ++ COOKING_SAFETY_PATTERNS ->
  test true pattern text = true ->
  safe (validateInput text) = false
  /\ (reason (validateInput text) = Some (lit "Contains harmful content")
      \/ reason (validateInput text) = Some (lit "Unsafe cooking practice"))
  /\ handler cfg mem req
     = Vis (ConsoleWarn (lit "Safety violation detected:"))
         (fun _ => Ret (blocked text, mem))
  /\ forall tr res,
       runs (handler cfg mem req) tr res ->
       res = (blocked text, mem)
       /\ count (@isModelCall) tr = 0%nat
       /\ count (@isWrite) tr = 0%nat.
Proof.
  intros Hm Hk Ht Hin Hmatch.
  destruct (validateInput_banned text pattern Hin Hmatch) as (Hne & Hs & Hr).
  assert (handler cfg mem req
          = Vis (ConsoleWarn (lit "Safety violation detected:"))
              (fun _ => Ret (blocked text, mem))) as Heq.
  { unfold handler, readJson. cbn [andb fst snd]. rewrite Hm, Hk, Ht. simpl default.
    replace (eqb (lit "POST") (lit "POST")) with true by reflexivity.
    simpl negb. cbv iota.
    destruct (trim text) as [|c r] eqn:E; [contradiction|].
    rewrite Hs. reflexivity. }
  repeat split; auto.
  - rewrite Heq in H.
    eapply (traced_runs (fun _ res => res = (blocked text, mem))) in H;
      [exact H|]. simpl. auto.
  - rewrite Heq in H.
    eapply (traced_runs (fun tr _ => count (@isModelCall) tr = 0%nat)) in H;
      [exact H|]. simpl. auto.
  - rewrite Heq in H.
    eapply (traced_runs (fun tr _ => count (@isWrite) tr = 0%nat)) in H;
      [exact H|]. simpl. auto.
Qed.

(** C10. A POST whose text is missing, empty or made of white space is
    answered at once: the handler is the single return of status 200 with
    the body [{reply: ''}] (no actions, no nutrition). Its runs make no
    call at all: no safety log, no model call, no datastore call, and the
    in-process map is returned as it was. *)
Theorem empty_text_short_circuit
    (cfg : config) (mem : historyMap) (req : request) :
  method req = lit "POST" ->
  GEMINI_API_KEY cfg = true ->
  trim (default [] (req_text req)) = [] ->
  handler cfg mem req = Ret ({| status := 200; body := BodyReply [] |}, mem)
  /\ forall tr res,
       runs (handler cfg mem req) tr res ->
       tr = [] /\ res = ({| status := 200; body := BodyReply [] |}, mem).
Proof.
  intros Hm Hk Ht.
  assert (handler cfg mem req
          = Ret ({| status := 200; body := BodyReply [] |}, mem)) as Heq.
  { unfold handler, readJson. cbn [andb fst snd]. rewrite Hm, Hk.
    replace (eqb (lit "POST") (lit "POST")) with true by reflexivity.
    simpl negb. cbv iota. rewrite Ht. reflexivity. }
  split; [exact Heq|].
  intros tr res R. rewrite Heq in R.
  apply (traced_runs
           (fun tr res => tr = []
              /\ res = ({| status := 200; body := BodyReply [] |}, mem))) in R;
    [exact R|]. simpl. auto.
Qed.

(* ===================================================================== *)
(** * The action executor                                                 *)
(* ===================================================================== *)

Lemma executeFunctionCall_unknown cfg userId c :
  declared c = false -> executeFunctionCall cfg userId c = Ret unknownFunction.
Proof.
  unfold declared, toolNames. cbn [existsb List.map]. intros H.
  repeat (apply orb_false_elim in H as [?H H]).
  unfold executeFunctionCall, named.
  repeat match goal with
         | E : bool_decide _ = false |- _ => rewrite E; clear E
         end.
  reflexivity.
Qed.

Lemma executeFunctionCall_entry cfg userId c :
  always (fun a => declared c = false -> a = unknownFunction)
    (executeFunctionCall cfg userId c).
Proof.
  destruct (declared c) eqn:E.
  - apply always_trivial; intros; discriminate.
  - rewrite executeFunctionCall_unknown by assumption. simpl. auto.
Qed.

(** The loop over the calls keeps one entry per call, in order. *)
Lemma forEach_entries cfg userId calls :
  always
    (fun acts =>
       length acts = length calls
       /\ forall i c, calls !! i = Some c -> declared c = false ->
                      acts !! i = Some unknownFunction)
    (forEach (executeFunctionCall cfg userId) calls).
Proof.
  induction calls as [|c calls IH]; simpl.
  - split; [reflexivity|]. intros i c H; discriminate.
  - unmonad. apply always_bind.
    eapply always_mono; [|apply executeFunctionCall_entry].
    intros a Ha. apply always_bind.
    eapply always_mono; [|apply IH].
    intros acts [Hlen Hacts]. simpl. split; [now rewrite Hlen|].
    intros [|i] c' Hc Hd; simpl in *.
    + inversion Hc; subst. now rewrite Ha.
    + eauto.
Qed.

(** C9. Whatever the collaborators answer, a tool call whose name is not
    one of the six declared tools gives the entry [{error: 'Unknown
    function'}], and the actions of the turn hold that entry at the
    position of the call: no call is dropped. *)
Theorem unknown_tool_yields_error_entry
    (cfg : config) (userId message : str) (memory : list entry)
    (calls : list functionCall) (i : nat) (c : functionCall) tr acts :
  calls !! i = Some c ->
  declared c = false ->
  runs (turnActions cfg userId message memory calls) tr acts ->
  executeFunctionCall cfg userId c = Ret unknownFunction
  /\ length acts = length calls
  /\ acts !! i = Some unknownFunction.
Proof.
  intros Hc Hd R. split; [now apply executeFunctionCall_unknown|].
  revert R.
  apply (always_runs (fun acts => length acts = length calls
                                  /\ acts !! i = Some unknownFunction)).
  unfold turnActions. unmonad.
  apply always_bind.
  eapply always_mono; [|apply forEach_entries].
  intros a [Hlen Ha]. destruct a as [|a0 a].
  - destruct calls; [discriminate|discriminate].
  - simpl. split; [exact Hlen|]. eapply Ha; eauto.
Qed.

(** C8. When the datastore write of an action fails (an error answer or a
    thrown exception), the failure is caught and logged on the error
    console; the preference handler still reports [preference_updated],
    on every run, while the recipe and shopping-list handlers report an
    error entry. The failing runs exist: the second half gives, for each
    of the three handlers and each failing answer of the datastore, the
    run that issues the write, gets that answer, logs it and ends with the
    entry. The error entries of the recipe and shopping-list handlers come
    with the failure only: with a datastore client and a write that did
    not fail, they report the action. *)
Theorem write_failure_reporting (cfg : config) (userId : str) :
  (forall preferenceData tr a,
     runs (executeUpdatePreferences cfg userId preferenceData) tr a ->
     actionTag a = Some (lit "preference_updated")
     /\ (writeFailed tr = true -> errorLogged tr = true))
  /\ (forall recipeData tr a,
        runs (executeSaveRecipe cfg userId recipeData) tr a ->
        writeFailed tr = true ->
        a = ActionError (lit "Failed to save recipe")
        /\ errorLogged tr = true)
  /\ (forall items tr a,
        runs (executeAddToShoppingList cfg userId items) tr a ->
        writeFailed tr = true ->
        a = ActionError (lit "Failed to add to shopping list")
        /\ errorLogged tr = true)
  /\ (supabase cfg = true ->
      forall preferenceData now (answer : dbResult unit),
        failed answer = true ->
        exists row log message,
          runs (executeUpdatePreferences cfg userId preferenceData)
            [Occ Now now; Occ (UpsertPreference row) answer;
             Occ (ConsoleError log) tt]
            (PreferenceUpdated preferenceData message))
  /\ (supabase cfg = true ->
      forall recipeData (answer : dbResult unit),
        failed answer = true ->
        exists log,
          runs (executeSaveRecipe cfg userId recipeData)
            [Occ (InsertRecipe (recipeRow userId recipeData)) answer;
             Occ (ConsoleError log) tt;
             Occ (ConsoleError (lit "Recipe save error:")) tt]
            (ActionError (lit "Failed to save recipe")))
  /\ (supabase cfg = true ->
      forall items (answer : dbResult unit),
        failed answer = true ->
        exists log,
          runs (executeAddToShoppingList cfg userId (Some items))
            [Occ (InsertShopping (List.map (shoppingItem userId) items))
               answer;
             Occ (ConsoleError log) tt;
             Occ (ConsoleError (lit "Shopping list error:")) tt]
            (ActionError (lit "Failed to add to shopping list")))
  /\ (supabase cfg = true ->
      (forall recipeData tr a,
         runs (executeSaveRecipe cfg userId recipeData) tr a ->
         writeFailed tr = false ->
         actionTag a = Some (lit "recipe_saved"))
      /\ (forall items tr a,
            runs (executeAddToShoppingList cfg userId (Some items)) tr a ->
            writeFailed tr = false ->
            actionTag a = Some (lit "shopping_list_added"))).
Proof.
  split; [|split; [|split; [|split; [|split; [|split]]]]].
  - intros p tr a R. split; revert R.
    + apply (always_runs
               (fun a => actionTag a = Some (lit "preference_updated"))).
      unfold executeUpdatePreferences, saveUserPreference. unmonad.
      destruct (supabase cfg); walk.
    + apply (traced_runs
               (fun tr _ => writeFailed tr = true -> errorLogged tr = true)).
      unfold executeUpdatePreferences, saveUserPreference. unmonad.
      destruct (supabase cfg); walk.
  - intros r tr a R F. split; revert F; revert R.
    + apply (traced_runs
               (fun tr a => writeFailed tr = true ->
                            a = ActionError (lit "Failed to save recipe"))).
      unfold executeSaveRecipe, saveRecipe. unmonad.
      destruct (supabase cfg); walk.
    + apply (traced_runs
               (fun tr a => writeFailed tr = true -> errorLogged tr = true)).
      unfold executeSaveRecipe, saveRecipe. unmonad.
      destruct (supabase cfg); walk.
  - intros l tr a R F. split; revert F; revert R.
    + apply (traced_runs
               (fun tr a => writeFailed tr = true ->
                  a = ActionError (lit "Failed to add to shopping list"))).
      unfold executeAddToShoppingList, addToShoppingList. unmonad.
      destruct (supabase cfg), l; walk.
    + apply (traced_runs
               (fun tr a => writeFailed tr = true -> errorLogged tr = true)).
      unfold executeAddToShoppingList, addToShoppingList. unmonad.
      destruct (supabase cfg), l; walk.
  - intros Hs preferenceData now answer Hf.
    unfold executeUpdatePreferences, saveUserPreference. unmonad.
    rewrite Hs. simpl.
    destruct answer as [d| |]; [discriminate| |];
      do 3 eexists; repeat constructor.
  - intros Hs recipeData answer Hf.
    unfold executeSaveRecipe, saveRecipe. unmonad.
    rewrite Hs. simpl.
    destruct answer as [d| |]; [discriminate| |];
      eexists; repeat constructor.
  - intros Hs items answer Hf.
    unfold executeAddToShoppingList, addToShoppingList. unmonad.
    rewrite Hs. simpl.
    destruct answer as [d| |]; [discriminate| |];
      eexists; repeat constructor.
  - intros Hs. split.
    + intros r tr a.
      apply (traced_runs
               (fun tr a => writeFailed tr = false ->
                            actionTag a = Some (lit "recipe_saved"))).
      unfold executeSaveRecipe, saveRecipe. unmonad. rewrite Hs. walk.
    + intros l tr a.
      apply (traced_runs
               (fun tr a => writeFailed tr = false ->
                            actionTag a = Some (lit "shopping_list_added"))).
      unfold executeAddToShoppingList, addToShoppingList. unmonad.
      rewrite Hs. walk.
Qed.

(* ===================================================================== *)
(** * The nutrition heuristic                                             *)
(* ===================================================================== *)

(** Lower-casing neither adds nor removes a question mark: no code point
    below [A] is mapped, and no code point is mapped to one. *)
Lemma lowerTable_bounds :
  forall lo hi step lo',
    In (lo, hi, step, lo') lowerTable -> 65 <= lo /\ 97 <= lo'.
Proof.
  assert (forallb (fun '(lo, _, _, lo') => (65 <=? lo) && (97 <=? lo'))
            lowerTable = true) as H by (vm_compute; reflexivity).
  rewrite forallb_forall in H. intros lo hi step lo' Hin.
  specialize (H _ Hin). cbn beta iota in H.
  apply andb_true_iff in H as [H1 H2]. apply N.leb_le in H1, H2. auto.
Qed.

Lemma lowerPoint_cases c :
  lowerPoint c = c \/ (65 <= c /\ 97 <= lowerPoint c).
Proof.
  unfold lowerPoint.
  destruct (List.find _ lowerTable) as [[[[lo hi] step] lo']|] eqn:E;
    [|now left].
  apply List.find_some in E as [Hin Hc].
  destruct (lowerTable_bounds _ _ _ _ Hin) as [H1 H2].
  apply andb_true_iff in Hc as [Hc _]. apply andb_true_iff in Hc as [Hc _].
  apply N.leb_le in Hc. right. lia.
Qed.

Lemma lowerPoint_question c : (63 =? lowerPoint c) = (63 =? c).
Proof.
  destruct (lowerPoint_cases c) as [->|[H1 H2]]; [reflexivity|].
  transitivity false; [|symmetry]; apply N.eqb_neq; lia.
Qed.

Lemma units_question c : existsb (N.eqb 63) (units c) = (63 =? c).
Proof.
  unfold units. destruct (c <? 65536) eqn:E; cbn [existsb].
  - now rewrite orb_false_r.
  - apply N.ltb_ge in E. rewrite orb_false_r.
    transitivity false; [|symmetry; apply N.eqb_neq; lia].
    apply orb_false_iff. split; apply N.eqb_neq.
    + generalize ((c - 65536) / 1024). intros; lia.
    + generalize ((c - 65536) mod 1024). intros; lia.
Qed.

Lemma lowerFrom_question before s :
  existsb (N.eqb 63) (concat (List.map units (lowerFrom before s)))
  = existsb (N.eqb 63) s.
Proof.
  revert before. induction s as [|c s IH]; intros before; [reflexivity|].
  cbn [lowerFrom]. rewrite List.map_app, concat_app, existsb_app, IH.
  cbn [existsb]. f_equal.
  destruct (c =? 931) eqn:E1.
  { apply N.eqb_eq in E1. subst c.
    now destruct (casedFirst before && negb (casedFirst s)). }
  destruct (c =? 304) eqn:E2.
  { apply N.eqb_eq in E2. now subst c. }
  cbn [List.map concat]. rewrite app_nil_r, units_question.
  apply lowerPoint_question.
Qed.

Lemma codePoints_question s :
  existsb (N.eqb 63) (codePoints s) = existsb (N.eqb 63) s.
Proof.
  assert (forall n s, (length s <= n)%nat ->
            existsb (N.eqb 63) (codePoints s) = existsb (N.eqb 63) s) as H.
  { clear s. induction n as [|n IH]; intros [|x [|y s]] Hlen;
      try reflexivity; cbn [length] in Hlen; try lia.
    cbn [codePoints].
    destruct (isHighSurrogate x && isLowSurrogate y) eqn:E.
    - apply andb_true_iff in E as [Hx Hy].
      unfold isHighSurrogate, isLowSurrogate in *.
      apply andb_true_iff in Hx as [Hx _], Hy as [Hy _].
      apply N.leb_le in Hx, Hy.
      cbn [existsb]. rewrite (IH s) by lia.
      replace (63 =? x) with false by (symmetry; apply N.eqb_neq; lia).
      replace (63 =? y) with false by (symmetry; apply N.eqb_neq; lia).
      replace (63 =? 65536 + (x - 55296) * 1024 + (y - 56320)) with false
        by (symmetry; apply N.eqb_neq; lia).
      reflexivity.
    - change (existsb (N.eqb 63) (x :: codePoints (y :: s))
              = existsb (N.eqb 63) (x :: y :: s)).
      cbn [existsb]. f_equal. apply (IH (y :: s)). cbn [length]. lia. }
  now apply (H (length s)).
Qed.

Lemma includes_unit s c :
  includes s [c] = existsb (N.eqb c) s.
Proof.
  induction s as [|x s IH]; [reflexivity|].
  cbn [includes startsWith existsb]. rewrite IH.
  now destruct s; rewrite andb_true_r.
Qed.

Lemma includes_question text :
  includes (toLowerCase text) (lit "?") = includes text (lit "?").
Proof.
  change (lit "?") with [63]. rewrite !includes_unit. unfold toLowerCase.
  now rewrite lowerFrom_question, codePoints_question.
Qed.

(** What [hasRecentRecipe] looks at. *)
Lemma hasRecentRecipe_spec conversationHistory :
  hasRecentRecipe conversationHistory = true <->
  exists h content keyword,
    h ∈ lastN 4 conversationHistory
    /\ memory_content h = Some content /\ content <> []
    /\ keyword ∈ continuationKeywords
    /\ includes (toLowerCase content) keyword = true.
Proof.
  unfold hasRecentRecipe. rewrite existsb_exists. split.
  - intros (h & Hin & Hh). destruct (memory_content h) as [[|x c]|] eqn:E;
      try discriminate.
    apply existsb_exists in Hh as (k & Hk & Hinc).
    exists h, (x :: c), k. rewrite !list_elem_of_In. auto.
  - intros (h & content & k & Hin & Hc & Hne & Hk & Hinc).
    exists h. rewrite <- list_elem_of_In. split; [assumption|].
    rewrite Hc. destruct content as [|x c]; [contradiction|].
    apply existsb_exists. exists k. rewrite <- list_elem_of_In. auto.
Qed.

Lemma continuation_is_not_new text conversationHistory :
  hasRecentRecipe conversationHistory = true ->
  isNewRecipeSuggestion text conversationHistory = false.
Proof.
  intros H. unfold isNewRecipeSuggestion. destruct text; [reflexivity|].
  rewrite H. now destruct (_ || _).
Qed.

(** C6, against the interrogative words and the keyword overlap. A reply
    that starts with the interrogative [why] and holds no question mark is
    taken for a suggestion; so is a reply about the pasta that the last
    history entries are about. *)
Lemma other_interrogative_counts_as_suggestion :
  let text := lit "Why not try a simple tomato pasta tonight" in
  let reply := lit "Stir the pasta sauce for ten more minutes" in
  (startsWith (toLowerCase text) (lit "why ") = true
   /\ isNewRecipeSuggestion text [] = true)
  /\ (includes (toLowerCase reply) (lit "pasta") = true
      /\ forallb (fun h => includes
                             (toLowerCase (default [] (memory_content h)))
                             (lit "pasta")) pastaTalk = true
      /\ isNewRecipeSuggestion reply pastaTalk = true).
Proof. vm_compute. repeat split. Qed.

(** C6, as amended. The classifier of new recipe suggestions. With
    [question] the test "the text contains a question mark, or starts (in
    any letter case) with [what ] or [how ]": a question is not a
    suggestion; a reply after a recently discussed recipe (one of the last
    four history entries contains, in any letter case, one of the three
    keywords [fried rice], [nutrition], [📖]) is not a suggestion; any
    other reply is a suggestion exactly when it has a cooking keyword and
    more than 100 code units, or names a known dish. *)
Theorem new_recipe_classifier (text : str) (conversationHistory : list entry) :
  let lowerText := toLowerCase text in
  let question :=
    includes text (lit "?") || startsWith lowerText (lit "what ")
    || startsWith lowerText (lit "how ") in
  (question = true ->
   isNewRecipeSuggestion text conversationHistory = false)
  /\ (hasRecentRecipe conversationHistory = true ->
      isNewRecipeSuggestion text conversationHistory = false)
  /\ (question = false -> hasRecentRecipe conversationHistory = false ->
      isNewRecipeSuggestion text conversationHistory
      = (existsb (includes lowerText) cookingKeywords
         && (100 <? length text)%nat)
        || existsb (includes lowerText) recipeNames)
  /\ (hasRecentRecipe conversationHistory = true <->
      exists h content keyword,
        h ∈ lastN 4 conversationHistory
        /\ memory_content h = Some content /\ content <> []
        /\ keyword ∈ continuationKeywords
        /\ includes (toLowerCase content) keyword = true).
Proof.
  intros lowerText question.
  assert (forall x t, isNewRecipeSuggestion (x :: t) conversationHistory
            = if includes (x :: t) (lit "?")
                 || startsWith (toLowerCase (x :: t)) (lit "what ")
                 || startsWith (toLowerCase (x :: t)) (lit "how ")
              then false
              else if hasRecentRecipe conversationHistory then false
              else (existsb (includes (toLowerCase (x :: t))) cookingKeywords
                    && (100 <? length (x :: t))%nat)
                   || existsb (includes (toLowerCase (x :: t))) recipeNames)
    as Hdef.
  { intros x t. unfold isNewRecipeSuggestion.
    rewrite includes_question. reflexivity. }
  repeat split.
  - intros Hq. destruct text as [|x t]; [reflexivity|].
    rewrite Hdef. subst question lowerText. now rewrite Hq.
  - apply continuation_is_not_new.
  - intros Hq Hr. destruct text as [|x t]; [reflexivity|].
    rewrite Hdef. subst question lowerText. now rewrite Hq, Hr.
  - apply hasRecentRecipe_spec.
  - apply hasRecentRecipe_spec.
Qed.

Lemma getUserPreferences_silent cfg u : silent (getUserPreferences cfg u).
Proof. unfold getUserPreferences. quiet. Qed.

Lemma getUserMemory_silent cfg u t : silent (getUserMemory cfg u t).
Proof. unfold getUserMemory. quiet. Qed.

Lemma getUserRecipes_silent cfg u b : silent (getUserRecipes cfg u b).
Proof. unfold getUserRecipes. quiet. Qed.

Lemma readRecipeGuidance_silent l : silent (readRecipeGuidance l).
Proof. unfold readRecipeGuidance. quiet. Qed.

Lemma getConversationHistory_silent cfg mem u :
  silent (getConversationHistory cfg mem u).
Proof. unfold getConversationHistory. quiet. Qed.

Lemma addToHistory_silent cfg mem u m r : silent (addToHistory cfg mem u m r).
Proof. unfold addToHistory. quiet. Qed.

Lemma failAgent_silent : silent failAgent.
Proof. unfold failAgent. quiet. Qed.

Lemma usageCheck_silent r : silent (usageCheck r).
Proof. unfold usageCheck. quiet. Qed.

Lemma finishReasonCheck_silent r : silent (finishReasonCheck r).
Proof. unfold finishReasonCheck. quiet. Qed.

Lemma extractFunctionCalls_silent r : silent (extractFunctionCalls r).
Proof. unfold extractFunctionCalls. quiet. Qed.

Lemma executeFunctionCall_silent cfg u c : silent (executeFunctionCall cfg u c).
Proof.
  unfold executeFunctionCall, executeAddToShoppingList, executeSaveRecipe,
    executeUpdatePreferences, executeSuggestSubstitutions,
    executeGuideRecipeStep, executeShowReferenceImages, addToShoppingList,
    saveRecipe, saveUserPreference.
  quiet.
Qed.

Lemma silent_bind {A B} (m : prog A) (f : A -> prog B) n :
  silent m -> (forall a, atMost (@isNutritionCall) n (f a)) ->
  atMost (@isNutritionCall) n (bind m f).
Proof.
  intros Hm Hf. apply (atMost_bind _ 0 n); [exact Hm|].
  now apply always_trivial.
Qed.

Lemma forEach_silent cfg u calls :
  silent (forEach (executeFunctionCall cfg u) calls).
Proof.
  induction calls as [|c calls IH]; simpl; [exact I|]. unmonad.
  apply silent_bind; [apply executeFunctionCall_silent|]. intros a.
  apply silent_bind; [exact IH|]. intros l. exact I.
Qed.

Lemma turnActions_silent cfg u m mem calls :
  silent (turnActions cfg u m mem calls).
Proof.
  unfold turnActions. unmonad.
  apply silent_bind; [apply forEach_silent|].
  intros [|a l]; [destruct (askedToSee m)|]; exact I.
Qed.

Lemma analyzeNutrition_once t n :
  atMost (@isNutritionCall) 1 (analyzeNutrition t n).
Proof. unfold analyzeNutrition. quiet. Qed.

Lemma maybeNutrition_once m r h :
  atMost (@isNutritionCall) 1 (maybeNutrition m r h).
Proof.
  unfold maybeNutrition. unmonad. destruct (_ || _); [|exact I].
  replace 1%nat with (1 + 0)%nat by reflexivity.
  apply atMost_bind; [apply analyzeNutrition_once|].
  apply always_trivial. intros [v|]; simpl; auto.
Qed.

(** The nutrition call of the agent is the one of [maybeNutrition]. *)
Lemma processWithAgent_nutrition cfg u message h n :
  (forall reply, atMost (@isNutritionCall) n (maybeNutrition message reply h)) ->
  atMost (@isNutritionCall) n (processWithAgent cfg u message h).
Proof.
  intros Hn.
  assert (forall m : prog agentResult, silent m -> atMost (@isNutritionCall) n m)
    as up by (intros m; apply atMost_mono; lia).
  unfold processWithAgent. destruct (checkCookingIntent message); [exact I|].
  unmonad.
  apply silent_bind; [apply getUserPreferences_silent|]. intros prefs.
  apply silent_bind; [apply getUserMemory_silent|]. intros memory.
  apply silent_bind; [apply getUserRecipes_silent|]. intros recipes.
  apply silent_bind; [apply readRecipeGuidance_silent|]. intros guidance.
  cbn [atMost bind isNutritionCall]. intros [|response].
  { apply up, failAgent_silent. }
  apply silent_bind; [apply usageCheck_silent|]. intros _.
  assert (atMost (@isNutritionCall) n
            (interpretResponse cfg u message h memory response)) as Hi.
  { unfold interpretResponse. unmonad.
    apply silent_bind; [apply finishReasonCheck_silent|]. intros _.
    destruct (text response) as [reply|]; [|apply up, failAgent_silent].
    apply silent_bind; [apply extractFunctionCalls_silent|]. intros calls.
    apply silent_bind; [apply turnActions_silent|]. intros acts.
    replace n with (n + 0)%nat by lia.
    apply atMost_bind; [apply Hn|]. apply always_trivial. intros; exact I. }
  destruct (blockReason response) as [[|? ?]|]; try exact Hi.
  cbn [atMost bind isNutritionCall]. intros _. apply up, failAgent_silent.
Qed.

Lemma handler_nutrition_once cfg mem req :
  atMost (@isNutritionCall) 1 (handler cfg mem req).
Proof.
  unfold handler, readJson. cbn [andb fst snd].
  destruct (negb (eqb _ _)); [exact I|].
  destruct (negb (GEMINI_API_KEY cfg)); [exact I|].
  destruct (trim _); [exact I|].
  destruct (negb (safe _)); [unmonad; simpl; auto|].
  unfold turn. unmonad.
  apply silent_bind; [apply getConversationHistory_silent|]. intros h.
  replace 1%nat with (1 + 0)%nat by reflexivity.
  apply atMost_bind.
  { apply processWithAgent_nutrition. intros; apply maybeNutrition_once. }
  apply always_trivial. intros result.
  apply silent_bind; [apply addToHistory_silent|]. intros mem'.
  destruct (reply result); simpl; auto.
Qed.

(** C5, as amended. On every run of the handler the nutrition analysis is
    called at most once. When the reply continues a recently discussed
    recipe (one of the last four history entries holds one of the
    keywords) and the user's message does not ask for nutrition in so many
    words, it is not called at all. *)
Theorem nutrition_at_most_once_and_gated (cfg : config) :
  (forall mem req tr res,
     runs (handler cfg mem req) tr res ->
     (count (@isNutritionCall) tr <= 1)%nat)
  /\ (forall userId message conversationHistory tr res,
        hasRecentRecipe conversationHistory = true ->
        userExplicitlyAskedForNutrition message = false ->
        runs (processWithAgent cfg userId message conversationHistory) tr res ->
        count (@isNutritionCall) tr = 0%nat).
Proof.
  split.
  - intros mem req tr res R.
    eapply atMost_runs; [apply handler_nutrition_once|exact R].
  - intros u message h tr res Hr Hu R.
    enough (count (@isNutritionCall) tr <= 0)%nat by lia.
    eapply atMost_runs; [|exact R].
    apply processWithAgent_nutrition. intros reply.
    unfold maybeNutrition.
    rewrite Hu, (continuation_is_not_new reply h Hr). exact I.
Qed.


(* ===================================================================== *)
(** * Persistence and the user id                                         *)
(* ===================================================================== *)

(** C1, at the failing input. A request without a user id runs as the
    guest [web], which is not a canonical identifier. When the model
    answers with the tool call [update_preferences], the turn issues one
    datastore write, an upsert into [user_preferences] under the id
    [web]: [saveUserPreference] has no test of the id, unlike
    [addToHistory] and the read functions. *)
Theorem guest_tool_write_reaches_datastore :
  isValidUUID guest = false
  /\ exists tr res,
       runs (handler live ∅ (post None "I am vegetarian")) tr res
       /\ count (@isWrite) tr = 1%nat
       /\ List.map pu_user_id (preferenceWrites tr) = [guest].
Proof.
  split; [vm_compute; reflexivity|].
  pose (r := run store (handler live ∅ (post None "I am vegetarian"))
               (kitchen (says "Noted!" [dietCall]))).
  exists r.1.1, r.1.2. split; [apply run_runs|].
  vm_compute. auto.
Qed.

(* ===================================================================== *)
(** * The history writer                                                  *)
(* ===================================================================== *)

Lemma pushHistory_length history userMessage botResponse t1 t2 :
  (length (pushHistory history userMessage botResponse t1 t2) <= 20)%nat.
Proof.
  unfold pushHistory.
  destruct (20 <? length _)%nat eqn:E.
  - rewrite length_drop. apply Nat.ltb_lt in E. lia.
  - apply Nat.ltb_ge in E. exact E.
Qed.

Lemma bounded_insert (mem : historyMap) u l :
  bounded mem -> (length l <= 20)%nat -> bounded (<[u := l]> mem).
Proof.
  intros Hb Hl u' l'. rewrite lookup_insert. case_decide.
  - intros [= <-]. exact Hl.
  - apply Hb.
Qed.

Lemma addToHistory_bounded cfg mem u m r :
  bounded mem -> always bounded (addToHistory cfg mem u m r).
Proof.
  intros Hb. unfold addToHistory. unmonad. cbn [always bind]. intros t1 t2.
  pose proof (bounded_insert mem u _ Hb
                (pushHistory_length (default [] (mem !! u)) m r t1 t2)) as H.
  destruct (negb (supabase cfg)); [cbn [always bind]; auto|].
  destruct (negb (isValidUUID u)); [exact H|].
  cbn [always bind]. intros []; cbn [always bind]; auto.
Qed.

Lemma handler_bounded cfg mem req :
  bounded mem -> always (fun r => bounded r.2) (handler cfg mem req).
Proof.
  intros Hb. unfold handler, readJson. cbn [andb fst snd].
  destruct (negb (eqb _ _)); [exact Hb|].
  destruct (negb (GEMINI_API_KEY cfg)); [exact Hb|].
  destruct (trim _); [exact Hb|].
  destruct (negb (safe _)); [unmonad; cbn [always bind]; auto|].
  unfold turn. unmonad.
  apply always_bind, always_trivial. intros h.
  apply always_bind, always_trivial. intros result.
  apply always_bind.
  eapply always_mono; [|apply addToHistory_bounded, Hb].
  intros mem' Hb'. destruct (reply result); cbn [always bind]; auto.
Qed.

Lemma serve_bounded cfg reqs : forall mem,
  bounded mem -> always (fun r => bounded r.2) (serve cfg mem reqs).
Proof.
  induction reqs as [|req reqs IH]; intros mem Hb; [exact Hb|].
  cbn [serve]. unmonad. apply always_bind.
  eapply always_mono; [|apply handler_bounded, Hb].
  intros [res mem1] Hb1. apply always_bind.
  eapply always_mono; [|apply IH, Hb1].
  intros [rest mem2] Hb2. exact Hb2.
Qed.

Lemma insertBy_length {A} (before : A -> A -> bool) x l :
  length (insertBy before x l) = S (length l).
Proof.
  induction l as [|y l IH]; simpl; [reflexivity|].
  destruct (before x y); simpl; [reflexivity|now rewrite IH].
Qed.

Lemma sortBy_length {A} (before : A -> A -> bool) l :
  length (sortBy before l) = length l.
Proof.
  unfold sortBy. induction l as [|x l IH]; [reflexivity|].
  cbn [foldr]. now rewrite insertBy_length, IH.
Qed.

(** C3, against storage. Eleven turns of a canonical user on a working
    datastore leave twenty-two rows of that user in
    [conversation_memory]: nothing trims the table. *)
Lemma stored_history_exceeds_twenty :
  let r := run store (serve live ∅ (replicate 11 (post (Some alice) "hello")))
             (kitchen (says "Hi!" [])) in
  isValidUUID alice = true
  /\ length (storedHistory r.2 alice) = 22%nat
  /\ length (default [] (r.1.2.2 !! alice)) = 20%nat.
Proof. vm_compute. auto. Qed.

(** C3, as amended. After any number of requests served by a process that
    started with an empty map, every list of the in-process map has at
    most twenty entries. In storage rows are only added: a history insert
    appends its rows to the table and keeps all the others; only the read
    is limited, to twenty rows. *)
Theorem history_bounds :
  (forall cfg reqs tr res,
     runs (serve cfg ∅ reqs) tr res ->
     forall u l, res.2 !! u = Some l -> (length l <= 20)%nat)
  /\ (forall w rows,
        exists added,
          conversation_memory (insertHistory w rows)
          = conversation_memory w ++ added
          /\ length added = length rows)
  /\ (forall w u, (length (selectHistory w u) <= 20)%nat).
Proof.
  repeat split.
  - intros cfg reqs tr res R.
    revert R. apply (always_runs (fun r => bounded r.2)).
    apply serve_bounded. intros u l. rewrite lookup_empty. discriminate.
  - intros w rows. eexists. split; [reflexivity|]. now rewrite length_map.
  - intros w u. unfold selectHistory.
    rewrite length_map, length_take. lia.
Qed.

(* ===================================================================== *)
(** * The fallback for reference images                                   *)
(* ===================================================================== *)

Lemma fallbackQuery_spec message memory :
  fallbackQuery message memory <> []
  /\ (strippedQuery message <> [] ->
      fallbackQuery message memory = strippedQuery message)
  /\ (strippedQuery message = [] ->
      fallbackQuery message memory = lit "biryani"
      \/ exists m content,
           last memory = Some m /\ memory_content m = Some content
           /\ fallbackQuery message memory = trim (firstSegment content)).
Proof.
  unfold fallbackQuery.
  destruct (strippedQuery message) as [|x q] eqn:E.
  2:{ split; [discriminate|]. split; [reflexivity|discriminate]. }
  assert (forall P : Prop, lit "biryani" <> []
            /\ (@nil N <> [] -> lit "biryani" = [])
            /\ ([] = @nil N -> lit "biryani" = lit "biryani" \/ P)) as Hdish.
  { intros P. split; [discriminate|]. split; [congruence|now left]. }
  destruct (last memory) as [m|] eqn:El; cbn [mbind option_bind];
    [|apply Hdish].
  destruct (memory_content m) as [[|c content]|] eqn:Ec; cbn [orElse];
    [apply Hdish| |apply Hdish].
  destruct (trim (firstSegment (c :: content))) as [|y q'] eqn:Et;
    [apply Hdish|].
  split; [discriminate|]. split; [congruence|]. intros _. right.
  exists m, (c :: content). auto.
Qed.



(* ===================================================================== *)
(** * The saved recipe in the prompt context                              *)
(* ===================================================================== *)

Lemma startsWith_app p s : startsWith (p ++ s) p = true.
Proof.
  induction p as [|c p IH]; [now destruct s|].
  cbn [app startsWith]. now rewrite N.eqb_refl, IH.
Qed.

Lemma includes_here p s : includes (p ++ s) p = true.
Proof.
  destruct (p ++ s) eqn:E; cbn [includes]; rewrite <- E, startsWith_app;
    reflexivity.
Qed.

Lemma includes_app_r a b p : includes b p = true -> includes (a ++ b) p = true.
Proof.
  intros H. induction a as [|x a IH]; [exact H|].
  cbn [app includes]. rewrite IH. apply orb_true_r.
Qed.

Lemma includes_mid a p b : includes (a ++ p ++ b) p = true.
Proof. apply includes_app_r, includes_here. Qed.

Lemma startsWith_app_l a b p :
  startsWith a p = true -> startsWith (a ++ b) p = true.
Proof.
  revert a. induction p as [|c p IH]; intros [|x a] H; try discriminate.
  - now destruct b.
  - reflexivity.
  - cbn [app startsWith] in *. apply andb_prop in H as [-> H].
    now rewrite IH.
Qed.

Lemma includes_app_l a b p : includes a p = true -> includes (a ++ b) p = true.
Proof.
  induction a as [|x a IH]; intros H.
  - destruct p as [|c p]; [now destruct b|discriminate].
  - cbn [includes] in H. apply orb_prop in H as [H|H].
    + apply (startsWith_app_l _ b) in H. cbn [app includes] in *.
      now rewrite H.
    + cbn [app includes]. rewrite (IH H). apply orb_true_r.
Qed.

Lemma includes_concat (l : list str) x :
  x ∈ l -> includes (concat l) x = true.
Proof.
  induction 1 as [x l|x y l Hin IH]; cbn [concat].
  - apply includes_here.
  - now apply includes_app_r.
Qed.

(** The newest row comes first when the others are strictly older. *)
Lemma newest_first (rows : list recipeRecord) (new : recipeRecord) :
  Forall (fun r => (sr_created_at r < sr_created_at new)%Z) rows ->
  exists rest,
    sortBy (fun x y => (sr_created_at y <=? sr_created_at x)%Z) (rows ++ [new])
    = new :: rest.
Proof.
  unfold sortBy. induction 1 as [|r rows Hr Hrows IH].
  - exists []. reflexivity.
  - destruct IH as (rest & IH). cbn [app foldr]. rewrite IH.
    cbn [insertBy].
    assert ((sr_created_at new <=? sr_created_at r)%Z = false) as ->
      by (apply Z.leb_gt; exact Hr).
    eauto.
Qed.

Lemma selectRecipes_after_insert (w : world) (u : str) row t :
  ri_user_id row = u ->
  (forall old, old ∈ saved_recipes w -> ri_user_id (sr_row old) = u ->
               (sr_created_at old < time w)%Z) ->
  exists rest,
    selectRecipes (atTime (insertRecipe w row) t) u true
    = {| r_title := ri_title row;
         r_difficulty := Some (ri_difficulty row);
         r_prep_time := ri_prep_time row;
         r_cook_time := ri_cook_time row;
         r_created_at := time w;
         recipe_data := Some (ri_recipe_data row) |} :: rest.
Proof.
  intros Hu Hold. unfold selectRecipes.
  cbn [atTime insertRecipe withRecipes saved_recipes].
  rewrite List.filter_app. cbn [List.filter sr_row].
  assert (eqb (ri_user_id row) u = true) as ->
    by (unfold eqb; now apply bool_decide_eq_true).
  destruct (newest_first
              (List.filter (fun r => eqb (ri_user_id (sr_row r)) u)
                 (saved_recipes w))
              {| sr_row := row; sr_created_at := time w |}) as (rest & E).
  { apply Forall_forall. intros old Hin.
    apply list_elem_of_In, filter_In in Hin as [Hin Hf].
    cbn [sr_created_at]. apply Hold; [now apply list_elem_of_In|].
    unfold eqb in Hf. now apply bool_decide_eq_true in Hf. }
  rewrite E. cbn [take List.map asSavedRecipe sr_row sr_created_at]. eauto.
Qed.

Lemma ingredientsBlock_line recipe l i ing :
  ingredients recipe = Some l -> l !! i = Some ing -> (i < 10)%nat ->
  includes (ingredientsBlock recipe) (ingredientLine i ing) = true.
Proof.
  intros Hl Hi Hlt. unfold ingredientsBlock. rewrite Hl.
  destruct l as [|i0 l]; [discriminate|].
  do 3 apply includes_app_r. apply includes_concat.
  apply list_elem_of_lookup. exists i.
  rewrite list_lookup_imap, lookup_take_lt, Hi by assumption. reflexivity.
Qed.

Lemma stepsBlock_line recipe l st :
  steps recipe = Some l -> st ∈ take 5 l ->
  includes (stepsBlock recipe) (stepLine st) = true.
Proof.
  intros Hl Hin. unfold stepsBlock. rewrite Hl.
  destruct l as [|s0 l]; [now apply elem_of_nil in Hin|].
  do 3 apply includes_app_r. apply includes_app_l, includes_concat.
  apply list_elem_of_fmap. eauto.
Qed.

(** The detail of the recipe is in the guidance text when the first row is
    fresh. *)
Lemma guidance_has_details (r : savedRecipe) rest recipe now p :
  recipe_data r = Some recipe ->
  (now - r_created_at r < recencyWindow)%Z ->
  includes (ingredientsBlock recipe) p = true
  \/ includes (stepsBlock recipe) p = true ->
  includes (recipeGuidanceContext (r :: rest) now) p = true.
Proof.
  intros Hd Hfresh Hp. unfold recipeGuidanceContext.
  apply Z.ltb_lt in Hfresh. rewrite Hfresh, Hd.
  do 5 apply includes_app_r.
  unfold recipeDetails.
  do 7 apply includes_app_r.
  destruct Hp as [Hp|Hp].
  - now apply includes_app_l.
  - now apply includes_app_r, includes_app_l.
Qed.

Lemma contextPrompt_has_guidance preferences memory h guidance message p :
  includes guidance p = true ->
  includes (contextPrompt preferences memory h guidance message) p = true.
Proof.
  intros H. unfold contextPrompt.
  do 7 apply includes_app_r. now apply includes_app_l.
Qed.

(** C7, against the full detail. A recipe of six steps, saved for a
    canonical user one second before the turn: the prompt of the turn
    holds the fifth step and not the sixth. *)
Lemma sixth_step_not_in_context :
  let saved := run store (saveRecipe live alice dal) (kitchen (says "Ok" [])) in
  let next :=
    run store
      (processWithAgent live alice (lit "guide me through this recipe") [])
      (atTime saved.2 2000) in
  saved.1.2 = true
  /\ (2000 - 1000 < recencyWindow)%Z
  /\ exists prompt,
       agentPrompts next.1.1 = [prompt]
       /\ includes prompt (lit "Season with salt") = true
       /\ includes prompt (lit "Garnish with coriander") = false.
Proof.
  vm_compute. split; [|split]; [reflexivity..|].
  eexists. split; [reflexivity|]. vm_compute. auto.
Qed.

(** The same turn after a recipe saved in the shape of the tool schema,
    with plain strings: the lines of the context print [undefined] and the
    ingredient is not there. *)
Lemma tool_saved_recipe_prints_undefined :
  let saved := run store (saveRecipe live alice toast)
                 (kitchen (says "Ok" [])) in
  let next :=
    run store
      (processWithAgent live alice (lit "guide me through this recipe") [])
      (atTime saved.2 2000) in
  exists prompt,
    agentPrompts next.1.1 = [prompt]
    /\ includes prompt (lit "1. undefined undefined") = true
    /\ includes prompt (lit "sourdough") = false.
Proof.
  vm_compute. eexists. split; [reflexivity|]. vm_compute. auto.
Qed.

(** The lines of a fresh recipe in the prompt of the next turn, as
    [ingredientLine] and [stepLine] print them. *)
Lemma fresh_recipe_lines_in_prompt
    (cfg : config) (w : world) (u message : str) (h : list entry)
    (row : recipeInsert) (t : Z) :
  supabase cfg = true -> isValidUUID u = true ->
  checkCookingIntent message = None ->
  ri_user_id row = u ->
  (forall old, old ∈ saved_recipes w -> ri_user_id (sr_row old) = u ->
               (sr_created_at old < time w)%Z) ->
  (t - time w < recencyWindow)%Z ->
  let next := run store (processWithAgent cfg u message h)
                (atTime (insertRecipe w row) t) in
  exists prompt,
    head (agentPrompts next.1.1) = Some prompt
    /\ (forall l i ing,
          ingredients (ri_recipe_data row) = Some l -> l !! i = Some ing ->
          (i < 10)%nat ->
          includes prompt (ingredientLine i ing) = true)
    /\ (forall l st,
          steps (ri_recipe_data row) = Some l -> st ∈ take 5 l ->
          includes prompt (stepLine st) = true).
Proof.
  intros Hs Hu Hc Hrow Hold Hfresh next. subst next.
  destruct (selectRecipes_after_insert w u row t Hrow Hold) as (rest & E).
  unfold processWithAgent. rewrite Hc.
  unfold getUserPreferences, getUserMemory, getUserRecipes.
  rewrite Hs, Hu. unmonad.
  cbn [negb bind run store ok fst snd default from_option id].
  rewrite E. unfold readRecipeGuidance. unmonad.
  cbn [negb bind run store ok fst snd default from_option id atTime time
         insertRecipe withRecipes model].
  match goal with
  | |- context [run store ?k ?w'] => destruct (run store k w') as [[tr a] w2]
  end.
  cbn [fst snd agentPrompts omap head].
  eexists. split; [reflexivity|]. split.
  - intros l i ing Hl Hi Hlt.
    apply contextPrompt_has_guidance.
    eapply guidance_has_details; [reflexivity|exact Hfresh|].
    left. eapply ingredientsBlock_line; eauto.
  - intros l st Hl Hin.
    apply contextPrompt_has_guidance.
    eapply guidance_has_details; [reflexivity|exact Hfresh|].
    right. eapply stepsBlock_line; eauto.
Qed.

(** C7, as amended. On a working datastore, for a canonical user and a
    message that passes the metaphor guardrail. [saveRecipe] stores the
    recipe by one insert into [saved_recipes]. After such an insert of a
    row of the user with the recipe [r] (that of [saveRecipe], or that of
    the URL-learning endpoint), newer than the user's other recipes, a
    turn that reads the clock less than five minutes after the save sends
    the model a prompt that holds: for each of the first ten ingredients
    that is an object with an amount and a name, the line with its number,
    amount, name and notes; for each of the first five steps that is an
    object with a number and an instruction, the line with both. *)
Theorem saved_recipe_round_trip
    (cfg : config) (w : world) (u message : str) (h : list entry)
    (r : recipeData) (row : recipeInsert) (t : Z) :
  supabase cfg = true -> isValidUUID u = true ->
  checkCookingIntent message = None ->
  ri_user_id row = u -> ri_recipe_data row = r ->
  (forall old, old ∈ saved_recipes w -> ri_user_id (sr_row old) = u ->
               (sr_created_at old < time w)%Z) ->
  (t - time w < recencyWindow)%Z ->
  let next := run store (processWithAgent cfg u message h)
                (atTime (insertRecipe w row) t) in
  (run store (saveRecipe cfg u r) w
   = ([Occ (InsertRecipe (recipeRow u r)) (ok tt)], true,
      insertRecipe w (recipeRow u r))
   /\ ri_user_id (recipeRow u r) = u
   /\ ri_recipe_data (recipeRow u r) = r)
  /\ exists prompt,
       head (agentPrompts next.1.1) = Some prompt
       /\ (forall l i amount name notes,
             ingredients r = Some l ->
             l !! i = Some (IngItem (Some amount) (Some name) notes) ->
             (i < 10)%nat ->
             includes prompt
               ([10] ++ ofN (N.of_nat (i + 1)) ++ lit ". " ++ amount
                ++ lit " " ++ name
                ++ match notes with
                   | Some (x :: s) => lit " (" ++ (x :: s) ++ lit ")"
                   | _ => []
                   end) = true)
       /\ (forall l number instruction,
             steps r = Some l ->
             StepItem (Some number) (Some instruction) ∈ take 5 l ->
             includes prompt
               ([10] ++ ofN number ++ lit ". " ++ instruction) = true).
Proof.
  intros Hs Hu Hc Hrow Hr Hold Hfresh next. split.
  { unfold saveRecipe. rewrite Hs. unmonad.
    cbn [negb bind run store ok fst snd]. repeat split. }
  destruct (fresh_recipe_lines_in_prompt cfg w u message h row t
              Hs Hu Hc Hrow Hold Hfresh) as (prompt & Hp & Hi & Hst).
  rewrite Hr in Hi, Hst. exists prompt. split; [exact Hp|]. split.
  - intros l i amount name notes Hl Hin Hlt.
    exact (Hi l i (IngItem (Some amount) (Some name) notes) Hl Hin Hlt).
  - intros l number instruction Hl Hin.
    exact (Hst l (StepItem (Some number) (Some instruction)) Hl Hin).
Qed.

(** C5, against the second half. The history ends on fried rice, so any
    reply counts as a continuation; the user asks for calories, and the
    nutrition analysis is called all the same. *)
Lemma explicit_request_overrides_continuation :
  let r :=
    run store
      (processWithAgent live alice (lit "How many calories is that")
         friedRiceTalk)
      (kitchen (says "About 400 per serving." [])) in
  hasRecentRecipe friedRiceTalk = true
  /\ isNewRecipeSuggestion (lit "About 400 per serving.") friedRiceTalk = false
  /\ count (@isNutritionCall) r.1.1 = 1%nat
  /\ nutrition r.1.2 = Some (NutritionParsed JsonTruthy).
Proof. vm_compute. auto. Qed.

(* ===================================================================== *)
(** * The theorems at concrete inputs                                     *)
(* ===================================================================== *)

Lemma banned_input_rejected_before_model_witness :
  let req := post None "how to make poison at home" in
  let text := lit "how to make poison at home" in
  let pattern :=
    alts [w "poison"; w "toxic"; gap (w "dangerous") (w "substance");
          gap (w "harmful") (w "chemical")] in
  (method req = lit "POST" /\ GEMINI_API_KEY live = true
   /\ req_text req = Some text
   /\ pattern ∈ HARMFUL_PATTERNS ++ COOKING_SAFETY_PATTERNS
   /\ test true pattern text = true)
  /\ safe (validateInput text) = false
  /\ (reason (validateInput text) = Some (lit "Contains harmful content")
      \/ reason (validateInput text) = Some (lit "Unsafe cooking practice"))
  /\ handler live ∅ req
     = Vis (ConsoleWarn (lit "Safety violation detected:"))
         (fun _ => Ret (blocked text, ∅))
  /\ forall tr res,
       runs (handler live ∅ req) tr res ->
       res = (blocked text, ∅)
       /\ count (@isModelCall) tr = 0%nat
       /\ count (@isWrite) tr = 0%nat.
Proof.
  intros req text pattern.
  assert (pattern ∈ HARMFUL_PATTERNS ++ COOKING_SAFETY_PATTERNS) as Hin.
  { apply list_elem_of_In. right. left. reflexivity. }
  assert (test true pattern text = true) as Ht by (vm_compute; reflexivity).
  split; [given|].
  exact (banned_input_rejected_before_model live ∅ req text pattern
           eq_refl eq_refl eq_refl Hin Ht).
Defined.

Lemma empty_text_short_circuit_witness :
  let req := post (Some alice) "  " in
  (method req = lit "POST" /\ GEMINI_API_KEY live = true
   /\ trim (default [] (req_text req)) = [])
  /\ handler live ∅ req = Ret ({| status := 200; body := BodyReply [] |}, ∅)
  /\ forall tr res,
       runs (handler live ∅ req) tr res ->
       tr = [] /\ res = ({| status := 200; body := BodyReply [] |}, ∅).
Proof.
  intros req.
  assert (trim (default [] (req_text req)) = []) as Ht
    by (vm_compute; reflexivity).
  split; [given|].
  exact (empty_text_short_circuit live ∅ req eq_refl eq_refl Ht).
Defined.

Lemma unknown_tool_yields_error_entry_witness :
  ([strangeCall] !! 0%nat = Some strangeCall
   /\ declared strangeCall = false
   /\ runs (turnActions live guest (lit "hello") [] [strangeCall]) []
        [unknownFunction])
  /\ executeFunctionCall live guest strangeCall = Ret unknownFunction
  /\ length [unknownFunction] = length [strangeCall]
  /\ [unknownFunction] !! 0%nat = Some unknownFunction.
Proof.
  assert (declared strangeCall = false) as Hd by (vm_compute; reflexivity).
  assert (runs (turnActions live guest (lit "hello") [] [strangeCall]) []
            [unknownFunction]) as R.
  { unfold turnActions. cbn [forEach]. unmonad.
    rewrite (executeFunctionCall_unknown live guest strangeCall Hd).
    cbn [bind]. constructor. }
  split; [given|].
  exact (unknown_tool_yields_error_entry live guest (lit "hello") []
           [strangeCall] 0 strangeCall [] [unknownFunction] eq_refl Hd R).
Defined.


Lemma saved_recipe_round_trip_witness :
  let w := kitchen (says "Ok" []) in
  let message := lit "guide me through this recipe" in
  let next := run store (processWithAgent live alice message [])
                (atTime (insertRecipe w learnedRow) 2000) in
  (supabase live = true /\ isValidUUID alice = true
   /\ checkCookingIntent message = None
   /\ ri_user_id learnedRow = alice /\ ri_recipe_data learnedRow = dal
   /\ (forall old, old ∈ saved_recipes w -> ri_user_id (sr_row old) = alice ->
                   (sr_created_at old < time w)%Z)
   /\ (2000 - time w < recencyWindow)%Z)
  /\ (run store (saveRecipe live alice dal) w
      = ([Occ (InsertRecipe (recipeRow alice dal)) (ok tt)], true,
         insertRecipe w (recipeRow alice dal))
      /\ ri_user_id (recipeRow alice dal) = alice
      /\ ri_recipe_data (recipeRow alice dal) = dal)
  /\ exists prompt,
       head (agentPrompts next.1.1) = Some prompt
       /\ (forall l i amount name notes,
             ingredients dal = Some l ->
             l !! i = Some (IngItem (Some amount) (Some name) notes) ->
             (i < 10)%nat ->
             includes prompt
               ([10] ++ ofN (N.of_nat (i + 1)) ++ lit ". " ++ amount
                ++ lit " " ++ name
                ++ match notes with
                   | Some (x :: s) => lit " (" ++ (x :: s) ++ lit ")"
                   | _ => []
                   end) = true)
       /\ (forall l number instruction,
             steps dal = Some l ->
             StepItem (Some number) (Some instruction) ∈ take 5 l ->
             includes prompt
               ([10] ++ ofN number ++ lit ". " ++ instruction) = true).
Proof.
  intros w message next.
  assert (isValidUUID alice = true) as Hu by (vm_compute; reflexivity).
  assert (checkCookingIntent message = None) as Hc
    by (vm_compute; reflexivity).
  assert (forall old, old ∈ saved_recipes w ->
                      ri_user_id (sr_row old) = alice ->
                      (sr_created_at old < time w)%Z) as Hold.
  { intros old Hin. apply elem_of_nil in Hin. contradiction. }
  assert (2000 - time w < recencyWindow)%Z as Hf by (vm_compute; reflexivity).
  assert (ri_user_id learnedRow = alice) as Hrow
    by (cbv [learnedRow ri_user_id]; reflexivity).
  assert (ri_recipe_data learnedRow = dal) as Hdata
    by (cbv [learnedRow ri_recipe_data]; reflexivity).
  split; [given|].
  exact (saved_recipe_round_trip live w alice message [] dal learnedRow 2000
           eq_refl Hu Hc Hrow Hdata Hold Hf).
Defined.

(* ===================================================================== *)
(** * More on the input gate and the handler                              *)
(* ===================================================================== *)

Lemma existsb_none {A} (f : A -> bool) l :
  existsb f l = false <-> forall x, x ∈ l -> f x = false.
Proof.
  split.
  - intros H x Hin. destruct (f x) eqn:E; [|reflexivity].
    assert (existsb f l = true) as E'
      by (apply existsb_exists; exists x; split;
          [now apply list_elem_of_In|exact E]).
    congruence.
  - intros H. destruct (existsb f l) eqn:E; [|reflexivity].
    apply existsb_exists in E as (x & Hin & Hx).
    apply list_elem_of_In in Hin. rewrite (H x Hin) in Hx. discriminate.
Qed.

Lemma gate_passes (hs cs : list regex) (text : str)
    (r1 r2 : str) (c1 c2 : option str) :
  let v :=
    if existsb (fun pattern => test true pattern text) hs
    then {| safe := false; reason := Some r1; category := c1 |}
    else if existsb (fun pattern => test true pattern text) cs
    then {| safe := false; reason := Some r2; category := c2 |}
    else {| safe := true; reason := None; category := None |} in
  safe v = true <->
  forall pattern, pattern ∈ hs ++ cs -> test true pattern text = false.
Proof.
  cbv zeta.
  destruct (existsb (fun p => test true p text) hs) eqn:Hh.
  - split; [discriminate|]. intros H.
    apply existsb_exists in Hh as (p & Hin & Hp).
    rewrite (H p) in Hp; [discriminate|].
    apply elem_of_app. left. now apply list_elem_of_In.
  - destruct (existsb (fun p => test true p text) cs) eqn:Hc.
    + split; [discriminate|]. intros H.
      apply existsb_exists in Hc as (p & Hin & Hp).
      rewrite (H p) in Hp; [discriminate|].
      apply elem_of_app. right. now apply list_elem_of_In.
    + split; [|reflexivity]. intros _ p Hin.
      apply elem_of_app in Hin as [Hin|Hin].
      * exact (proj1 (existsb_none _ _) Hh p Hin).
      * exact (proj1 (existsb_none _ _) Hc p Hin).
Qed.

(** The gate lets a text through exactly when it is not empty and none of
    the fifteen patterns matches it anywhere. *)
Theorem gate_verdict (text : str) :
  safe (validateInput text) = true <->
  text <> []
  /\ forall pattern,
       pattern ∈ HARMFUL_PATTERNS ++ COOKING_SAFETY_PATTERNS ->
       test true pattern text = false.
Proof.
  destruct text as [|x text].
  - split; [discriminate|]. intros [H ?]. exfalso. now apply H.
  - pose proof (gate_passes HARMFUL_PATTERNS COOKING_SAFETY_PATTERNS
                  (x :: text) (lit "Contains harmful content")
                  (lit "Unsafe cooking practice") (Some (lit "harmful"))
                  (Some (lit "unsafe_cooking"))) as G.
    cbv zeta in G. split.
    + intros H. split; [discriminate|]. exact (proj1 G H).
    + intros [_ H]. exact (proj2 G H).
Qed.

Lemma handler_past_gate cfg mem req text :
  method req = lit "POST" ->
  GEMINI_API_KEY cfg = true ->
  req_text req = Some text ->
  trim text <> [] ->
  safe (validateInput text) = true ->
  handler cfg mem req
  = turn cfg mem req (default (lit "web") (user_id req)) text.
Proof.
  intros Hm Hk Ht Hne Hs. unfold handler, readJson. cbn [andb fst snd]. rewrite Hm, Hk, Ht. simpl default.
  replace (eqb (lit "POST") (lit "POST")) with true by reflexivity.
  simpl negb. cbv iota.
  destruct (trim text) as [|c r] eqn:E; [contradiction|].
  rewrite Hs. reflexivity.
Qed.

(** What the [catch] block of the handler finds when it reads the request
    again: the text of a body the platform parsed, nothing of a stream. *)
Lemma readJson_again req text :
  req_text req = Some text ->
  default [] (readJson req true).2 = if streamed req then [] else text.
Proof.
  intros Ht. unfold readJson. cbn [andb].
  destruct (streamed req); cbn [snd default]; [reflexivity|].
  now rewrite Ht.
Qed.

(** Once a request is past the gate, it is answered with status 200 and a
    reply, whatever the datastore, the model and [JSON.parse] answer:
    errors and exceptions of the collaborators never surface as an error
    status. The reply is that of the turn or the fallback reply of the
    [catch] block, which is chosen by the text of the request when the
    platform parsed the body, and is the generic one when the body was a
    stream. *)
Theorem gated_in_request_is_answered
    (cfg : config) (mem : historyMap) (req : request) (text : str) tr res :
  method req = lit "POST" ->
  GEMINI_API_KEY cfg = true ->
  req_text req = Some text ->
  trim text <> [] ->
  safe (validateInput text) = true ->
  runs (handler cfg mem req) tr res ->
  status res.1 = 200
  /\ ((exists reply actions nutrition,
         body res.1 = BodyTurn reply actions nutrition)
      \/ body res.1
         = BodyReply (fallbackReply (if streamed req then [] else text))).
Proof.
  intros Hm Hk Ht Hne Hs.
  rewrite (handler_past_gate cfg mem req text Hm Hk Ht Hne Hs).
  apply (always_runs
           (fun res => status res.1 = 200
              /\ ((exists reply actions nutrition,
                     body res.1 = BodyTurn reply actions nutrition)
                  \/ body res.1
                     = BodyReply
                         (fallbackReply
                            (if streamed req then [] else text))))).
  unfold turn. unmonad.
  apply always_bind, always_trivial. intros h.
  apply always_bind, always_trivial. intros result.
  apply always_bind, always_trivial. intros mem'.
  destruct (reply result) as [r|]; cbn [always bind fst status body].
  - split; [reflexivity|]. left. eauto.
  - intros _. split; [reflexivity|]. right.
    now rewrite (readJson_again req text Ht).
Qed.

(* ===================================================================== *)
(** * More on the history writer                                          *)
(* ===================================================================== *)

(** The in-memory history after a turn is the last twenty entries of the
    old history followed by the turn: the two new entries are always kept,
    at the end, and what precedes them is the end of the old history. *)
Theorem pushHistory_keeps_latest
    (history : list entry) (userMessage : str) (botResponse : option str)
    (t1 t2 : Z) :
  pushHistory history userMessage botResponse t1 t2
  = lastN 20 (history ++ turnEntries userMessage botResponse t1 t2)
  /\ exists older,
       pushHistory history userMessage botResponse t1 t2
       = older ++ turnEntries userMessage botResponse t1 t2
       /\ older `suffix_of` history
       /\ (length older <= 18)%nat.
Proof.
  unfold pushHistory, lastN. fold (turnEntries userMessage botResponse t1 t2).
  set (new := turnEntries userMessage botResponse t1 t2).
  assert (length new = 2%nat) as Hn by reflexivity.
  destruct (20 <? length (history ++ new))%nat eqn:E.
  - apply Nat.ltb_lt in E. rewrite length_app, Hn in *. split; [reflexivity|].
    exists (drop (length history + 2 - 20) history). split; [|split].
    + rewrite drop_app_le by lia. reflexivity.
    + apply suffix_drop.
    + rewrite length_drop. lia.
  - apply Nat.ltb_ge in E. rewrite length_app, Hn in *. split.
    + replace (length history + 2 - 20)%nat with 0%nat by lia. reflexivity.
    + exists history. split; [reflexivity|]. split; [reflexivity|]. lia.
Qed.

Lemma addToHistory_result cfg mem u m r :
  always
    (fun mem' =>
       exists t1 t2,
         mem' = <[u := pushHistory (default [] (mem !! u)) m r t1 t2]> mem)
    (addToHistory cfg mem u m r).
Proof.
  unfold addToHistory. unmonad. cbn [always bind]. intros t1 t2.
  destruct (negb (supabase cfg)); [cbn [always bind]; eauto|].
  destruct (negb (isValidUUID u)); [cbn [always]; eauto|].
  cbn [always bind]. intros []; cbn [always bind]; eauto.
Qed.

Lemma getConversationHistory_in_memory cfg mem u :
  supabase cfg = false \/ isValidUUID u = false ->
  traced (fun tr h => h = default [] (mem !! u)
                      /\ count (@isDatastoreCall) tr = 0%nat)
    (getConversationHistory cfg mem u).
Proof.
  intros H. unfold getConversationHistory. unmonad.
  destruct (supabase cfg) eqn:Hs; cbn [negb].
  - destruct H as [H|H]; [discriminate|]. rewrite H. cbn [negb traced].
    split; reflexivity.
  - cbn [traced bind]. intros ?. split; reflexivity.
Qed.

(** The in-process map as a store: for a guest (an id that is not
    canonical) or without a datastore client, the turn written by
    [addToHistory] is what [getConversationHistory] reads next, without any
    datastore call; and writing the history of one user leaves the
    histories of all the others as they were. *)
Theorem in_memory_history_round_trip
    (cfg : config) (mem : historyMap) (u userMessage : str)
    (botResponse : option str) tr mem' :
  runs (addToHistory cfg mem u userMessage botResponse) tr mem' ->
  (forall u', u' <> u -> mem' !! u' = mem !! u')
  /\ exists t1 t2,
       mem' !! u
       = Some (pushHistory (default [] (mem !! u)) userMessage botResponse
                 t1 t2)
       /\ (supabase cfg = false \/ isValidUUID u = false ->
           forall tr' h,
             runs (getConversationHistory cfg mem' u) tr' h ->
             h = pushHistory (default [] (mem !! u)) userMessage botResponse
                   t1 t2
             /\ count (@isDatastoreCall) tr' = 0%nat).
Proof.
  intros R.
  apply (always_runs _ _ _ _ (addToHistory_result cfg mem u userMessage
                                botResponse)) in R as (t1 & t2 & ->).
  split.
  - intros u' Hne. apply lookup_insert_ne. congruence.
  - exists t1, t2. split; [apply lookup_insert_eq|].
    intros Hg tr' h R'.
    apply (traced_runs _ _ _ _ (getConversationHistory_in_memory cfg _ u Hg))
      in R' as [-> Hc].
    rewrite lookup_insert_eq. auto.
Qed.

(* ===================================================================== *)
(** * Which calls a turn can make                                         *)
(* ===================================================================== *)

Lemma isDatastoreCall_storeOnly : storeOnly (@isDatastoreCall).
Proof. repeat split. Qed.

Lemma isWrite_storeOnly : storeOnly (@isWrite).
Proof. repeat split. Qed.

Lemma quiet_bind {A B} P (m : prog A) (f : A -> prog B) n :
  atMost P 0 m -> (forall a, atMost P n (f a)) -> atMost P n (bind m f).
Proof.
  intros Hm Hf. apply (atMost_bind _ 0 n); [exact Hm|].
  now apply always_trivial.
Qed.

Section StoreOnly.
Variable P : forall X : Type, event X -> bool.
Hypothesis HP : storeOnly P.

Lemma failAgent_calm : atMost P 0 failAgent.
Proof using HP.
  destruct HP as (HN & HW & HE & HG & HJ).
  unfold failAgent. calm HN HW HE HG HJ.
Qed.

Lemma usageCheck_calm r : atMost P 0 (usageCheck r).
Proof using HP.
  destruct HP as (HN & HW & HE & HG & HJ).
  unfold usageCheck. calm HN HW HE HG HJ.
Qed.

Lemma finishReasonCheck_calm r : atMost P 0 (finishReasonCheck r).
Proof using HP.
  destruct HP as (HN & HW & HE & HG & HJ).
  unfold finishReasonCheck. calm HN HW HE HG HJ.
Qed.

Lemma extractFunctionCalls_calm r : atMost P 0 (extractFunctionCalls r).
Proof using HP.
  destruct HP as (HN & HW & HE & HG & HJ).
  unfold extractFunctionCalls. calm HN HW HE HG HJ.
Qed.

Lemma readRecipeGuidance_calm l : atMost P 0 (readRecipeGuidance l).
Proof using HP.
  destruct HP as (HN & HW & HE & HG & HJ).
  unfold readRecipeGuidance. calm HN HW HE HG HJ.
Qed.

Lemma maybeNutrition_calm m r h : atMost P 0 (maybeNutrition m r h).
Proof using HP.
  destruct HP as (HN & HW & HE & HG & HJ).
  unfold maybeNutrition, analyzeNutrition. calm HN HW HE HG HJ.
Qed.

(** The store calls of the agent are those of its three reads and of its
    tool calls. *)
Lemma processWithAgent_store_calls cfg u message h n :
  atMost P 0 (getUserPreferences cfg u) ->
  atMost P 0 (getUserMemory cfg u None) ->
  atMost P 0 (getUserRecipes cfg u true) ->
  (forall memory calls, atMost P n (turnActions cfg u message memory calls)) ->
  atMost P n (processWithAgent cfg u message h).
Proof using HP.
  intros H1 H2 H3 H4.
  assert (forall m : prog agentResult, atMost P 0 m -> atMost P n m)
    as up by (intros m; apply atMost_mono; lia).
  unfold processWithAgent. destruct (checkCookingIntent message); [exact I|].
  unmonad.
  apply quiet_bind; [exact H1|]. intros prefs.
  apply quiet_bind; [exact H2|]. intros memory.
  apply quiet_bind; [exact H3|]. intros recipes.
  apply quiet_bind; [apply readRecipeGuidance_calm|]. intros guidance.
  pose proof HP as (HN & HW & HE & HG & HJ).
  cbn [atMost bind]. rewrite HG. intros [|response].
  { apply up, failAgent_calm. }
  apply quiet_bind; [apply usageCheck_calm|]. intros ?.
  assert (atMost P n (interpretResponse cfg u message h memory response))
    as Hi.
  { unfold interpretResponse. unmonad.
    apply quiet_bind; [apply finishReasonCheck_calm|]. intros ?.
    destruct (text response) as [reply|]; [|apply up, failAgent_calm].
    apply quiet_bind; [apply extractFunctionCalls_calm|]. intros calls.
    replace n with (n + 0)%nat by lia.
    apply atMost_bind; [apply H4|]. apply always_trivial. intros acts.
    apply quiet_bind; [apply maybeNutrition_calm|]. intros; exact I. }
  destruct (blockReason response) as [[|? ?]|]; try exact Hi.
  cbn [atMost bind]. rewrite HE. intros ?. apply up, failAgent_calm.
Qed.
End StoreOnly.

Lemma forEach_quiet {A B} P (f : A -> prog B) l :
  (forall a, atMost P 0 (f a)) -> atMost P 0 (forEach f l).
Proof.
  intros Hf. induction l as [|a l IH]; cbn [forEach]; [exact I|]. unmonad.
  apply quiet_bind; [apply Hf|]. intros b.
  apply quiet_bind; [exact IH|]. intros bs. exact I.
Qed.

Lemma turnActions_quiet P cfg u m mem calls :
  (forall c, atMost P 0 (executeFunctionCall cfg u c)) ->
  atMost P 0 (turnActions cfg u m mem calls).
Proof.
  intros Hf. unfold turnActions. unmonad.
  apply quiet_bind; [now apply forEach_quiet|].
  intros [|a l]; [destruct (askedToSee m)|]; exact I.
Qed.

Lemma executeFunctionCall_unconfigured cfg u c :
  supabase cfg = false ->
  atMost (@isDatastoreCall) 0 (executeFunctionCall cfg u c).
Proof.
  intros Hs.
  unfold executeFunctionCall, executeAddToShoppingList, executeSaveRecipe,
    executeUpdatePreferences, executeSuggestSubstitutions,
    executeGuideRecipeStep, executeShowReferenceImages, addToShoppingList,
    saveRecipe, saveUserPreference.
  rewrite Hs. hush.
Qed.

Lemma handler_unconfigured cfg mem req :
  supabase cfg = false -> atMost (@isDatastoreCall) 0 (handler cfg mem req).
Proof.
  intros Hs. unfold handler, readJson. cbn [andb fst snd].
  destruct (negb (eqb _ _)); [exact I|].
  destruct (negb (GEMINI_API_KEY cfg)); [exact I|].
  destruct (trim _); [exact I|].
  destruct (negb (safe _)); [unmonad; cbn [atMost bind isDatastoreCall]; auto|].
  unfold turn. unmonad.
  apply quiet_bind.
  { unfold getConversationHistory. rewrite Hs. hush. }
  intros h. apply quiet_bind.
  { apply processWithAgent_store_calls.
    - apply isDatastoreCall_storeOnly.
    - unfold getUserPreferences. rewrite Hs. hush.
    - unfold getUserMemory. rewrite Hs. hush.
    - unfold getUserRecipes. rewrite Hs. hush.
    - intros memory calls. apply turnActions_quiet.
      intros c. now apply executeFunctionCall_unconfigured. }
  intros result. apply quiet_bind.
  { unfold addToHistory. rewrite Hs. hush. }
  intros mem'. destruct (reply result); cbn [atMost bind isDatastoreCall];
    auto.
Qed.

(** Without a datastore client (the environment does not configure one)
    no request ever reaches the datastore, neither to read nor to write,
    tool calls included; the turn is still recorded in the in-process map. *)
Theorem unconfigured_datastore_is_never_called
    (cfg : config) (mem : historyMap) (req : request) tr res :
  supabase cfg = false ->
  runs (handler cfg mem req) tr res ->
  count (@isDatastoreCall) tr = 0%nat.
Proof.
  intros Hs R.
  enough (count (@isDatastoreCall) tr <= 0)%nat by lia.
  eapply atMost_runs; [|exact R]. now apply handler_unconfigured.
Qed.

Lemma atMost_count {A} P (m : prog A) :
  atMost P 0 m -> traced (fun tr _ => count P tr = 0%nat) m.
Proof.
  induction m as [a|X e k IH]; cbn [atMost traced]; [reflexivity|].
  destruct (P X e) eqn:E; [contradiction|].
  intros H x. eapply traced_mono; [|apply IH, H].
  intros tr a Hc. unfold count in *. cbn [List.filter occIs].
  now rewrite E.
Qed.

(** For a user id that is not canonical, the three reads of user data
    return nothing and the history is read from and written to the
    in-process map only: none of these five functions calls the
    datastore. *)
Theorem guest_reads_and_history_skip_datastore
    (cfg : config) (mem : historyMap) (u : str) :
  isValidUUID u = false ->
  (forall tr l, runs (getUserPreferences cfg u) tr l ->
                l = [] /\ count (@isDatastoreCall) tr = 0%nat)
  /\ (forall t tr l, runs (getUserMemory cfg u t) tr l ->
                     l = [] /\ count (@isDatastoreCall) tr = 0%nat)
  /\ (forall b tr l, runs (getUserRecipes cfg u b) tr l ->
                     l = [] /\ count (@isDatastoreCall) tr = 0%nat)
  /\ (forall tr h, runs (getConversationHistory cfg mem u) tr h ->
                   h = default [] (mem !! u)
                   /\ count (@isDatastoreCall) tr = 0%nat)
  /\ (forall m r tr mem', runs (addToHistory cfg mem u m r) tr mem' ->
                          count (@isDatastoreCall) tr = 0%nat).
Proof.
  intros Hu. split; [|split; [|split; [|split]]].
  - intros tr l R. split; revert R.
    + apply (always_runs (fun l => l = [])).
      unfold getUserPreferences. rewrite Hu. unmonad.
      destruct (supabase cfg); cbn [negb always bind]; auto.
    + apply (traced_runs (fun tr _ => count _ tr = 0%nat)).
      apply atMost_count. unfold getUserPreferences. rewrite Hu. hush.
  - intros t tr l R. split; revert R.
    + apply (always_runs (fun l => l = [])).
      unfold getUserMemory. rewrite Hu. unmonad.
      destruct (supabase cfg); cbn [negb always bind]; auto.
    + apply (traced_runs (fun tr _ => count _ tr = 0%nat)).
      apply atMost_count. unfold getUserMemory. rewrite Hu. hush.
  - intros b tr l R. split; revert R.
    + apply (always_runs (fun l => l = [])).
      unfold getUserRecipes. rewrite Hu. unmonad.
      destruct (supabase cfg); cbn [negb always bind]; auto.
    + apply (traced_runs (fun tr _ => count _ tr = 0%nat)).
      apply atMost_count. unfold getUserRecipes. rewrite Hu. hush.
  - intros tr h R.
    exact (traced_runs _ _ _ _
             (getConversationHistory_in_memory cfg mem u (or_intror Hu)) R).
  - intros m r tr mem' R. revert R.
    apply (traced_runs (fun tr _ => count _ tr = 0%nat)).
    apply atMost_count. unfold addToHistory. rewrite Hu. hush.
Qed.

Lemma atMostWhen_mono {A} good P n n' (m : prog A) :
  (n <= n')%nat -> atMostWhen good P n m -> atMostWhen good P n' m.
Proof.
  revert n n'; induction m as [|X e k IH]; cbn [atMostWhen]; auto.
  intros n n' Hle H x Hx. specialize (H x Hx). destruct (P X e).
  - destruct n; [contradiction|]. destruct n'; [lia|].
    apply (IH x n); [lia|exact H].
  - apply (IH x n); auto.
Qed.

Lemma atMost_when {A} good P n (m : prog A) :
  atMost P n m -> atMostWhen good P n m.
Proof.
  revert n; induction m as [|X e k IH]; cbn [atMost atMostWhen]; auto.
  intros n H x _. destruct (P X e).
  - destruct n; [contradiction|]. apply IH, H.
  - apply IH, H.
Qed.

Lemma atMostWhen_bind {A B} good P n1 n2 (m : prog A) (f : A -> prog B) :
  atMostWhen good P n1 m -> always (fun a => atMostWhen good P n2 (f a)) m ->
  atMostWhen good P (n1 + n2) (bind m f).
Proof.
  revert n1; induction m as [r|X e k IH]; cbn [atMostWhen always bind];
    intros n1.
  - intros _ H; eapply atMostWhen_mono; [|exact H]; lia.
  - intros Hk Hf x Hx. specialize (Hk x Hx). destruct (P X e).
    + destruct n1; [contradiction|]. apply IH; auto.
    + apply IH; auto.
Qed.

Lemma atMostWhen_runs {A} good P n (m : prog A) tr a :
  atMostWhen good P n m -> runs m tr a -> Forall good tr ->
  (count P tr <= n)%nat.
Proof.
  intros H R; revert n H; induction R as [|X e k x tr a R IH];
    intros n H Hg; [unfold count; simpl; lia|].
  apply Forall_cons in Hg as [Hx Hg].
  cbn [atMostWhen] in H. specialize (H x Hx).
  unfold count in *. cbn [List.filter occIs].
  destruct (P X e).
  - destruct n; [contradiction|]. cbn [length]. specialize (IH n H Hg). lia.
  - apply IH; assumption.
Qed.

Lemma reads_never_write cfg mem u :
  atMost (@isWrite) 0 (getUserPreferences cfg u)
  /\ atMost (@isWrite) 0 (getUserMemory cfg u None)
  /\ atMost (@isWrite) 0 (getUserRecipes cfg u true)
  /\ atMost (@isWrite) 0 (getConversationHistory cfg mem u).
Proof.
  unfold getUserPreferences, getUserMemory, getUserRecipes,
    getConversationHistory.
  repeat split; unmonad;
    repeat (cbn [atMost bind isWrite]; intros;
            try match goal with
              | |- context [match ?x with _ => _ end] => destruct x
              end); auto.
Qed.

Lemma agent_without_tool_call_never_writes cfg u message h :
  atMostWhen toolFree (@isWrite) 0 (processWithAgent cfg u message h).
Proof.
  pose proof isWrite_storeOnly as HP.
  destruct (reads_never_write cfg ∅ u) as (H1 & H2 & H3 & _).
  unfold processWithAgent. destruct (checkCookingIntent message); [exact I|].
  unmonad.
  apply (atMostWhen_bind _ _ 0 0); [now apply atMost_when|].
  apply always_trivial. intros prefs.
  apply (atMostWhen_bind _ _ 0 0); [now apply atMost_when|].
  apply always_trivial. intros memory.
  apply (atMostWhen_bind _ _ 0 0); [now apply atMost_when|].
  apply always_trivial. intros recipes.
  apply (atMostWhen_bind _ _ 0 0);
    [apply atMost_when, readRecipeGuidance_calm, HP|].
  apply always_trivial. intros guidance.
  cbn [atMostWhen bind isWrite]. intros [|response] Hgood.
  { apply atMost_when, failAgent_calm, HP. }
  cbn [toolFree] in Hgood.
  apply (atMostWhen_bind _ _ 0 0); [apply atMost_when, usageCheck_calm, HP|].
  apply always_trivial. intros ?.
  assert (atMostWhen toolFree (@isWrite) 0
            (interpretResponse cfg u message h memory response)) as Hi.
  { unfold interpretResponse. unmonad.
    apply (atMostWhen_bind _ _ 0 0);
      [apply atMost_when, finishReasonCheck_calm, HP|].
    apply always_trivial. intros ?.
    destruct (text response) as [reply|];
      [|apply atMost_when, failAgent_calm, HP].
    apply (atMostWhen_bind _ _ 0 0);
      [apply atMost_when, extractFunctionCalls_calm, HP|].
    eapply always_mono; [|exact Hgood]. intros calls ->.
    unfold turnActions. unmonad. cbn [forEach bind].
    apply atMost_when.
    destruct (askedToSee message); cbn [bind];
      (apply quiet_bind; [apply maybeNutrition_calm, HP|]); intros; exact I. }
  destruct (blockReason response) as [[|? ?]|]; try exact Hi.
  cbn [atMostWhen bind isWrite]. intros ? ?.
  apply atMost_when, failAgent_calm, HP.
Qed.

(** The turn of a guest writes to the datastore through tool calls only:
    on every run in which the model's answer holds no tool call, a
    request under a user id that is not canonical issues no datastore
    write at all. *)
Theorem guest_turn_without_tool_call_never_writes
    (cfg : config) (mem : historyMap) (req : request) tr res :
  isValidUUID (default (lit "web") (user_id req)) = false ->
  Forall toolFree tr ->
  runs (handler cfg mem req) tr res ->
  count (@isWrite) tr = 0%nat.
Proof.
  intros Hu Hg R.
  enough (count (@isWrite) tr <= 0)%nat by lia.
  eapply atMostWhen_runs; [|exact R|exact Hg]. clear R Hg.
  unfold handler, readJson. cbn [andb fst snd].
  destruct (negb (eqb _ _)); [exact I|].
  destruct (negb (GEMINI_API_KEY cfg)); [exact I|].
  destruct (trim _); [exact I|].
  destruct (negb (safe _)); [unmonad; cbn [atMostWhen bind isWrite]; auto|].
  unfold turn. unmonad.
  destruct (reads_never_write cfg mem (default (lit "web") (user_id req)))
    as (_ & _ & _ & H4).
  apply (atMostWhen_bind _ _ 0 0); [now apply atMost_when|].
  apply always_trivial. intros h.
  apply (atMostWhen_bind _ _ 0 0);
    [apply agent_without_tool_call_never_writes|].
  apply always_trivial. intros result.
  apply atMost_when. apply quiet_bind.
  { unfold addToHistory. rewrite Hu. unmonad.
    repeat (cbn [atMost bind isWrite negb]; intros;
            try match goal with
              | |- context [match ?x with _ => _ end] => destruct x
              end); auto. }
  intros mem'. destruct (reply result); cbn [atMost bind isWrite]; auto.
Qed.

(* ===================================================================== *)
(** * Failures of the collaborators                                       *)
(* ===================================================================== *)

Lemma traced_bind {A B} (Q : list occurrence -> B -> Prop)
    (m : prog A) (f : A -> prog B) :
  traced (fun tr1 a => traced (fun tr2 b => Q (tr1 ++ tr2) b) (f a)) m ->
  traced Q (bind m f).
Proof.
  revert Q; induction m as [a|X e k IH]; intros Q; cbn [traced bind].
  - intros H. exact H.
  - intros H x. apply IH. exact (H x).
Qed.



(* ===================================================================== *)
(** * More on the actions                                                 *)
(* ===================================================================== *)

Lemma orElse_given o d : d <> [] -> orElse o d <> [].
Proof.
  intros Hd. destruct o as [[|x s]|]; cbn [orElse]; auto; discriminate.
Qed.

(** Every entry of the five handlers that is not a reference-image entry
    satisfies [queryGiven] whatever it is; the walk only has to reach the
    returns. *)
Lemma executeFunctionCall_query cfg u c :
  always queryGiven (executeFunctionCall cfg u c).
Proof.
  assert (lit "cooking" <> []) as Hc by discriminate.
  unfold executeFunctionCall, executeAddToShoppingList, executeSaveRecipe,
    executeUpdatePreferences, executeSuggestSubstitutions,
    executeGuideRecipeStep, executeShowReferenceImages, addToShoppingList,
    saveRecipe, saveUserPreference.
  unmonad.
  repeat (cbn [always bind queryGiven]; intros;
          try match goal with
            | |- context [match ?x with _ => _ end] => destruct x
            end);
  auto using orElse_given.
Qed.

Lemma forEach_all {A B} (Q : B -> Prop) (f : A -> prog B) l :
  (forall a, always Q (f a)) -> always (Forall Q) (forEach f l).
Proof.
  intros Hf. induction l as [|a l IH]; cbn [forEach always]; [constructor|].
  unmonad. apply always_bind. eapply always_mono; [|apply Hf].
  intros b Hb. apply always_bind. eapply always_mono; [|exact IH].
  intros bs Hbs. cbn [always]. now constructor.
Qed.

(** Every reference-image entry among the actions of a turn has a query
    that is not empty, whether it comes from the tool (which falls back on
    [cooking]) or from the heuristic. *)
Theorem reference_image_entries_have_a_query
    (cfg : config) (u message : str) (memory : list entry)
    (calls : list functionCall) tr acts :
  runs (turnActions cfg u message memory calls) tr acts ->
  Forall queryGiven acts.
Proof.
  apply (always_runs (Forall queryGiven)).
  unfold turnActions. unmonad. apply always_bind.
  eapply always_mono; [|apply forEach_all, executeFunctionCall_query].
  intros [|a l] H; [|exact H].
  destruct (askedToSee message); cbn [always]; [|constructor].
  repeat constructor. cbn [heuristicAction queryGiven].
  apply (fallbackQuery_spec message memory).
Qed.

Lemma lastN_app {A} n (old recent : list A) :
  (n <= length recent)%nat -> lastN n (old ++ recent) = lastN n recent.
Proof.
  intros H. unfold lastN. rewrite length_app, drop_app_ge by lia.
  f_equal. lia.
Qed.

(** Only the end of the history counts: the classifier looks at the last
    four entries, the prompt carries the last six. Whatever was said
    before them changes neither. *)
Theorem only_recent_history_counts (old recent : list entry) :
  ((4 <= length recent)%nat ->
   hasRecentRecipe (old ++ recent) = hasRecentRecipe recent
   /\ forall text,
        isNewRecipeSuggestion text (old ++ recent)
        = isNewRecipeSuggestion text recent)
  /\ ((6 <= length recent)%nat ->
      conversationContext (old ++ recent) = conversationContext recent).
Proof.
  split.
  - intros H.
    assert (hasRecentRecipe (old ++ recent) = hasRecentRecipe recent) as E
      by (unfold hasRecentRecipe; now rewrite lastN_app).
    split; [exact E|]. intros text. unfold isNewRecipeSuggestion.
    now rewrite E.
  - intros H. unfold conversationContext. now rewrite lastN_app.
Qed.

(* ===================================================================== *)
(** * The response filter                                                 *)
(* ===================================================================== *)

(** What [filterResponse] returns is never empty and never holds the words
    [harmful] or [dangerous], in any letter case; filtering twice is
    filtering once. *)
Theorem filterResponse_is_clean (response : str) :
  filterResponse response <> []
  /\ includes (toLowerCase (filterResponse response)) (lit "harmful") = false
  /\ includes (toLowerCase (filterResponse response)) (lit "dangerous") = false
  /\ filterResponse (filterResponse response) = filterResponse response.
Proof.
  destruct response as [|x r].
  { vm_compute. repeat split; try reflexivity. intros H; discriminate H. }
  unfold filterResponse.
  destruct (includes (toLowerCase (x :: r)) (lit "harmful")
            || includes (toLowerCase (x :: r)) (lit "dangerous")) eqn:E.
  { vm_compute. repeat split; try reflexivity. intros H; discriminate H. }
  rewrite E. apply orb_false_elim in E as [E1 E2].
  split; [discriminate|]. split; [exact E1|]. split; [exact E2|reflexivity].
Qed.

(* ===================================================================== *)
(** * When the model fails                                                *)
(* ===================================================================== *)

Lemma no_agent_call_usable {A} (m : prog A) :
  atMost (@isAgentCall) 0 m ->
  traced (fun tr _ => existsb modelUnusable tr = false) m.
Proof.
  induction m as [a|X e k IH]; cbn [atMost traced]; [auto|].
  destruct (isAgentCall e) eqn:Ea; [contradiction|].
  intros H1 x. eapply traced_mono; [|apply IH, H1].
  intros tr a Hu. cbn [existsb]. rewrite Hu, orb_false_r.
  destruct e; try reflexivity. cbn [modelUnusable].
  destruct withTools; [discriminate|reflexivity].
Qed.

Lemma traced_and {A} (Q1 Q2 : list occurrence -> A -> Prop) (m : prog A) :
  traced Q1 m -> traced Q2 m -> traced (fun tr a => Q1 tr a /\ Q2 tr a) m.
Proof.
  revert Q1 Q2; induction m as [a|X e k IH]; intros Q1 Q2; cbn [traced];
    [auto|].
  intros H1 H2 x. apply (IH x _ _ (H1 x) (H2 x)).
Qed.

Lemma no_agent_call_no_failure {A} (m : prog A) :
  atMost (@isAgentCall) 0 m ->
  atMost (@isWrite) 0 m ->
  traced (fun tr _ => existsb modelUnusable tr = false
                      /\ count (@isWrite) tr = 0%nat) m.
Proof.
  intros H1 H2.
  apply (traced_and (fun tr _ => existsb modelUnusable tr = false)
           (fun tr _ => count (@isWrite) tr = 0%nat));
    [now apply no_agent_call_usable|now apply atMost_count].
Qed.

(** A prefix without agent call and without write does not change what is
    said of the rest. *)
Lemma after_plain_prefix {A B} (m : prog A) (f : A -> prog B)
    (v : B) :
  atMost (@isAgentCall) 0 m ->
  atMost (@isWrite) 0 m ->
  (forall a,
     traced (fun tr res => existsb modelUnusable tr = true ->
                           res = v /\ errorLogged tr = true
                           /\ count (@isWrite) tr = 0%nat) (f a)) ->
  traced (fun tr res => existsb modelUnusable tr = true ->
                        res = v /\ errorLogged tr = true
                        /\ count (@isWrite) tr = 0%nat) (bind m f).
Proof.
  intros H1 H2 Hf. apply traced_bind.
  eapply traced_mono; [|apply (no_agent_call_no_failure m H1 H2)].
  intros tr1 a [Hu Hc]. eapply traced_mono; [|apply Hf].
  intros tr2 b H. unfold errorLogged, count in *.
  rewrite existsb_app, List.filter_app, length_app, Hu, Hc. cbn [orb plus].
  intros Hx. destruct (H Hx) as (-> & Hl & Hw).
  rewrite existsb_app, Hl, orb_true_r. auto.
Qed.

Lemma agent_parts_plain cfg u :
  (atMost (@isAgentCall) 0 (getUserPreferences cfg u)
   /\ atMost (@isWrite) 0 (getUserPreferences cfg u))
  /\ (atMost (@isAgentCall) 0 (getUserMemory cfg u None)
      /\ atMost (@isWrite) 0 (getUserMemory cfg u None))
  /\ (atMost (@isAgentCall) 0 (getUserRecipes cfg u true)
      /\ atMost (@isWrite) 0 (getUserRecipes cfg u true))
  /\ (forall l, atMost (@isAgentCall) 0 (readRecipeGuidance l)
                /\ atMost (@isWrite) 0 (readRecipeGuidance l)).
Proof.
  unfold getUserPreferences, getUserMemory, getUserRecipes,
    readRecipeGuidance.
  repeat split; unmonad;
    repeat (cbn [atMost bind isWrite isAgentCall]; intros;
            try match goal with
              | |- context [match ?x with _ => _ end] => destruct x
              end); auto.
Qed.

Lemma interpretResponse_no_agent_call cfg u message h memory response :
  atMost (@isAgentCall) 0
    (interpretResponse cfg u message h memory response).
Proof.
  assert (forall c, atMost (@isAgentCall) 0 (executeFunctionCall cfg u c))
    as Hc.
  { intros c.
    unfold executeFunctionCall, executeAddToShoppingList, executeSaveRecipe,
      executeUpdatePreferences, executeSuggestSubstitutions,
      executeGuideRecipeStep, executeShowReferenceImages, addToShoppingList,
      saveRecipe, saveUserPreference.
    unmonad.
    repeat (cbn [atMost bind isAgentCall]; intros;
            try match goal with
              | |- context [match ?x with _ => _ end] => destruct x
              end); auto. }
  unfold interpretResponse. unmonad.
  apply quiet_bind.
  { unfold finishReasonCheck. unmonad.
    repeat (cbn [atMost bind isAgentCall]; intros;
            try match goal with
              | |- context [match ?x with _ => _ end] => destruct x
              end); auto. }
  intros ?. destruct (text response) as [reply|].
  2:{ unfold failAgent. unmonad. cbn [atMost bind isAgentCall]. auto. }
  apply quiet_bind.
  { unfold extractFunctionCalls. unmonad.
    repeat (cbn [atMost bind isAgentCall]; intros;
            try match goal with
              | |- context [match ?x with _ => _ end] => destruct x
              end); auto. }
  intros calls. apply quiet_bind; [now apply turnActions_quiet|].
  intros acts. apply quiet_bind; [|intros; exact I].
  unfold maybeNutrition, analyzeNutrition. unmonad.
  repeat (cbn [atMost bind isAgentCall]; intros;
          try match goal with
            | |- context [match ?x with _ => _ end] => destruct x
            end); auto.
Qed.

(** When the model cannot be used (its call throws, its response is
    blocked, or the text of the response cannot be read), the agent
    answers with its fixed apology, without action and without nutrition;
    the failure is on the error console, and the turn wrote nothing to the
    datastore. *)
Theorem model_failure_gives_the_apology
    (cfg : config) (u message : str) (h : list entry) tr result :
  runs (processWithAgent cfg u message h) tr result ->
  existsb modelUnusable tr = true ->
  result = agentFailure
  /\ errorLogged tr = true
  /\ count (@isWrite) tr = 0%nat.
Proof.
  apply (traced_runs
           (fun tr res => existsb modelUnusable tr = true ->
                          res = agentFailure /\ errorLogged tr = true
                          /\ count (@isWrite) tr = 0%nat)).
  destruct (agent_parts_plain cfg u)
    as ((A1 & W1) & (A2 & W2) & (A3 & W3) & G).
  unfold processWithAgent.
  destruct (checkCookingIntent message); [cbn [traced]; discriminate|].
  unmonad.
  apply after_plain_prefix; [exact A1|exact W1|]. intros prefs.
  apply after_plain_prefix; [exact A2|exact W2|]. intros memory.
  apply after_plain_prefix; [exact A3|exact W3|]. intros recipes.
  apply after_plain_prefix; [apply G|apply G|]. intros guidance.
  cbn [traced bind]. intros [|response].
  { unfold failAgent. unmonad. cbn [traced bind]. intros ? _.
    repeat split; reflexivity. }
  assert (atMost (@isAgentCall) 0 (usageCheck response)) as Hu.
  { unfold usageCheck. unmonad.
    repeat (cbn [atMost bind isAgentCall]; intros;
            try match goal with
              | |- context [match ?x with _ => _ end] => destruct x
              end); auto. }
  assert (forall t : prog agentResult,
            (match blockReason response, text response with
             | Some (_ :: _), _ => true
             | _, None => true
             | _, _ => false
             end) = false ->
            atMost (@isAgentCall) 0 t ->
            traced
              (fun tr res =>
                 existsb modelUnusable
                   (Occ (GenerateContent true
                           (contextPrompt prefs memory h guidance message))
                      (ModelResponse response) :: tr) = true ->
                 res = agentFailure
                 /\ errorLogged
                      (Occ (GenerateContent true
                              (contextPrompt prefs memory h guidance message))
                         (ModelResponse response) :: tr) = true
                 /\ count (@isWrite)
                      (Occ (GenerateContent true
                              (contextPrompt prefs memory h guidance message))
                         (ModelResponse response) :: tr) = 0%nat) t)
    as usable.
  { intros t Hok Ht. eapply traced_mono; [|apply no_agent_call_usable, Ht].
    intros tr' res' Hf. cbn [existsb modelUnusable]. rewrite Hok, Hf.
    discriminate. }
  destruct (blockReason response) as [[|c b]|] eqn:Eb;
    destruct (text response) as [reply|] eqn:Et.
  - apply usable; [reflexivity|].
    apply quiet_bind; [exact Hu|intros; apply interpretResponse_no_agent_call].
  - unfold interpretResponse, usageCheck, finishReasonCheck, failAgent.
    rewrite Et. unmonad.
    repeat (cbn [traced bind]; intros;
            try match goal with
              | |- context [match ?x with _ => _ end] => destruct x
              end);
      repeat split; reflexivity.
  - unfold usageCheck, failAgent. unmonad.
    repeat (cbn [traced bind]; intros;
            try match goal with
              | |- context [match ?x with _ => _ end] => destruct x
              end);
      repeat split; reflexivity.
  - unfold usageCheck, failAgent. unmonad.
    repeat (cbn [traced bind]; intros;
            try match goal with
              | |- context [match ?x with _ => _ end] => destruct x
              end);
      repeat split; reflexivity.
  - apply usable; [reflexivity|].
    apply quiet_bind; [exact Hu|intros; apply interpretResponse_no_agent_call].
  - unfold interpretResponse, usageCheck, finishReasonCheck, failAgent.
    rewrite Et. unmonad.
    repeat (cbn [traced bind]; intros;
            try match goal with
              | |- context [match ?x with _ => _ end] => destruct x
              end);
      repeat split; reflexivity.
Qed.

(* ===================================================================== *)
(** * The metaphor guardrail                                              *)
(* ===================================================================== *)

Lemma fallbackReply_not_scripted text : fallbackReply text <> metaphorReply.
Proof.
  unfold fallbackReply. intros E.
  apply (f_equal (fun s => s !! 1%nat)) in E.
  vm_compute in E. discriminate E.
Qed.

Lemma getConversationHistory_no_model_call cfg mem u :
  atMost (@isModelCall) 0 (getConversationHistory cfg mem u).
Proof.
  unfold getConversationHistory. unmonad.
  repeat (cbn [atMost bind isModelCall]; intros;
          try match goal with
            | |- context [match ?x with _ => _ end] => destruct x
            end); auto.
Qed.

(** What the handler does with a result that has no [reply] field;
    [again] is the text its [catch] block finds. *)
Lemma turn_without_reply cfg mem u text again (h : list entry) :
  traced
    (fun tr res =>
       count (@isModelCall) tr = 0%nat
       /\ res.1 = {| status := 200; body := BodyReply (fallbackReply again) |}
       /\ errorLogged tr = true
       /\ exists t1 t2,
            res.2 !! u
            = Some (pushHistory (default [] (mem !! u)) text None t1 t2))
    (bind (addToHistory cfg mem u text None)
       (fun mem' =>
          bind (call (ConsoleError (lit "Conversation error:")))
            (fun _ =>
               Ret ({| status := 200;
                       body := BodyReply (fallbackReply again) |}, mem')))).
Proof.
  unfold addToHistory. unmonad. cbn [traced bind]. intros t1 t2.
  destruct (negb (supabase cfg)).
  { cbn [traced bind]. intros ? ?. repeat split.
    exists t1, t2. apply lookup_insert_eq. }
  destruct (negb (isValidUUID u)).
  { cbn [traced bind]. intros ?. repeat split.
    exists t1, t2. apply lookup_insert_eq. }
  cbn [traced bind]. intros []; cbn [traced bind]; intros; repeat split;
    exists t1, t2; apply lookup_insert_eq.
Qed.

(** When the metaphor guardrail triggers on a request that passed the
    gate, the model is not called, but the scripted redirect never reaches
    the caller: the result of the agent has no [reply] field, so the
    handler records a turn without assistant text, fails on reading the
    reply, logs the error, and answers 200 with the fallback reply of its
    [catch] block. That reply is chosen by the text the block finds when it
    reads the request again: the text of the request when the platform
    parsed the body, no text when the body was a stream. *)
Theorem metaphor_redirect_never_reaches_the_caller
    (cfg : config) (mem : historyMap) (req : request) (text : str) tr res :
  method req = lit "POST" ->
  GEMINI_API_KEY cfg = true ->
  req_text req = Some text ->
  trim text <> [] ->
  safe (validateInput text) = true ->
  checkCookingIntent text <> None ->
  runs (handler cfg mem req) tr res ->
  let again := if streamed req then [] else text in
  count (@isModelCall) tr = 0%nat
  /\ res.1 = {| status := 200; body := BodyReply (fallbackReply again) |}
  /\ fallbackReply again <> metaphorReply
  /\ errorLogged tr = true
  /\ exists older t1 t2,
       res.2 !! default (lit "web") (user_id req)
       = Some (older ++ turnEntries text None t1 t2).
Proof.
  intros Hm Hk Ht Hne Hs Hc R again.
  rewrite (handler_past_gate cfg mem req text Hm Hk Ht Hne Hs) in R.
  set (u := default (lit "web") (user_id req)) in *.
  enough (count (@isModelCall) tr = 0%nat
          /\ res.1 = {| status := 200;
                        body := BodyReply (fallbackReply again) |}
          /\ errorLogged tr = true
          /\ exists t1 t2,
               res.2 !! u
               = Some (pushHistory (default [] (mem !! u)) text None t1 t2))
    as (H1 & H2 & H3 & t1 & t2 & H4).
  { repeat split; auto using fallbackReply_not_scripted.
    destruct (pushHistory_keeps_latest (default [] (mem !! u)) text None
                t1 t2) as (_ & older & E & _).
    exists older, t1, t2. now rewrite H4, E. }
  revert R.
  apply (traced_runs
           (fun tr res =>
              count (@isModelCall) tr = 0%nat
              /\ res.1 = {| status := 200;
                            body := BodyReply (fallbackReply again) |}
              /\ errorLogged tr = true
              /\ exists t1 t2,
                   res.2 !! u
                   = Some (pushHistory (default [] (mem !! u)) text None
                             t1 t2))).
  unfold turn, processWithAgent.
  destruct (checkCookingIntent text) as [scripted|]; [|contradiction].
  rewrite (readJson_again req text Ht). fold again.
  unmonad. apply traced_bind.
  eapply traced_mono;
    [|apply atMost_count, getConversationHistory_no_model_call].
  intros tr1 h Hc1. cbn [bind reply].
  eapply traced_mono; [|apply (turn_without_reply cfg mem u text again h)].
  intros tr2 res2 (C & E & L & T). unfold count, errorLogged in *.
  rewrite List.filter_app, length_app, existsb_app, Hc1, C, L, orb_true_r.
  auto.
Qed.

(* ===================================================================== *)
(** * Letter case                                                         *)
(* ===================================================================== *)

Lemma lowerLatin1_cases x :
  (65 <= x <= 90 /\ lowerLatin1 x = x + 32)
  \/ (192 <= x <= 222 /\ x <> 215 /\ lowerLatin1 x = x + 32)
  \/ ((x < 65 \/ 90 < x) /\ (x < 192 \/ 222 < x \/ x = 215)
      /\ lowerLatin1 x = x).
Proof.
  unfold lowerLatin1.
  destruct (N.leb_spec 65 x), (N.leb_spec x 90); cbn [andb];
    try (left; split; [lia|reflexivity]);
    destruct (N.leb_spec 192 x), (N.leb_spec x 222),
      (N.eqb_spec x 215); cbn [andb negb];
    try (right; left; repeat split; lia);
    right; right; repeat split; lia.
Qed.

Lemma canon_cases x :
  (97 <= x <= 122 /\ canon x = x - 32) \/ ((x < 97 \/ 122 < x) /\ canon x = x).
Proof.
  unfold canon.
  destruct (N.leb_spec 97 x), (N.leb_spec x 122); cbn [andb];
    [left|right..]; split; try reflexivity; lia.
Qed.

Lemma uncanon_cases x :
  (65 <= x <= 90 /\ uncanon x = x + 32)
  \/ ((x < 65 \/ 90 < x) /\ uncanon x = x).
Proof.
  unfold uncanon.
  destruct (N.leb_spec 65 x), (N.leb_spec x 90); cbn [andb];
    [left|right..]; split; try reflexivity; lia.
Qed.

Lemma isSpace_spec x :
  isSpace x = true ->
  9 <= x <= 13 \/ x = 32 \/ x = 160 \/ x = 5760 \/ 8192 <= x <= 8202
  \/ x = 8232 \/ x = 8233 \/ x = 8239 \/ x = 8287 \/ x = 12288 \/ x = 65279.
Proof. unfold isSpace. intros H. bools; lia. Qed.

Lemma isLineTerminator_spec x :
  isLineTerminator x = true -> x = 10 \/ x = 13 \/ x = 8232 \/ x = 8233.
Proof. unfold isLineTerminator. intros H. bools; lia. Qed.

Lemma within_high x r : snd r < 128 -> 128 <= x -> within x r = false.
Proof.
  intros Hr Hx. unfold within. apply andb_false_iff. right.
  apply N.leb_gt. lia.
Qed.

Lemma inRange_lower x r :
  snd r < 128 -> inRange true (lowerLatin1 x) r = inRange true x r.
Proof.
  intros Hr. unfold inRange. cbn [andb].
  destruct (lowerLatin1_cases x) as [(Hx & E)|[(Hx & Hn & E)|(_ & _ & E)]];
    rewrite E; [| |reflexivity].
  - destruct (canon_cases (x + 32)) as [(_ & ->)|(? & _)]; [|lia].
    destruct (canon_cases x) as [(? & _)|(_ & ->)]; [lia|].
    destruct (uncanon_cases (x + 32)) as [(? & _)|(_ & ->)]; [lia|].
    destruct (uncanon_cases x) as [(_ & ->)|(? & _)]; [|lia].
    replace (x + 32 - 32) with x by lia.
    destruct (within x r), (within (x + 32) r); reflexivity.
  - destruct (canon_cases (x + 32)) as [(? & _)|(_ & ->)]; [lia|].
    destruct (canon_cases x) as [(? & _)|(_ & ->)]; [lia|].
    destruct (uncanon_cases (x + 32)) as [(? & _)|(_ & ->)]; [lia|].
    destruct (uncanon_cases x) as [(? & _)|(_ & ->)]; [lia|].
    rewrite !within_high by lia. reflexivity.
Qed.

Lemma atomMatch_lower a x :
  asciiAtom a = true -> atomMatch true a (lowerLatin1 x) = atomMatch true a x.
Proof.
  intros Ha. destruct a as [c| | |rs]; cbn [atomMatch asciiAtom] in *.
  - apply N.ltb_lt in Ha.
    destruct (canon_cases c) as [(Hc & Ec)|(Hc & Ec)]; rewrite Ec;
      (destruct (lowerLatin1_cases x) as [(Hx & E)|[(Hx & Hn & E)|(_ & _ & E)]];
       rewrite E; [| |reflexivity]).
    + destruct (canon_cases (x + 32)) as [(_ & ->)|(? & _)]; [|lia].
      destruct (canon_cases x) as [(? & _)|(_ & ->)]; [lia|].
      f_equal. lia.
    + destruct (canon_cases (x + 32)) as [(? & _)|(_ & ->)]; [lia|].
      destruct (canon_cases x) as [(? & _)|(_ & ->)]; [lia|].
      transitivity false; [|symmetry]; apply N.eqb_neq; lia.
    + destruct (canon_cases (x + 32)) as [(_ & ->)|(? & _)]; [|lia].
      destruct (canon_cases x) as [(? & _)|(_ & ->)]; [lia|].
      f_equal. lia.
    + destruct (canon_cases (x + 32)) as [(? & _)|(_ & ->)]; [lia|].
      destruct (canon_cases x) as [(? & _)|(_ & ->)]; [lia|].
      transitivity false; [|symmetry]; apply N.eqb_neq; lia.
  - f_equal.
    destruct (lowerLatin1_cases x) as [(Hx & E)|[(Hx & Hn & E)|(_ & _ & E)]];
      rewrite E; [| |reflexivity];
      (destruct (isLineTerminator (x + 32)) eqn:E1;
       [apply isLineTerminator_spec in E1; lia|];
       destruct (isLineTerminator x) eqn:E2;
       [apply isLineTerminator_spec in E2; lia|reflexivity]).
  - destruct (lowerLatin1_cases x) as [(Hx & E)|[(Hx & Hn & E)|(_ & _ & E)]];
      rewrite E; [| |reflexivity];
      (destruct (isSpace (x + 32)) eqn:E1; [apply isSpace_spec in E1; lia|];
       destruct (isSpace x) eqn:E2;
       [apply isSpace_spec in E2; lia|reflexivity]).
  - induction rs as [|r rs IH]; [reflexivity|].
    cbn [existsb forallb] in *. apply andb_prop in Ha as [Hr Ha].
    apply N.ltb_lt in Hr. now rewrite inRange_lower, IH.
Qed.

Lemma exec_ext {A} ci (r : regex) : forall (k k' : str -> option A) s,
  (forall rest, k rest = k' rest) -> exec ci r k s = exec ci r k' s.
Proof.
  induction r as [|a|r1 IH1 r2 IH2|r1 IH1 r2 IH2|r1 IH1|a|n a];
    intros k k' s Hk; cbn [exec].
  - apply Hk.
  - destruct s as [|x s]; [reflexivity|]. now rewrite Hk.
  - apply IH1. intros rest. now apply IH2.
  - rewrite (IH1 k k' s Hk), (IH2 k k' s Hk). reflexivity.
  - rewrite (IH1 k k' s Hk), Hk. reflexivity.
  - induction s as [|x s IHs]; cbn [star]; [apply Hk|].
    now rewrite IHs, Hk.
  - revert s. induction n as [|n IHn]; intros s; cbn [rep]; [apply Hk|].
    destruct s as [|x s]; [reflexivity|]. now rewrite IHn.
Qed.

(** Matching the lower-cased text is matching the text and lower-casing
    what is left. *)
Lemma exec_lower {A} (r : regex) : forall (k : str -> option A) s,
  asciiOnly r = true ->
  exec true r k (List.map lowerLatin1 s)
  = exec true r (fun rest => k (List.map lowerLatin1 rest)) s.
Proof.
  induction r as [|a|r1 IH1 r2 IH2|r1 IH1 r2 IH2|r1 IH1|a|n a];
    intros k s Hr; cbn [exec asciiOnly] in *.
  - reflexivity.
  - destruct s as [|x s]; [reflexivity|]. cbn [List.map].
    now rewrite atomMatch_lower.
  - apply andb_prop in Hr as [H1 H2]. rewrite IH1 by assumption.
    apply exec_ext. intros rest. now apply IH2.
  - apply andb_prop in Hr as [H1 H2].
    now rewrite IH1, IH2 by assumption.
  - now rewrite IH1 by assumption.
  - induction s as [|x s IHs]; cbn [star List.map]; [reflexivity|].
    now rewrite atomMatch_lower, IHs.
  - revert s. induction n as [|n IHn]; intros s; cbn [rep]; [reflexivity|].
    destruct s as [|x s]; [reflexivity|]. cbn [List.map].
    now rewrite atomMatch_lower, IHn.
Qed.

Lemma test_lower r s :
  asciiOnly r = true ->
  test true r (List.map lowerLatin1 s) = test true r s.
Proof.
  intros Hr. induction s as [|x s IH].
  - reflexivity.
  - cbn [List.map test]. rewrite <- IH.
    change (lowerLatin1 x :: List.map lowerLatin1 s)
      with (List.map lowerLatin1 (x :: s)).
    now rewrite exec_lower.
Qed.

(** On Latin-1 text [toLowerCase] is the mapping of the code units. *)
Lemma lowerPoint_latin1 c : c < 256 -> lowerPoint c = lowerLatin1 c.
Proof.
  assert (forallb (fun n => lowerPoint (N.of_nat n) =? lowerLatin1 (N.of_nat n))
            (seq 0 256) = true) as H by (vm_compute; reflexivity).
  rewrite forallb_forall in H. intros Hc.
  specialize (H (N.to_nat c)). rewrite N2Nat.id in H.
  apply N.eqb_eq, H, in_seq. lia.
Qed.

Lemma codePoints_latin1 s : latin1 s -> codePoints s = s.
Proof.
  induction s as [|x s IH]; intros H; [reflexivity|].
  apply Forall_cons in H as [Hx Hs]. specialize (IH Hs).
  destruct s as [|y s]; [reflexivity|].
  change (codePoints (x :: y :: s))
    with (if isHighSurrogate x && isLowSurrogate y
          then (65536 + (x - 55296) * 1024 + (y - 56320)) :: codePoints s
          else x :: codePoints (y :: s)).
  replace (isHighSurrogate x) with false; [now rewrite IH|].
  symmetry. unfold isHighSurrogate. apply andb_false_iff. left.
  apply N.leb_gt. lia.
Qed.

Lemma lowerFrom_latin1 before s :
  latin1 s ->
  concat (List.map units (lowerFrom before s)) = List.map lowerLatin1 s.
Proof.
  revert before. induction s as [|c s IH]; intros before H; [reflexivity|].
  apply Forall_cons in H as [Hc Hs]. cbn [lowerFrom List.map].
  replace (c =? 931) with false by (symmetry; apply N.eqb_neq; lia).
  replace (c =? 304) with false by (symmetry; apply N.eqb_neq; lia).
  cbn [app List.map concat]. rewrite (IH _ Hs), lowerPoint_latin1 by exact Hc.
  unfold units. replace (lowerLatin1 c <? 65536) with true; [reflexivity|].
  symmetry. apply N.ltb_lt. unfold lowerLatin1.
  repeat match goal with |- context [if ?b then _ else _] => destruct b end;
    lia.
Qed.

Lemma toLowerCase_latin1 s :
  latin1 s -> toLowerCase s = List.map lowerLatin1 s.
Proof.
  intros H. unfold toLowerCase.
  now rewrite codePoints_latin1, lowerFrom_latin1.
Qed.

Lemma banned_are_ascii :
  forallb asciiOnly (HARMFUL_PATTERNS ++ COOKING_SAFETY_PATTERNS) = true
  /\ asciiOnly uuidRegex = true.
Proof. vm_compute. auto. Qed.

Lemma existsb_same {A} (f g : A -> bool) l :
  (forall x, x ∈ l -> f x = g x) -> existsb f l = existsb g l.
Proof.
  induction l as [|a l IH]; intros H; [reflexivity|]. cbn [existsb].
  rewrite (H a), IH; [reflexivity| |constructor].
  intros x Hx. apply H. now constructor.
Qed.

Lemma gate_same (hs cs : list regex) (a b : str) (v1 v2 v3 : validation) :
  (forall p, p ∈ hs ++ cs -> test true p a = test true p b) ->
  (if existsb (fun pattern => test true pattern a) hs then v1
   else if existsb (fun pattern => test true pattern a) cs then v2 else v3)
  = (if existsb (fun pattern => test true pattern b) hs then v1
     else if existsb (fun pattern => test true pattern b) cs then v2 else v3).
Proof.
  intros H.
  rewrite (existsb_same (fun p => test true p a) (fun p => test true p b) hs),
    (existsb_same (fun p => test true p a) (fun p => test true p b) cs);
    [reflexivity| |]; intros p Hp; apply H, elem_of_app; auto.
Qed.

(** On a text of Latin-1 code units letter case does not matter to the
    gate, nor to the test of the user id: the text and its lower-case form
    get the same verdict, reason and category, and the text is a canonical
    id exactly when its lower-case form is. *)
Theorem letter_case_is_ignored (text : str) :
  latin1 text ->
  validateInput (toLowerCase text) = validateInput text
  /\ isValidUUID (toLowerCase text) = isValidUUID text.
Proof.
  intros Hl. rewrite (toLowerCase_latin1 text Hl).
  destruct banned_are_ascii as [Hb Hu]. split.
  - destruct text as [|x text]; [reflexivity|].
    unfold validateInput. cbn [List.map].
    change (lowerLatin1 x :: List.map lowerLatin1 text)
      with (List.map lowerLatin1 (x :: text)).
    apply gate_same. intros p Hp. apply test_lower.
    rewrite forallb_forall in Hb. apply Hb. now apply list_elem_of_In.
  - unfold isValidUUID, testWhole. rewrite exec_lower by exact Hu.
    erewrite exec_ext; [reflexivity|].
    intros [|y rest]; reflexivity.
Qed.

(** Beyond Latin-1 it does: the Kelvin sign is no letter [k] for the
    patterns of the gate, but its lower-case form is. *)
Lemma kelvin_sign_passes_the_gate :
  safe (validateInput kelvinText) = true
  /\ toLowerCase kelvinText = lit "kill myself"
  /\ safe (validateInput (toLowerCase kelvinText)) = false.
Proof. vm_compute. auto. Qed.

(* ===================================================================== *)
(** * The shape of a canonical identifier                                 *)
(* ===================================================================== *)

Lemma stripClasses_app l1 l2 ci s :
  stripClasses (l1 ++ l2) ci s
  = match stripClasses l1 ci s with
    | Some rest => stripClasses l2 ci rest
    | None => None
    end.
Proof.
  revert s. induction l1 as [|a l1 IH]; intros s; [reflexivity|].
  cbn [app stripClasses]. destruct s as [|x s]; [reflexivity|].
  destruct (atomMatch ci a x); [apply IH|reflexivity].
Qed.

(** A pattern made of single units in sequence consumes its classes. *)
Lemma exec_classes {A} ci (r : regex) : forall cs (k : str -> option A) s,
  classesOf r = Some cs ->
  exec ci r k s
  = match stripClasses cs ci s with
    | Some rest => k rest
    | None => None
    end.
Proof.
  induction r as [|a|r1 IH1 r2 IH2|r1 IH1 r2 IH2|r1 IH1|a|n a];
    intros cs k s Hc; cbn [classesOf exec] in *; try discriminate.
  - injection Hc as <-. reflexivity.
  - injection Hc as <-. cbn [stripClasses].
    destruct s as [|x s]; [reflexivity|]. now destruct (atomMatch ci a x).
  - destruct (classesOf r1) as [l1|]; [|discriminate].
    destruct (classesOf r2) as [l2|]; [|discriminate].
    injection Hc as <-. rewrite (IH1 l1) by reflexivity.
    rewrite stripClasses_app.
    destruct (stripClasses l1 ci s) as [rest|]; [|reflexivity].
    now apply IH2.
  - injection Hc as <-. revert s.
    induction n as [|n IHn]; intros s; cbn [rep replicate stripClasses];
      [reflexivity|].
    destruct s as [|x s]; [reflexivity|].
    destruct (atomMatch ci a x); [apply IHn|reflexivity].
Qed.

Lemma matchClasses_strip cs ci s :
  matchClasses cs ci s
  = match stripClasses cs ci s with
    | Some [] => true
    | _ => false
    end.
Proof.
  revert s. induction cs as [|a cs IH]; intros [|x s];
    cbn [matchClasses stripClasses]; try reflexivity.
  rewrite IH. now destruct (atomMatch ci a x).
Qed.

Lemma matchClasses_length cs ci s :
  matchClasses cs ci s = true -> length s = length cs.
Proof.
  revert s. induction cs as [|a cs IH]; intros [|x s];
    cbn [matchClasses]; try discriminate; [reflexivity|].
  intros H. apply andb_prop in H as [_ H]. cbn [length]. f_equal. now apply IH.
Qed.

Lemma hex_class x : atomMatch true hex x = isHexDigit x.
Proof.
  unfold hex, isHexDigit. cbn [atomMatch existsb].
  unfold inRange, within. cbn [fst snd andb]. rewrite orb_false_r.
  apply eq_true_iff_eq.
  destruct (canon_cases x) as [(Hc & ->)|(Hc & ->)];
    destruct (uncanon_cases x) as [(Hu & ->)|(Hu & ->)]; try lia;
    rewrite !orb_true_iff, !andb_true_iff, !N.leb_le; lia.
Qed.

(** [isValidUUID] accepts exactly the texts of thirty-six units that match,
    unit by unit, eight hexadecimal digits, a dash, four digits, a dash, a
    digit from 1 to 5 and three digits, a dash, one of [8 9 a b] and three
    digits, a dash, and twelve digits; a hexadecimal digit is taken in
    either letter case. *)
Theorem canonical_identifier_shape (uuid : str) :
  isValidUUID uuid = matchClasses uuidClasses true uuid
  /\ (isValidUUID uuid = true -> length uuid = 36%nat)
  /\ forall x, atomMatch true hex x = isHexDigit x.
Proof.
  assert (isValidUUID uuid = matchClasses uuidClasses true uuid) as E.
  { unfold isValidUUID, testWhole.
    rewrite (exec_classes true uuidRegex uuidClasses) by reflexivity.
    rewrite matchClasses_strip.
    destruct (stripClasses uuidClasses true uuid) as [[|y rest]|];
      reflexivity. }
  split; [exact E|]. split; [|apply hex_class].
  rewrite E. intros H. now apply matchClasses_length in H.
Qed.

(* ===================================================================== *)
(** * What a turn leaves in the in-process map                            *)
(* ===================================================================== *)

(** Every request that passes the gate is recorded: whatever the
    collaborators answer, the list of the user in the in-process map ends
    with the user's text followed by the assistant entry, and the lists of
    all other users are left as they were. The assistant entry holds the
    very reply sent back when the body is that of a turn; the one other
    case is a result of the agent without reply: the entry then has no
    content and what is sent is the fallback reply of the [catch] block. *)
Theorem turn_is_recorded
    (cfg : config) (mem : historyMap) (req : request) (text : str) tr res :
  method req = lit "POST" ->
  GEMINI_API_KEY cfg = true ->
  req_text req = Some text ->
  trim text <> [] ->
  safe (validateInput text) = true ->
  runs (handler cfg mem req) tr res ->
  let u := default (lit "web") (user_id req) in
  (forall u', u' <> u -> res.2 !! u' = mem !! u')
  /\ exists older t1 t2 botResponse,
       res.2 !! u = Some (older ++ turnEntries text botResponse t1 t2)
       /\ older `suffix_of` default [] (mem !! u)
       /\ match botResponse with
          | Some reply => exists acts n, body res.1 = BodyTurn reply acts n
          | None =>
              body res.1
              = BodyReply (fallbackReply (if streamed req then [] else text))
          end.
Proof.
  intros Hm Hk Ht Hne Hs R u.
  rewrite (handler_past_gate cfg mem req text Hm Hk Ht Hne Hs) in R.
  fold u in R. revert R.
  apply (always_runs
           (fun res =>
              (forall u', u' <> u -> res.2 !! u' = mem !! u')
              /\ exists older t1 t2 botResponse,
                   res.2 !! u
                   = Some (older ++ turnEntries text botResponse t1 t2)
                   /\ older `suffix_of` default [] (mem !! u)
                   /\ match botResponse with
                      | Some reply =>
                          exists acts n, body res.1 = BodyTurn reply acts n
                      | None =>
                          body res.1
                          = BodyReply
                              (fallbackReply
                                 (if streamed req then [] else text))
                      end)).
  unfold turn. rewrite (readJson_again req text Ht). unmonad.
  apply always_bind, always_trivial. intros h.
  apply always_bind, always_trivial. intros result.
  apply always_bind.
  eapply always_mono; [|apply addToHistory_result].
  intros mem' (t1 & t2 & ->).
  destruct (pushHistory_keeps_latest (default [] (mem !! u)) text
              (reply result) t1 t2) as (_ & older & E & Hsuf & _).
  assert (forall u', u' <> u ->
            <[u := pushHistory (default [] (mem !! u)) text (reply result)
                     t1 t2]> mem !! u' = mem !! u') as Hframe.
  { intros u' Hu'. apply lookup_insert_ne. congruence. }
  destruct (reply result) as [r|] eqn:Er; cbn [always bind fst snd body].
  - split; [exact Hframe|]. exists older, t1, t2, (Some r).
    rewrite lookup_insert_eq, E. repeat split; eauto.
  - intros ?. split; [exact Hframe|]. exists older, t1, t2, None.
    rewrite lookup_insert_eq, E. repeat split; auto.
Qed.

(* ===================================================================== *)
(** * What the history query returns                                      *)
(* ===================================================================== *)

Lemma insertBy_perm {A} (before : A -> A -> bool) x l :
  insertBy before x l ≡ₚ x :: l.
Proof.
  induction l as [|y l IH]; cbn [insertBy]; [reflexivity|].
  destruct (before x y); [reflexivity|].
  rewrite IH. apply perm_swap.
Qed.

Lemma sortBy_perm {A} (before : A -> A -> bool) l : sortBy before l ≡ₚ l.
Proof.
  unfold sortBy. induction l as [|x l IH]; [reflexivity|].
  cbn [foldr]. now rewrite insertBy_perm, IH.
Qed.

Lemma insertBy_oldestFirst x l :
  oldestFirst l -> oldestFirst (insertBy byTime x l).
Proof.
  induction l as [|y l IH]; cbn [insertBy oldestFirst].
  - intros _. split; [constructor|exact I].
  - intros [Hy Hl]. unfold byTime at 1.
    destruct (cm_created_at x <=? cm_created_at y)%Z eqn:E.
    + apply Z.leb_le in E. cbn [oldestFirst]. split; [|split; assumption].
      constructor; [exact E|].
      eapply Forall_impl; [exact Hy|]. cbn beta. intros z Hz. lia.
    + apply Z.leb_gt in E. cbn [oldestFirst]. split; [|now apply IH].
      rewrite insertBy_perm. constructor; [lia|exact Hy].
Qed.

Lemma sortBy_oldestFirst l : oldestFirst (sortBy byTime l).
Proof.
  unfold sortBy. induction l as [|x l IH]; [exact I|].
  cbn [foldr]. now apply insertBy_oldestFirst.
Qed.

Lemma oldestFirst_split l n a b :
  oldestFirst l -> a ∈ take n l -> b ∈ drop n l ->
  (cm_created_at a <= cm_created_at b)%Z.
Proof.
  revert n. induction l as [|x l IH]; intros n Hl Ha Hb.
  - rewrite take_nil in Ha. now apply elem_of_nil in Ha.
  - destruct n as [|n]; [now apply elem_of_nil in Ha|].
    cbn [take drop oldestFirst] in *. destruct Hl as [Hx Hl].
    apply elem_of_cons in Ha as [->|Ha].
    + rewrite Forall_forall in Hx. apply Hx.
      now apply (subseteq_drop n l).
    + now apply (IH n).
Qed.

(** With a working datastore a signed-in user is handed the rows of
    [conversation_memory] that come FIRST in time: at most twenty of the
    user's rows, none of them newer than a row that was left out.  The read
    changes nothing in the datastore. *)
Theorem history_read_returns_oldest_rows cfg mem u w :
  supabase cfg = true ->
  isValidUUID u = true ->
  exists kept dropped,
    run store (getConversationHistory cfg mem u) w
      = ([Occ (SelectHistory u) (ok (List.map asEntry kept))],
         List.map asEntry kept, w)
    /\ kept ++ dropped ≡ₚ storedHistory w u
    /\ length kept = Nat.min 20 (length (storedHistory w u))
    /\ forall a b, a ∈ kept -> b ∈ dropped ->
         (cm_created_at a <= cm_created_at b)%Z.
Proof.
  intros Hs Hu.
  set (rows := sortBy byTime (storedHistory w u)).
  exists (take 20 rows), (drop 20 rows).
  split; [|split; [|split]].
  - unfold getConversationHistory. rewrite Hs, Hu. reflexivity.
  - rewrite take_drop. apply sortBy_perm.
  - rewrite length_take. unfold rows. rewrite (sortBy_perm byTime). lia.
  - intros a b. apply oldestFirst_split, sortBy_oldestFirst.
Qed.

(* ===================================================================== *)
(** * The further properties at concrete inputs                           *)
(* ===================================================================== *)

Lemma gated_in_request_is_answered_witness :
  let req := post None "How do I make dal?" in
  let text := lit "How do I make dal?" in
  let r := run store (handler live ∅ req)
             (kitchen (says "Simmer the lentils." [])) in
  (method req = lit "POST" /\ GEMINI_API_KEY live = true
   /\ req_text req = Some text /\ trim text <> []
   /\ safe (validateInput text) = true
   /\ runs (handler live ∅ req) r.1.1 r.1.2)
  /\ status r.1.2.1 = 200
  /\ ((exists reply actions nutrition,
         body r.1.2.1 = BodyTurn reply actions nutrition)
      \/ body r.1.2.1
         = BodyReply (fallbackReply (if streamed req then [] else text))).
Proof.
  intros req text r.
  assert (trim text <> []) as Ht by (vm_compute; discriminate).
  assert (safe (validateInput text) = true) as Hv
    by (vm_compute; reflexivity).
  assert (runs (handler live ∅ req) r.1.1 r.1.2) as R by apply run_runs.
  split; [given|].
  exact (gated_in_request_is_answered live ∅ req text r.1.1 r.1.2
           eq_refl eq_refl eq_refl Ht Hv R).
Defined.

Lemma in_memory_history_round_trip_witness :
  let r := run store
             (addToHistory offline ∅ guest (lit "Hello") (Some (lit "Hi!")))
             (kitchen (says "Hi!" [])) in
  runs (addToHistory offline ∅ guest (lit "Hello") (Some (lit "Hi!")))
    r.1.1 r.1.2
  /\ (forall u', u' <> guest -> r.1.2 !! u' = (∅ : historyMap) !! u')
  /\ exists t1 t2,
       r.1.2 !! guest
       = Some (pushHistory (default [] ((∅ : historyMap) !! guest))
                 (lit "Hello") (Some (lit "Hi!")) t1 t2)
       /\ (supabase offline = false \/ isValidUUID guest = false ->
           forall tr' h,
             runs (getConversationHistory offline r.1.2 guest) tr' h ->
             h = pushHistory (default [] ((∅ : historyMap) !! guest))
                   (lit "Hello") (Some (lit "Hi!")) t1 t2
             /\ count (@isDatastoreCall) tr' = 0%nat).
Proof.
  intros r.
  assert (runs (addToHistory offline ∅ guest (lit "Hello") (Some (lit "Hi!")))
            r.1.1 r.1.2) as R by apply run_runs.
  split; [exact R|].
  exact (in_memory_history_round_trip offline ∅ guest (lit "Hello")
           (Some (lit "Hi!")) r.1.1 r.1.2 R).
Defined.

Lemma unconfigured_datastore_is_never_called_witness :
  let req := post (Some alice) "How do I make dal?" in
  let r := run store (handler offline ∅ req)
             (kitchen (says "Noted." [dietCall])) in
  (supabase offline = false /\ runs (handler offline ∅ req) r.1.1 r.1.2)
  /\ count (@isDatastoreCall) r.1.1 = 0%nat.
Proof.
  intros req r.
  assert (runs (handler offline ∅ req) r.1.1 r.1.2) as R by apply run_runs.
  split; [split; [reflexivity|exact R]|].
  exact (unconfigured_datastore_is_never_called offline ∅ req r.1.1 r.1.2
           eq_refl R).
Defined.

Lemma guest_reads_and_history_skip_datastore_witness :
  isValidUUID guest = false
  /\ (forall tr l, runs (getUserPreferences live guest) tr l ->
                   l = [] /\ count (@isDatastoreCall) tr = 0%nat)
  /\ (forall t tr l, runs (getUserMemory live guest t) tr l ->
                     l = [] /\ count (@isDatastoreCall) tr = 0%nat)
  /\ (forall b tr l, runs (getUserRecipes live guest b) tr l ->
                     l = [] /\ count (@isDatastoreCall) tr = 0%nat)
  /\ (forall tr h, runs (getConversationHistory live ∅ guest) tr h ->
                   h = default [] ((∅ : historyMap) !! guest)
                   /\ count (@isDatastoreCall) tr = 0%nat)
  /\ (forall m r tr mem', runs (addToHistory live ∅ guest m r) tr mem' ->
                          count (@isDatastoreCall) tr = 0%nat).
Proof.
  assert (isValidUUID guest = false) as Hu by (vm_compute; reflexivity).
  split; [exact Hu|].
  exact (guest_reads_and_history_skip_datastore live ∅ guest Hu).
Defined.

Lemma guest_turn_without_tool_call_never_writes_witness :
  let req := post None "How do I make dal?" in
  let r := run store (handler live ∅ req)
             (kitchen (says "Simmer the lentils." [])) in
  (isValidUUID (default (lit "web") (user_id req)) = false
   /\ Forall toolFree r.1.1
   /\ runs (handler live ∅ req) r.1.1 r.1.2)
  /\ count (@isWrite) r.1.1 = 0%nat.
Proof.
  intros req r.
  assert (isValidUUID (default (lit "web") (user_id req)) = false) as Hu
    by (vm_compute; reflexivity).
  assert (Forall toolFree r.1.1) as Hf
    by (vm_compute; repeat constructor).
  assert (runs (handler live ∅ req) r.1.1 r.1.2) as R by apply run_runs.
  split; [given|].
  exact (guest_turn_without_tool_call_never_writes live ∅ req r.1.1 r.1.2
           Hu Hf R).
Defined.


Lemma reference_image_entries_have_a_query_witness :
  let r := run store
             (turnActions live guest (lit "What is for dinner?") []
                [pictureCall])
             (kitchen (says "Here." [pictureCall])) in
  runs (turnActions live guest (lit "What is for dinner?") [] [pictureCall])
    r.1.1 r.1.2
  /\ Forall queryGiven r.1.2.
Proof.
  intros r.
  assert (runs (turnActions live guest (lit "What is for dinner?") []
                  [pictureCall]) r.1.1 r.1.2) as R by apply run_runs.
  split; [exact R|].
  exact (reference_image_entries_have_a_query live guest
           (lit "What is for dinner?") [] [pictureCall] r.1.1 r.1.2 R).
Defined.

Lemma model_failure_gives_the_apology_witness :
  let r := run store
             (processWithAgent live alice (lit "How do I make dal?") [])
             outage in
  (runs (processWithAgent live alice (lit "How do I make dal?") [])
     r.1.1 r.1.2
   /\ existsb modelUnusable r.1.1 = true)
  /\ r.1.2 = agentFailure
  /\ errorLogged r.1.1 = true
  /\ count (@isWrite) r.1.1 = 0%nat.
Proof.
  intros r.
  assert (runs (processWithAgent live alice (lit "How do I make dal?") [])
            r.1.1 r.1.2) as R by apply run_runs.
  assert (existsb modelUnusable r.1.1 = true) as Hm
    by (vm_compute; reflexivity).
  split; [split; assumption|].
  exact (model_failure_gives_the_apology live alice
           (lit "How do I make dal?") [] r.1.1 r.1.2 R Hm).
Defined.

Lemma metaphor_redirect_never_reaches_the_caller_witness :
  let req := streamedPost None "Vegan cooking is like a war" in
  let text := lit "Vegan cooking is like a war" in
  let r := run store (handler live ∅ req) (kitchen (says "Sure." [])) in
  (method req = lit "POST" /\ GEMINI_API_KEY live = true
   /\ req_text req = Some text /\ trim text <> []
   /\ safe (validateInput text) = true
   /\ checkCookingIntent text <> None
   /\ runs (handler live ∅ req) r.1.1 r.1.2)
  /\ let again := if streamed req then [] else text in
     count (@isModelCall) r.1.1 = 0%nat
  /\ r.1.2.1 = {| status := 200; body := BodyReply (fallbackReply again) |}
  /\ fallbackReply again <> metaphorReply
  /\ errorLogged r.1.1 = true
  /\ exists older t1 t2,
       r.1.2.2 !! default (lit "web") (user_id req)
       = Some (older ++ turnEntries text None t1 t2).
Proof.
  intros req text r.
  assert (trim text <> []) as Ht by (vm_compute; discriminate).
  assert (safe (validateInput text) = true) as Hv
    by (vm_compute; reflexivity).
  assert (checkCookingIntent text <> None) as Hc
    by (vm_compute; discriminate).
  assert (runs (handler live ∅ req) r.1.1 r.1.2) as R by apply run_runs.
  split; [given|].
  exact (metaphor_redirect_never_reaches_the_caller live ∅ req text
           r.1.1 r.1.2 eq_refl eq_refl eq_refl Ht Hv Hc R).
Defined.

Lemma turn_is_recorded_witness :
  let req := post None "How do I make dal?" in
  let text := lit "How do I make dal?" in
  let r := run store (handler live ∅ req)
             (kitchen (says "Simmer the lentils." [])) in
  (method req = lit "POST" /\ GEMINI_API_KEY live = true
   /\ req_text req = Some text /\ trim text <> []
   /\ safe (validateInput text) = true
   /\ runs (handler live ∅ req) r.1.1 r.1.2)
  /\ let u := default (lit "web") (user_id req) in
     (forall u', u' <> u -> r.1.2.2 !! u' = (∅ : historyMap) !! u')
     /\ exists older t1 t2 botResponse,
          r.1.2.2 !! u = Some (older ++ turnEntries text botResponse t1 t2)
          /\ older `suffix_of` default [] ((∅ : historyMap) !! u)
          /\ match botResponse with
             | Some reply =>
                 exists acts n, body r.1.2.1 = BodyTurn reply acts n
             | None =>
                 body r.1.2.1
                 = BodyReply
                     (fallbackReply (if streamed req then [] else text))
             end.
Proof.
  intros req text r.
  assert (trim text <> []) as Ht by (vm_compute; discriminate).
  assert (safe (validateInput text) = true) as Hv
    by (vm_compute; reflexivity).
  assert (runs (handler live ∅ req) r.1.1 r.1.2) as R by apply run_runs.
  split; [given|].
  exact (turn_is_recorded live ∅ req text r.1.1 r.1.2
           eq_refl eq_refl eq_refl Ht Hv R).
Defined.

Lemma letter_case_is_ignored_witness :
  let text := lit "How to make POISON for a crème brûlée" in
  latin1 text
  /\ validateInput (toLowerCase text) = validateInput text
  /\ isValidUUID (toLowerCase text) = isValidUUID text.
Proof.
  intros text.
  assert (latin1 text) as Hl by (vm_compute; repeat constructor).
  split; [exact Hl|].
  exact (letter_case_is_ignored text Hl).
Defined.

Lemma history_read_returns_oldest_rows_witness :
  let w := kitchen (says "Ok" []) in
  (supabase live = true /\ isValidUUID alice = true)
  /\ exists kept dropped,
       run store (getConversationHistory live ∅ alice) w
       = ([Occ (SelectHistory alice) (ok (List.map asEntry kept))],
          List.map asEntry kept, w)
       /\ kept ++ dropped ≡ₚ storedHistory w alice
       /\ length kept = Nat.min 20 (length (storedHistory w alice))
       /\ forall a b, a ∈ kept -> b ∈ dropped ->
            (cm_created_at a <= cm_created_at b)%Z.
Proof.
  intros w.
  assert (isValidUUID alice = true) as Hu by (vm_compute; reflexivity).
  split; [split; [reflexivity|exact Hu]|].
  exact (history_read_returns_oldest_rows live ∅ alice w eq_refl Hu).
Defined.

(* ===================================================================== *)
(** * What the status of a response tells                                 *)
(* ===================================================================== *)

Lemma traced_of_runs {A} (Q : list occurrence -> A -> Prop) (m : prog A) :
  (forall tr a, runs m tr a -> Q tr a) -> traced Q m.
Proof.
  revert Q. induction m as [a|X e k IH]; intros Q H; cbn [traced].
  - apply H. constructor.
  - intros x. apply IH. intros tr a R. apply H. now constructor.
Qed.

Lemma turn_status cfg mem req u text :
  always (fun res => status res.1 = 200) (turn cfg mem req u text).
Proof.
  unfold turn. unmonad.
  apply always_bind, always_trivial. intros h.
  apply always_bind, always_trivial. intros result.
  apply always_bind, always_trivial. intros mem'.
  destruct (reply result) as [r|]; cbn [always bind fst status]; auto.
Qed.

Lemma handler_cases cfg mem req tr res :
  runs (handler cfg mem req) tr res -> handlerCase cfg mem req tr res.
Proof.
  intros R. unfold handlerCase. cbv zeta.
  unfold handler, readJson in R. cbn [andb fst snd] in R. unfold eqb in R.
  set (text := default [] (req_text req)) in *.
  destruct (decide (method req = lit "POST")) as [Hm|Hm].
  2:{ rewrite (bool_decide_eq_false_2 _ Hm) in R. cbn [negb] in R.
      apply (traced_runs
               (fun tr res => status res.1 = 405 /\ res.2 = mem /\ tr = []))
        in R; [|cbn [traced]; auto].
      left. tauto. }
  rewrite (bool_decide_eq_true_2 _ Hm) in R. cbn [negb] in R.
  right. destruct (GEMINI_API_KEY cfg) eqn:Hk; cbn [negb] in R.
  2:{ apply (traced_runs
               (fun tr res => status res.1 = 500 /\ res.2 = mem /\ tr = []))
        in R; [|cbn [traced]; auto].
      left. tauto. }
  right. destruct (trim text) as [|c r] eqn:Ht.
  { apply (traced_runs (fun tr res => status res.1 = 200)) in R;
      [|cbn [traced]; auto].
    left. tauto. }
  right. destruct (safe (validateInput text)) eqn:Hs; cbn [negb] in R.
  - right. apply (always_runs _ _ _ _ (turn_status _ _ _ _ _)) in R.
    repeat split; auto.
  - left. unmonad.
    apply (traced_runs
             (fun tr res =>
                status res.1 = 400 /\ res.2 = mem
                /\ tr = [Occ (ConsoleWarn (lit "Safety violation detected:"))
                           tt])) in R;
      [|cbn [traced bind]; intros []; auto].
    repeat split; try tauto. discriminate.
Qed.

(** A body with a string for its text, or without text, is answered by
    the handler. *)
Lemma endpoint_typed cfg mem req r tr res :
  typed req = Some r ->
  runs (endpoint cfg mem req) tr res ->
  exists sent, res = (Some sent, res.2)
               /\ handlerCase cfg mem r tr (sent, res.2).
Proof.
  intros Ht. unfold endpoint. rewrite Ht. unmonad.
  apply (traced_runs
           (fun tr res =>
              exists sent, res = (Some sent, res.2)
                           /\ handlerCase cfg mem r tr (sent, res.2))).
  apply traced_bind. apply traced_of_runs. intros tr1 [sent mem1] R.
  cbn [traced]. rewrite app_nil_r. exists sent. split; [reflexivity|].
  now apply handler_cases.
Qed.

(** The status of a response tells what happened to the request, whatever
    JSON value its body gives for the text: 405 exactly for a method other
    than POST, 500 exactly for a POST without API key, 400 exactly for a
    text that is a string, not blank, and refused by the gate; no response
    at all exactly when the platform parsed the body and the text is a
    truthy value that is not a string; everything else is answered 200.
    Without a response of status 200, neither the model nor the datastore
    was called and the in-process map is as it was. *)
Theorem status_tells_the_outcome
    (cfg : config) (mem : historyMap) (req : incoming) tr res :
  runs (endpoint cfg mem req) tr res ->
  let sent := status <$> res.1 in
  let ready := in_method req = lit "POST" /\ GEMINI_API_KEY cfg = true in
  (sent = Some 405 <-> in_method req <> lit "POST")
  /\ (sent = Some 500 <->
      in_method req = lit "POST" /\ GEMINI_API_KEY cfg = false)
  /\ (sent = Some 400 <->
      ready /\ exists text,
                 stringText req = Some text /\ trim text <> []
                 /\ safe (validateInput text) = false)
  /\ (sent = None <-> ready /\ truthyText req = true)
  /\ (sent = Some 200 \/ sent = Some 400 \/ sent = Some 405
      \/ sent = Some 500 \/ sent = None)
  /\ (sent <> Some 200 ->
      res.2 = mem /\ count (@isModelCall) tr = 0%nat
      /\ count (@isDatastoreCall) tr = 0%nat).
Proof.
  intros R sent ready. subst sent ready.
  destruct (typed req) as [r|] eqn:Ht.
  - destruct (endpoint_typed cfg mem req r tr res Ht R) as (s0 & E & C).
    rewrite E. cbn [fst snd fmap option_fmap option_map].
    assert (method r = in_method req /\ req_text r = stringText req
            /\ truthyText req = false) as (Em & Et & Ef).
    { unfold typed, stringText, truthyText in *.
      destruct (in_body req) as [u [[t|b]|]|[[u [[t|b]|]]|]];
        inversion Ht; subst; auto. }
    unfold handlerCase in C. cbv zeta in C. cbn [fst snd] in C.
    rewrite Em, Et, Ef in *.
    destruct C as [(Hm & -> & Hr & ->)|[(Hm & Hk & -> & Hr & ->)|[(Hm & Hk & Hb & ->)
        |[(Hm & Hk & Hb & Hs & -> & Hr & ->)|(Hm & Hk & Hb & Hs & ->)]]]];
      repeat match goal with |- _ /\ _ => split end;
      try (intros; split; [exact Hr|split; reflexivity]);
      try (intros H; exfalso; apply H; reflexivity);
      try tauto;
      try (split; [discriminate|];
           intros; repeat match goal with
                     | H : _ /\ _ |- _ => destruct H
                     | H : exists _, _ |- _ => destruct H
                     end; try congruence; fail).
    + split; [discriminate|]. intros [_ (text & Ex & Hne & _)].
      rewrite Ex in Hb. contradiction.
    + split; [intros _|reflexivity]. split; [auto|].
      destruct (stringText req) as [t|]; [exists t; auto|].
      exfalso. apply Hb. reflexivity.
    + split; [discriminate|]. intros [_ (text & Ex & _ & Hu)].
      rewrite Ex in Hs. change (default [] (Some text)) with text in Hs.
      congruence.
  - revert R. unfold endpoint. rewrite Ht. unfold eqb.
    assert (stringText req = None) as Et.
    { unfold typed, stringText in *.
      destruct (in_body req) as [u [[t|b]|]|[[u [[t|b]|]]|]];
        now inversion Ht. }
    rewrite Et.
    destruct (decide (in_method req = lit "POST")) as [Hm|Hm].
    2:{ rewrite (bool_decide_eq_false_2 _ Hm). cbn [negb]. intros R.
        apply (traced_runs
                 (fun tr res =>
                    status <$> res.1 = Some 405 /\ res.2 = mem /\ tr = []))
          in R; [|cbn [traced]; auto].
        destruct R as (-> & -> & ->).
        repeat match goal with |- _ /\ _ => split end;
          try (intros; split; [reflexivity|split; reflexivity]);
          try tauto;
          (split; [discriminate|];
           intros; repeat match goal with
                     | H : _ /\ _ |- _ => destruct H
                     | H : exists _, _ |- _ => destruct H
                     end; congruence). }
    rewrite (bool_decide_eq_true_2 _ Hm). cbn [negb].
    destruct (GEMINI_API_KEY cfg) eqn:Hk; cbn [negb].
    2:{ intros R.
        apply (traced_runs
                 (fun tr res =>
                    status <$> res.1 = Some 500 /\ res.2 = mem /\ tr = []))
          in R; [|cbn [traced]; auto].
        destruct R as (-> & -> & ->).
        repeat match goal with |- _ /\ _ => split end;
          try (intros; split; [reflexivity|split; reflexivity]);
          try tauto;
          (split; [discriminate|];
           intros; repeat match goal with
                     | H : _ /\ _ |- _ => destruct H
                     | H : exists _, _ |- _ => destruct H
                     end; congruence). }
    unmonad. intros R.
    apply (traced_runs
             (fun tr res =>
                status <$> res.1
                = (if truthyText req then None else Some 200)
                /\ res.2 = mem
                /\ tr = [Occ (ConsoleError (lit "Conversation error:")) tt]))
      in R.
    2:{ cbn [traced bind]. intros []. unfold truthyText.
        destruct (in_body req) as [u [[t|[|]]|]|[[u [[t|b]|]]|]];
          cbn [traced]; auto. }
    destruct R as (-> & -> & ->).
    destruct (truthyText req);
      repeat match goal with |- _ /\ _ => split end;
      try (intros; split; [reflexivity|split; reflexivity]);
      try (intros H; exfalso; apply H; reflexivity);
      try tauto;
      (split; [discriminate|];
       intros; repeat match goal with
                 | H : _ /\ _ |- _ => destruct H
                 | H : exists _, _ |- _ => destruct H
                 end; congruence).
Qed.

Lemma status_tells_the_outcome_witness :
  let r := run store (endpoint live ∅ numberText) (kitchen (says "Ok" [])) in
  runs (endpoint live ∅ numberText) r.1.1 r.1.2
  /\ let sent := status <$> r.1.2.1 in
     let ready :=
       in_method numberText = lit "POST" /\ GEMINI_API_KEY live = true in
     (sent = Some 405 <-> in_method numberText <> lit "POST")
     /\ (sent = Some 500 <->
         in_method numberText = lit "POST" /\ GEMINI_API_KEY live = false)
     /\ (sent = Some 400 <->
         ready /\ exists text,
                    stringText numberText = Some text /\ trim text <> []
                    /\ safe (validateInput text) = false)
     /\ (sent = None <-> ready /\ truthyText numberText = true)
     /\ (sent = Some 200 \/ sent = Some 400 \/ sent = Some 405
         \/ sent = Some 500 \/ sent = None)
     /\ (sent <> Some 200 ->
         r.1.2.2 = ∅ /\ count (@isModelCall) r.1.1 = 0%nat
         /\ count (@isDatastoreCall) r.1.1 = 0%nat).
Proof.
  intros r.
  assert (runs (endpoint live ∅ numberText) r.1.1 r.1.2) as R
    by apply run_runs.
  split; [exact R|].
  exact (status_tells_the_outcome live ∅ numberText r.1.1 r.1.2 R).
Defined.

(* ===================================================================== *)
(** * The shopping-list tool                                              *)
(* ===================================================================== *)

(** A shopping-list call whose [items] argument is missing never reaches
    the datastore: the failure is caught and logged, and the action is the
    error entry. With a list of items, even an empty one, and a datastore
    client, the first call is the insert of one row per item, no other
    datastore call follows, and the action reports success exactly when
    that insert was answered without error. *)
Theorem shopping_list_call (cfg : config) (userId : str) :
  (forall tr a,
     runs (executeAddToShoppingList cfg userId None) tr a ->
     a = ActionError (lit "Failed to add to shopping list")
     /\ count (@isDatastoreCall) tr = 0%nat
     /\ errorLogged tr = true)
  /\ (supabase cfg = true ->
      forall l tr a,
        runs (executeAddToShoppingList cfg userId (Some l)) tr a ->
        exists rows answer rest,
          tr = Occ (InsertShopping rows) answer :: rest
          /\ length rows = length l
          /\ count (@isDatastoreCall) rest = 0%nat
          /\ (failed answer = false ->
              rest = []
              /\ a = ShoppingListAdded l
                       (lit "Added " ++ ofN (N.of_nat (length l))
                        ++ lit " items to your shopping list"))
          /\ (failed answer = true ->
              a = ActionError (lit "Failed to add to shopping list")
              /\ errorLogged rest = true)).
Proof.
  split.
  - intros tr a.
    apply (traced_runs
             (fun tr a =>
                a = ActionError (lit "Failed to add to shopping list")
                /\ count (@isDatastoreCall) tr = 0%nat
                /\ errorLogged tr = true)).
    unfold executeAddToShoppingList, addToShoppingList. unmonad.
    destruct (supabase cfg); cbn [negb traced bind]; intros [] [];
      repeat split.
  - intros Hs l tr a.
    apply (traced_runs
             (fun tr a =>
                exists rows answer rest,
                  tr = Occ (InsertShopping rows) answer :: rest
                  /\ length rows = length l
                  /\ count (@isDatastoreCall) rest = 0%nat
                  /\ (failed answer = false ->
                      rest = []
                      /\ a = ShoppingListAdded l
                               (lit "Added " ++ ofN (N.of_nat (length l))
                                ++ lit " items to your shopping list"))
                  /\ (failed answer = true ->
                      a = ActionError (lit "Failed to add to shopping list")
                      /\ errorLogged rest = true))).
    unfold executeAddToShoppingList, addToShoppingList. unmonad.
    rewrite Hs. cbn [negb traced bind].
    intros [d| |]; cbn [traced bind]; [|intros [] []|intros [] []];
      eexists _, _, _; (split; [reflexivity|]);
      (split; [apply length_map|]); (split; [reflexivity|]);
      split; intros H; try discriminate H; split; reflexivity.
Qed.

Lemma shopping_list_call_witness :
  supabase live = true
  /\ (forall tr a,
        runs (executeAddToShoppingList live guest None) tr a ->
        a = ActionError (lit "Failed to add to shopping list")
        /\ count (@isDatastoreCall) tr = 0%nat
        /\ errorLogged tr = true)
  /\ (supabase live = true ->
      forall l tr a,
        runs (executeAddToShoppingList live guest (Some l)) tr a ->
        exists rows answer rest,
          tr = Occ (InsertShopping rows) answer :: rest
          /\ length rows = length l
          /\ count (@isDatastoreCall) rest = 0%nat
          /\ (failed answer = false ->
              rest = []
              /\ a = ShoppingListAdded l
                       (lit "Added " ++ ofN (N.of_nat (length l))
                        ++ lit " items to your shopping list"))
          /\ (failed answer = true ->
              a = ActionError (lit "Failed to add to shopping list")
              /\ errorLogged rest = true)).
Proof.
  split; [reflexivity|].
  exact (shopping_list_call live guest).
Defined.
